(** * Anime1 downloader: a shallow embedding of [download_anime1.py]

    The development follows the source file top-down: Python's built-in
    string operations that the program relies on, [pathlib] paths, a file
    system and network model, a small exception-and-state monad, and then
    the methods of [AnimeDownloader] under their own names.

    Conventions.
    - A Python [str] is a list of Unicode code points ([list N]).
    - Character classes ([str.isspace], [str.isdigit], decimal values) are
      those of Unicode 14.0, the database of CPython 3.11.
    - Paths are POSIX [pathlib] paths; the file system is keyed by canonical
      paths, and canonicalisation is the environment's.  An entry that is
      there can be reached through its path; a name of more than 255 bytes
      cannot be made or looked up in a directory.
    - Text files are kept as the sequence of strings written to them, binary
      files by their length.
    - The trace of a run lists the requests sent and the files written.  The
      progress display and the messages printed are left out, and so is the
      multi-threaded branch of [run]. *)

From Stdlib Require Import ZArith NArith List String Ascii Bool Lia.
From stdpp Require Import base option gmap.
Import ListNotations.
Local Open Scope Z_scope.

(* ================================================================== *)
(** * Python strings *)
(* ================================================================== *)

Module Py.

(** A [str] value: its code points in order. *)
Definition str := list N.

(** ** Literals: UTF-8 decoding of a Rocq string *)

Definition cont (a : ascii) : N := N.land (N_of_ascii a) 63.

Fixpoint utf8_decode (s : string) : str :=
  match s with
  | EmptyString => []
  | String a s1 =>
    let b := N_of_ascii a in
    if (b <? 128)%N then b :: utf8_decode s1
    else if (b <? 224)%N then
      match s1 with
      | String a1 s2 => (N.land b 31 * 64 + cont a1)%N :: utf8_decode s2
      | _ => [b]
      end
    else if (b <? 240)%N then
      match s1 with
      | String a1 (String a2 s3) =>
        (N.land b 15 * 4096 + cont a1 * 64 + cont a2)%N :: utf8_decode s3
      | _ => [b]
      end
    else
      match s1 with
      | String a1 (String a2 (String a3 s4)) =>
        (N.land b 7 * 262144 + cont a1 * 4096 + cont a2 * 64 + cont a3)%N
          :: utf8_decode s4
      | _ => [b]
      end
  end.

(** Number of bytes of the UTF-8 encoding of a code point. *)
Definition utf8_len (c : N) : Z :=
  if (c <? 128)%N then 1 else if (c <? 2048)%N then 2
  else if (c <? 65536)%N then 3 else 4.

Arguments utf8_decode : simpl never.

Definition encoded_len (s : str) : Z :=
  fold_right (fun c n => utf8_len c + n) 0 s.

(** ** Equality *)

Definition eqb (a b : str) : bool := bool_decide (a = b).

(** ** Character classes *)

Definition in_range (c : N) (r : N * N) : bool :=
  ((fst r <=? c) && (c <=? snd r))%N.

Definition in_ranges (t : list (N * N)) (c : N) : bool :=
  existsb (in_range c) t.

(** [str.isspace] for one character. *)
Definition whitespace_table : list (N * N) :=
  [ (0x9, 0xd); (0x1c, 0x20); (0x85, 0x85); (0xa0, 0xa0); (0x1680, 0x1680);
    (0x2000, 0x200a); (0x2028, 0x2029); (0x202f, 0x202f); (0x205f, 0x205f);
    (0x3000, 0x3000) ]%N.

Definition isspace_char : N -> bool := in_ranges whitespace_table.

(** Characters with a decimal value (category Nd): every block starts at
    its zero and its length is a multiple of ten. *)
Definition decimal_table : list (N * N) :=
  [ (0x30, 0x39); (0x660, 0x669); (0x6f0, 0x6f9); (0x7c0, 0x7c9);
    (0x966, 0x96f); (0x9e6, 0x9ef); (0xa66, 0xa6f); (0xae6, 0xaef);
    (0xb66, 0xb6f); (0xbe6, 0xbef); (0xc66, 0xc6f); (0xce6, 0xcef);
    (0xd66, 0xd6f); (0xde6, 0xdef); (0xe50, 0xe59); (0xed0, 0xed9);
    (0xf20, 0xf29); (0x1040, 0x1049); (0x1090, 0x1099); (0x17e0, 0x17e9);
    (0x1810, 0x1819); (0x1946, 0x194f); (0x19d0, 0x19d9); (0x1a80, 0x1a89);
    (0x1a90, 0x1a99); (0x1b50, 0x1b59); (0x1bb0, 0x1bb9); (0x1c40, 0x1c49);
    (0x1c50, 0x1c59); (0xa620, 0xa629); (0xa8d0, 0xa8d9); (0xa900, 0xa909);
    (0xa9d0, 0xa9d9); (0xa9f0, 0xa9f9); (0xaa50, 0xaa59); (0xabf0, 0xabf9);
    (0xff10, 0xff19); (0x104a0, 0x104a9); (0x10d30, 0x10d39);
    (0x11066, 0x1106f); (0x110f0, 0x110f9); (0x11136, 0x1113f);
    (0x111d0, 0x111d9); (0x112f0, 0x112f9); (0x11450, 0x11459);
    (0x114d0, 0x114d9); (0x11650, 0x11659); (0x116c0, 0x116c9);
    (0x11730, 0x11739); (0x118e0, 0x118e9); (0x11950, 0x11959);
    (0x11c50, 0x11c59); (0x11d50, 0x11d59); (0x11da0, 0x11da9);
    (0x16a60, 0x16a69); (0x16ac0, 0x16ac9); (0x16b50, 0x16b59);
    (0x1d7ce, 0x1d7ff); (0x1e140, 0x1e149); (0x1e2f0, 0x1e2f9);
    (0x1e950, 0x1e959); (0x1fbf0, 0x1fbf9) ]%N.

(** Characters that are digits without being decimals (superscripts,
    circled digits and the like): [str.isdigit] accepts them, [int] does
    not. *)
Definition digit_only_table : list (N * N) :=
  [ (0xb2, 0xb3); (0xb9, 0xb9); (0x1369, 0x1371); (0x19da, 0x19da);
    (0x2070, 0x2070); (0x2074, 0x2079); (0x2080, 0x2089); (0x2460, 0x2468);
    (0x2474, 0x247c); (0x2488, 0x2490); (0x24ea, 0x24ea); (0x24f5, 0x24fd);
    (0x24ff, 0x24ff); (0x2776, 0x277e); (0x2780, 0x2788); (0x278a, 0x2792);
    (0x10a40, 0x10a43); (0x10e60, 0x10e68); (0x11052, 0x1105a);
    (0x1f100, 0x1f10a) ]%N.

Fixpoint decimal_in (t : list (N * N)) (c : N) : option N :=
  match t with
  | [] => None
  | r :: t' => if in_range c r then Some ((c - fst r) mod 10)%N
               else decimal_in t' c
  end.

(** [unicodedata.decimal]: the value of a decimal digit character. *)
Definition decimal_value : N -> option N := decimal_in decimal_table.

Definition isdigit_char (c : N) : bool :=
  in_ranges decimal_table c || in_ranges digit_only_table c.

(** [str.isdigit]: non-empty and made of digit characters only. *)
Definition isdigit (s : str) : bool :=
  match s with [] => false | _ => forallb isdigit_char s end.

(** ** [str.strip] *)

Fixpoint lstrip (s : str) : str :=
  match s with
  | c :: s' => if isspace_char c then lstrip s' else s
  | [] => []
  end.

Definition rstrip (s : str) : str := rev (lstrip (rev s)).

Definition strip (s : str) : str := rstrip (lstrip s).

(** ** Substrings: [in], [str.find], [str.replace] *)

Fixpoint startswith (p s : str) : bool :=
  match p, s with
  | [], _ => true
  | a :: p', b :: s' => (a =? b)%N && startswith p' s'
  | _ :: _, [] => false
  end.

(** [sub in s]. *)
Fixpoint contains (sub s : str) : bool :=
  startswith sub s ||
  match s with
  | [] => false
  | _ :: s' => contains sub s'
  end.

(** [s.find(sub)], [None] standing for -1. *)
Fixpoint find (sub s : str) : option nat :=
  if startswith sub s then Some O
  else match s with
       | [] => None
       | _ :: s' => option_map S (find sub s')
       end.

(** The scan of [s.replace(old, new)] for a non-empty [old]: [skip] counts
    the characters of a match still to be dropped. *)
Fixpoint replace_scan (old new : str) (skip : nat) (s : str) : str :=
  match s with
  | [] => []
  | c :: s' =>
    match skip with
    | S k => replace_scan old new k s'
    | O => if startswith old s
           then new ++ replace_scan old new (length old - 1) s'
           else c :: replace_scan old new O s'
    end
  end.

(** [s.replace(old, new)]: every non-overlapping occurrence, leftmost
    first; an empty [old] matches before every character and at the end. *)
Definition replace (old new s : str) : str :=
  match old with
  | [] => new ++ flat_map (fun c => c :: new) s
  | _ => replace_scan old new O s
  end.

(** ** [str.split(sep)[-1]] and [str.lower] on ASCII *)

(** The part of [s] after the last occurrence of the character [sep]. *)
Fixpoint after_last (sep : N) (s : str) : str :=
  match s with
  | [] => []
  | c :: s' =>
    if existsb (N.eqb sep) s' then after_last sep s'
    else if (c =? sep)%N then s' else s
  end.

Definition lower_char (c : N) : N :=
  if ((65 <=? c) && (c <=? 90))%N then (c + 32)%N else c.

(** [str.lower] restricted to the ASCII letters; no other character
    lowercases to an ASCII letter or digit of [mp4] or [m3u8], so the test
    of the extension is the code's.  On a suffix with other upper-case
    letters the text differs from [str.lower]'s, and with it the text of
    the error that shows the suffix. *)
Definition lower_ascii (s : str) : str := map lower_char s.

(** ** [int(s)] and number formatting *)

(** The ASCII image [int] parses: ASCII characters are kept, other white
    space becomes a blank, other decimal digits their ASCII digit, and
    anything else a question mark. *)
Definition to_ascii_decimal (c : N) : N :=
  if (c <? 127)%N then c
  else if isspace_char c then 32%N
  else match decimal_value c with
       | Some d => (48 + d)%N
       | None => 63%N
       end.

(** C's [isspace]: the blanks [int] skips around the number. *)
Definition c_isspace (c : N) : bool :=
  ((9 <=? c) && (c <=? 13) || (c =? 32))%N.

Fixpoint skip_c_space (s : str) : str :=
  match s with
  | c :: s' => if c_isspace c then skip_c_space s' else s
  | [] => []
  end.

Definition ascii_digit (c : N) : option Z :=
  if ((48 <=? c) && (c <=? 57))%N then Some (Z.of_N c - 48) else None.

(** Digits with single underscores between them, then trailing blanks.
    [prev_digit] tells whether the previous character was a digit; the
    result is the value and the number of digits read. *)
Fixpoint digits_value (s : str) (acc : Z) (n : nat) (prev_digit : bool)
  : option (Z * nat) :=
  match s with
  | [] => if prev_digit then Some (acc, n) else None
  | c :: s' =>
    match ascii_digit c with
    | Some d => digits_value s' (10 * acc + d) (S n) true
    | None =>
      if (c =? 95)%N then
        if prev_digit then
          match s' with
          | c' :: _ => match ascii_digit c' with
                       | Some _ => digits_value s' acc n false
                       | None => None
                       end
          | [] => None
          end
        else None
      else if prev_digit then
        match skip_c_space s with
        | [] => Some (acc, n)
        | _ => None
        end
      else None
    end
  end.

(** CPython's default limit on the number of digits [int] converts. *)
Definition int_max_str_digits : nat := 4300.

(** [int(s)] in base ten; [None] stands for [ValueError]. *)
Definition int (s : str) : option Z :=
  let a := skip_c_space (map to_ascii_decimal s) in
  let '(neg, body) :=
    match a with
    | c :: a' => if (c =? 45)%N then (true, a')
                 else if (c =? 43)%N then (false, a') else (false, a)
    | [] => (false, a)
    end in
  match digits_value body 0 O false with
  | Some (v, n) =>
    if (int_max_str_digits <? n)%nat then None
    else Some (if neg then - v else v)
  | None => None
  end.

Fixpoint uint_digits (u : Decimal.uint) : str :=
  match u with
  | Decimal.Nil => []
  | Decimal.D0 u' => 48%N :: uint_digits u'
  | Decimal.D1 u' => 49%N :: uint_digits u'
  | Decimal.D2 u' => 50%N :: uint_digits u'
  | Decimal.D3 u' => 51%N :: uint_digits u'
  | Decimal.D4 u' => 52%N :: uint_digits u'
  | Decimal.D5 u' => 53%N :: uint_digits u'
  | Decimal.D6 u' => 54%N :: uint_digits u'
  | Decimal.D7 u' => 55%N :: uint_digits u'
  | Decimal.D8 u' => 56%N :: uint_digits u'
  | Decimal.D9 u' => 57%N :: uint_digits u'
  end.

(** [str(n)] for an integer. *)
Definition of_int (n : Z) : str :=
  match n with
  | Z0 => [48%N]
  | Zpos p => uint_digits (Pos.to_uint p)
  | Zneg p => 45%N :: uint_digits (Pos.to_uint p)
  end.

(** [f"{n:02d}"]: zero-padded to a width of two, sign included. *)
Definition format_02d (n : Z) : str :=
  let d := of_int n in
  match d with
  | [c] => [48%N; c]
  | _ => d
  end.

End Py.

Abbreviation py := Py.utf8_decode.

(* ================================================================== *)
(** * [pathlib] paths (POSIX flavour) *)
(* ================================================================== *)

Module Pathlib.

(** How a path starts: relative, at the root, or at the double-slash root
    that POSIX keeps apart. *)
Inductive anchor := Rel | Root | Root2.

Record Path := mkPath { path_anchor : anchor; parts : list Py.str }.

#[global] Instance anchor_eq_dec : EqDecision anchor.
Proof. solve_decision. Defined.

#[global] Instance Path_eq_dec : EqDecision Path.
Proof. solve_decision. Defined.

Definition anchor_code (a : anchor) : nat :=
  match a with Rel => 0 | Root => 1 | Root2 => 2 end%nat.

Definition anchor_of_code (n : nat) : anchor :=
  match n with O => Rel | S O => Root | _ => Root2 end.

#[global] Instance Path_countable : Countable Path.
Proof.
  apply (inj_countable'
           (fun p => (anchor_code (path_anchor p), parts p))
           (fun c => mkPath (anchor_of_code (fst c)) (snd c))).
  intros [[] ps]; reflexivity.
Defined.

Definition slash : N := 47%N.
Definition dot : N := 46%N.

(** [s.split("/")]. *)
Fixpoint split_slash (s : Py.str) : list Py.str :=
  match s with
  | [] => [[]]
  | c :: s' =>
    if (c =? slash)%N then [] :: split_slash s'
    else match split_slash s' with
         | w :: ws => (c :: w) :: ws
         | [] => [[c]]
         end
  end.

Definition is_component (w : Py.str) : bool :=
  negb (Py.eqb w []) && negb (Py.eqb w [dot]).

Fixpoint leading_slashes (s : Py.str) : nat :=
  match s with
  | c :: s' => if (c =? slash)%N then S (leading_slashes s') else O
  | [] => O
  end.

(** [Path(s)]: empty and [.] components are dropped. *)
Definition parse (s : Py.str) : Path :=
  mkPath (match leading_slashes s with
          | O => Rel
          | 2%nat => Root2
          | _ => Root
          end)
         (List.filter is_component (split_slash s)).

(** [p / s]: an absolute right operand replaces the left one. *)
Definition joinpath (p : Path) (s : Py.str) : Path :=
  let q := parse s in
  match path_anchor q with
  | Rel => mkPath (path_anchor p) (parts p ++ parts q)
  | _ => q
  end.

(** [p.name]: the last component, empty when there is none. *)
Definition name (p : Path) : Py.str := List.last (parts p) [].

(** [p.parent]: a path without components is its own parent. *)
Definition parent (p : Path) : Path :=
  mkPath (path_anchor p) (removelast (parts p)).

(** [p.with_name(n)] for a single-component [n]; [None] stands for the
    [ValueError] raised on a path that has no name. *)
Definition with_name (p : Path) (n : Py.str) : option Path :=
  match parts p with
  | [] => None
  | _ => Some (mkPath (path_anchor p) (removelast (parts p) ++ [n]))
  end.

Fixpoint join_slash (ws : list Py.str) : Py.str :=
  match ws with
  | [] => []
  | [w] => w
  | w :: ws' => w ++ slash :: join_slash ws'
  end.

(** [p.as_posix()], which is also [str(p)] here. *)
Definition as_posix (p : Path) : Py.str :=
  match path_anchor p, parts p with
  | Rel, [] => [dot]
  | Rel, ws => join_slash ws
  | Root, ws => slash :: join_slash ws
  | Root2, ws => slash :: slash :: join_slash ws
  end.

End Pathlib.

Export Pathlib.
Infix "//" := joinpath (at level 40, left associativity).

(* ================================================================== *)
(** * Exceptions, the file system and the outside world *)
(* ================================================================== *)

Inductive exn_class :=
| Exception | ValueError | ConnectionError | IndexError | JSONDecodeError
| UnboundLocalError | FileExistsError | FileNotFoundError
| NotADirectoryError | IsADirectoryError | OSError.

(** A raised exception: its class and its message (empty for the errors
    raised by built-ins). *)
Record exn := Raise { exn_cls : exn_class; exn_msg : Py.str }.

#[global] Instance exn_class_eq_dec : EqDecision exn_class.
Proof. solve_decision. Defined.

(** File contents: what the program wrote as text, or a number of bytes. *)
Inductive data := Blob (size : Z) | Text (records : list Py.str).

Inductive node := Dir | File (d : data).

#[global] Instance data_eq_dec : EqDecision data.
Proof. solve_decision. Defined.

#[global] Instance node_eq_dec : EqDecision node.
Proof. solve_decision. Defined.

(** [st_size] of a file. *)
Definition st_size (d : data) : Z :=
  match d with
  | Blob n => n
  | Text rs => Py.encoded_len (concat rs)
  end.

(** [st_size] of a directory (one block). *)
Definition dir_st_size : Z := 4096.

Abbreviation FS := (gmap Path node).

Definition headers := list (Py.str * Py.str).

(** What the program does to the outside, as it does it: a request sent
    through the session, or a file written. *)
Inductive event :=
| Post (url : Py.str) (body : option Py.str)
| Get (url : Py.str) (hdrs : headers)
| Write (p : Path) (d : data).

(** What the program reads of a [requests] response. *)
Record Response := {
  status_code : Z;
  text : Py.str;
  set_cookie : option Py.str;      (* the [set-cookie] header *)
  content_length : option Py.str;  (* the [Content-Length] header *)
  content : Z                      (* length of the body in bytes *)
}.

(** What the program reads of a parsed episode page: the first
    [video.video-js] element with its [data-apireq] attribute, and the text
    of the first [h2.entry-title]. *)
Record Page := {
  video_js : option (option Py.str);
  entry_title : option Py.str
}.

(** The API answer at the shape the program reads: an object whose [s],
    when present, is a list of objects whose [src], when present, is a
    string. *)
Record Source := { src : option Py.str }.
Record ApiData := { api_s : option (list Source) }.

(** Everything outside the program. *)
Record Env := {
  realpath : Path -> Path;
  http_post : Py.str -> option Py.str -> Response;
  http_get : Py.str -> headers -> Response;
  soup : Py.str -> Page;                       (* BeautifulSoup(text, 'lxml') *)
  json : Py.str -> option ApiData;             (* response.json() *)
  m3u8_segments : Py.str -> list Py.str;       (* segment URIs of m3u8.loads *)
  ffmpeg : Path -> Path -> FS -> bool * FS;    (* concat run: exit ok, effect *)
  completion_order : nat -> list nat           (* order in which workers end *)
}.

(** The same outside world with the workers of the pool finishing in the
    order [order]. *)
Definition with_completion_order (E : Env) (order : nat -> list nat) : Env :=
  {| realpath := realpath E;
     http_post := http_post E;
     http_get := http_get E;
     soup := soup E;
     json := json E;
     m3u8_segments := m3u8_segments E;
     ffmpeg := ffmpeg E;
     completion_order := order |}.

(** The state a method runs in: the file system, and the requests sent and
    files written so far, oldest first. *)
Record World := mkWorld { fs : FS; trace : list event }.

(** ** The monad: a raised exception keeps the state reached *)

Definition M (A : Type) : Type := World -> (exn + A) * World.

Definition ret {A} (x : A) : M A := fun w => (inr x, w).

Definition raise {A} (c : exn_class) (msg : Py.str) : M A :=
  fun w => (inl (Raise c msg), w).

Definition throw {A} (e : exn) : M A := fun w => (inl e, w).

Definition bind {A B} (c : M A) (k : A -> M B) : M B :=
  fun w => match c w with
           | (inr x, w') => k x w'
           | (inl e, w') => (inl e, w')
           end.

#[global] Instance M_ret : MRet M := @ret.
#[global] Instance M_bind : MBind M := fun A B k c => bind c k.

(** [try: c except Exception: pass], as a worker of a pool whose result is
    never read. *)
Definition swallow {A} (c : M A) : M unit :=
  fun w => (inr tt, snd (c w)).

Definition log (e : event) : M unit :=
  fun w => (inr tt, mkWorld (fs w) (trace w ++ [e])).

Definition get_fs : M FS := fun w => (inr (fs w), w).

Definition put_fs (f : FS) : M unit :=
  fun w => (inr tt, mkWorld f (trace w)).

(** The longest file name the file system takes, in bytes: making or
    looking up a longer one in a directory is refused with a plain
    [OSError] (file name too long). *)
Definition name_max : Z := 255.

Definition name_too_long (p : Path) : bool :=
  name_max <? Py.encoded_len (name p).

Section OS.
Context (E : Env).

Definition session_post (url : Py.str) (body : option Py.str) : M Response :=
  log (Post url body);; mret (http_post E url body).

Definition session_get (url : Py.str) (h : headers) : M Response :=
  log (Get url h);; mret (http_get E url h).

Definition lookup_path (f : FS) (p : Path) : option node :=
  f !! realpath E p.

Definition is_dir_in (f : FS) (p : Path) : bool :=
  match lookup_path f p with Some Dir => true | _ => false end.

Definition exists_in (f : FS) (p : Path) : bool :=
  match lookup_path f p with Some _ => true | None => false end.

(** A path without an entry is refused, rather than missing, when its
    directory is there and its name is too long. *)
Definition refused (f : FS) (p : Path) : bool :=
  is_dir_in f (parent p) && name_too_long p.

(** [p.exists()]: a missing entry gives [False], a name that is refused
    raises. *)
Definition path_exists (p : Path) : M bool :=
  f ← get_fs;
  match lookup_path f p with
  | Some _ => mret true
  | None =>
    if refused f p then raise OSError (as_posix p) else mret false
  end.

(** [os.mkdir(p)]: an existing entry is reported first. *)
Definition os_mkdir (p : Path) : M unit :=
  f ← get_fs;
  match lookup_path f p with
  | Some _ => raise FileExistsError (as_posix p)
  | None =>
    match lookup_path f (parent p) with
    | Some Dir =>
      if name_too_long p then raise OSError (as_posix p)
      else put_fs (<[realpath E p := Dir]> f)
    | Some (File _) => raise NotADirectoryError (as_posix p)
    | None => raise FileNotFoundError (as_posix p)
    end
  end.

(** [p.mkdir(parents=False, exist_ok=exist_ok)] *)
Definition mkdir_single (p : Path) (exist_ok : bool) : M unit :=
  fun w =>
    match os_mkdir p w with
    | (inr tt, w') => (inr tt, w')
    | (inl e, w') =>
      match exn_cls e with
      | FileNotFoundError => (inl e, w')
      | _ => if exist_ok && is_dir_in (fs w') p then (inr tt, w')
             else (inl e, w')
      end
    end.

(** [p.mkdir(parents=True, exist_ok=exist_ok)] where [p] has the anchor
    [a] and the components [rev rp]: a missing parent is created first,
    with [exist_ok=True], and the directory itself is then made without
    [parents]. *)
Fixpoint mkdir_parents (a : anchor) (rp : list Py.str) (exist_ok : bool)
  : M unit :=
  let p := mkPath a (rev rp) in
  fun w =>
    match os_mkdir p w with
    | (inr tt, w') => (inr tt, w')
    | (inl e, w') =>
      match exn_cls e with
      | FileNotFoundError =>
        match rp with
        | [] => (inl e, w')
        | _ :: rp' =>
          (mkdir_parents a rp' true;; mkdir_single p exist_ok) w'
        end
      | _ => if exist_ok && is_dir_in (fs w') p then (inr tt, w')
             else (inl e, w')
      end
    end.

(** [p.mkdir(parents=parents, exist_ok=exist_ok)] *)
Definition mkdir (p : Path) (parents exist_ok : bool) : M unit :=
  if parents then mkdir_parents (path_anchor p) (rev (parts p)) exist_ok
  else mkdir_single p exist_ok.

(** [p.unlink()] *)
Definition unlink (p : Path) : M unit :=
  f ← get_fs;
  match lookup_path f p with
  | Some (File _) => put_fs (delete (realpath E p) f)
  | Some Dir => raise IsADirectoryError (as_posix p)
  | None =>
    if refused f p then raise OSError (as_posix p)
    else raise FileNotFoundError (as_posix p)
  end.

(** [p.stat().st_size] *)
Definition stat_st_size (p : Path) : M Z :=
  f ← get_fs;
  match lookup_path f p with
  | Some (File d) => mret (st_size d)
  | Some Dir => mret dir_st_size
  | None =>
    if refused f p then raise OSError (as_posix p)
    else raise FileNotFoundError (as_posix p)
  end.

(** Opening [p] for writing and writing [d]: the file is created or
    replaced; a new file needs a name that is not too long. *)
Definition write_file (p : Path) (d : data) : M unit :=
  f ← get_fs;
  match lookup_path f p with
  | Some Dir => raise IsADirectoryError (as_posix p)
  | existing =>
    match lookup_path f (parent p) with
    | Some Dir =>
      if negb (bool_decide (is_Some existing)) && name_too_long p
      then raise OSError (as_posix p)
      else put_fs (<[realpath E p := File d]> f);; log (Write p d)
    | Some (File _) => raise NotADirectoryError (as_posix p)
    | None => raise FileNotFoundError (as_posix p)
    end
  end.

(** [a.rename(b)] for a file [a]: an existing file [b] is replaced; a
    new name must not be too long. *)
Definition rename (a b : Path) : M unit :=
  f ← get_fs;
  match lookup_path f a with
  | Some (File d) =>
    match lookup_path f b with
    | Some Dir => raise IsADirectoryError (as_posix b)
    | existing =>
      match lookup_path f (parent b) with
      | Some Dir =>
        if negb (bool_decide (is_Some existing)) && name_too_long b
        then raise OSError (as_posix b)
        else put_fs (<[realpath E b := File d]> (delete (realpath E a) f))
      | Some (File _) => raise NotADirectoryError (as_posix b)
      | None => raise FileNotFoundError (as_posix b)
      end
    end
  | Some Dir => raise IsADirectoryError (as_posix a)
  | None =>
    if refused f a then raise OSError (as_posix a)
    else raise FileNotFoundError (as_posix a)
  end.

(** [k] is [d] or lies below it. *)
Definition under (d k : Path) : bool :=
  bool_decide (path_anchor d = path_anchor k) &&
  bool_decide (take (length (parts d)) (parts k) = parts d).

(** [shutil.rmtree(p)] *)
Definition rmtree (p : Path) : M unit :=
  f ← get_fs;
  match lookup_path f p with
  | Some Dir =>
    put_fs (filter (fun kv => under (realpath E p) (fst kv) = false) f)
  | Some (File _) => raise NotADirectoryError (as_posix p)
  | None =>
    if refused f p then raise OSError (as_posix p)
    else raise FileNotFoundError (as_posix p)
  end.

End OS.

(* ================================================================== *)
(** * [AnimeDownloader] *)
(* ================================================================== *)

(** The configuration the methods read. [seasons] keeps the order of the
    YAML mapping; [user_agent] is [HEADERS.get('user-agent', '')]. *)
Record Config := {
  root_download_path : Path;
  seasons : list (Py.str * Py.str);
  user_agent : Py.str
}.

(** ** Names *)

(** The characters the pattern of [sanitize_video_name] removes: backslash,
    slash, colon, asterisk, question mark, double quote, angle brackets and
    the vertical bar. *)
Definition illegal_chars : list N :=
  [92; 47; 58; 42; 63; 34; 60; 62; 124]%N.

Definition sanitize_video_name (video_name : Py.str) : Py.str :=
  List.filter (fun c => negb (existsb (N.eqb c) illegal_chars)) video_name.

Definition newline : N := 10%N.

(** [s.rsplit(c, 1)] when [c] occurs: the text before and after the last
    [c]. *)
Fixpoint rsplit_char (c : N) (s : Py.str) : option (Py.str * Py.str) :=
  match s with
  | [] => None
  | x :: s' =>
    match rsplit_char c s' with
    | Some (a, b) => Some (x :: a, b)
    | None => if (x =? c)%N then Some ([], s') else None
    end
  end.

(** The lines of [s], cut at line feeds (the only character [.] refuses). *)
Fixpoint split_lines (s : Py.str) : list Py.str :=
  match s with
  | [] => [[]]
  | c :: s' =>
    if (c =? newline)%N then [] :: split_lines s'
    else match split_lines s' with
         | l :: ls => (c :: l) :: ls
         | [] => [[c]]
         end
  end.

(** A match of the title pattern (anything, an opening bracket, anything,
    a closing bracket) inside one line: both groups are greedy, so the
    second ends at the last closing bracket and the first at the last
    opening bracket before it. *)
Definition match_brackets (line : Py.str) : option (Py.str * Py.str) :=
  match rsplit_char 93 line with
  | Some (before, _) => rsplit_char 91 before
  | None => None
  end.

(** [re.search] with the title pattern: the leftmost match, which lies in
    the first line that has one and starts with that line. *)
Fixpoint search_brackets (lines : list Py.str) : option (Py.str * Py.str) :=
  match lines with
  | [] => None
  | l :: ls =>
    match match_brackets l with
    | Some g => Some g
    | None => search_brackets ls
    end
  end.

Definition parse_video_name (video_name : Py.str) : exn + Py.str * Py.str :=
  match search_brackets (split_lines video_name) with
  | None =>
    inl (Raise ValueError
           (py "影片名稱格式不正確，應為 '動畫名稱[集數]'"))
  | Some (g1, g2) => inr (Py.strip g1, Py.strip g2)
  end.

(** The loop over [self.seasons.items()]. *)
Fixpoint get_and_replace_season_number
  (seasons : list (Py.str * Py.str)) (anime_name : Py.str)
  : option Py.str * Py.str :=
  match seasons with
  | [] => (None, anime_name)
  | (season_chinese, season_code) :: rest =>
    if Py.contains season_chinese anime_name
    then (Some season_code,
          Py.strip (Py.replace season_chinese [] anime_name))
    else get_and_replace_season_number rest anime_name
  end.

(** Truth value of an [Optional[str]]. *)
Definition truthy (o : option Py.str) : bool :=
  match o with Some (_ :: _) => true | _ => false end.

Definition str_of (o : option Py.str) : Py.str :=
  match o with Some s => s | None => py "None" end.

(** [int(s)] as a statement. *)
Definition py_int (s : Py.str) : M Z :=
  match Py.int s with
  | Some n => mret n
  | None => raise ValueError []
  end.

Section Downloader.
Context (E : Env) (cfg : Config).

Definition format_video_path
  (anime_name : Py.str) (season_num : option Py.str) (episode_num : Py.str)
  : M Path :=
  episode_str ←
    (if Py.isdigit episode_num
     then n ← py_int episode_num; mret (Py.format_02d n)
     else mret episode_num);
  '(download_folder, video_path) ←
    (if truthy season_num && Py.isdigit episode_num then
       n ← py_int (str_of season_num);
       let download_folder :=
         root_download_path cfg // anime_name
           // (py "Season " ++ Py.of_int n) in
       mret (download_folder,
             download_folder //
               (anime_name ++ py " - S" ++ str_of season_num ++ py "E"
                  ++ episode_str ++ py ".mp4"))
     else if truthy season_num then
       n ← py_int (str_of season_num);
       let download_folder :=
         root_download_path cfg // anime_name
           // (py "Season " ++ Py.of_int n) in
       mret (download_folder,
             download_folder //
               (anime_name ++ py " - S" ++ str_of season_num ++ py " - "
                  ++ episode_str ++ py ".mp4"))
     else if Py.isdigit episode_num then
       let download_folder :=
         root_download_path cfg // anime_name // py "Season 1" in
       mret (download_folder,
             download_folder //
               (anime_name ++ py " - " ++ episode_str ++ py ".mp4"))
     else
       let download_folder := root_download_path cfg // anime_name in
       mret (download_folder,
             download_folder //
               (anime_name ++ py " - " ++ episode_str ++ py ".mp4")));
  mkdir E download_folder true true;;
  mret video_path.

Definition check_file_exists (video_path : Path) : M unit :=
  b ← path_exists E video_path;
  if b : bool
  then raise FileExistsError (py "檔案已存在於 " ++ as_posix video_path)
  else mret tt.

Definition validate_download (video_path : Path) : M unit :=
  size ← stat_st_size E video_path;
  if (size : Z) <? 1024 * 1024 then
    unlink E video_path;;
    raise Exception (name video_path ++ py " 檔案大小過小")
  else mret tt.

Definition process_video_name (video_name : Py.str) : M Path :=
  let clean_name := sanitize_video_name video_name in
  match parse_video_name clean_name with
  | inl e => throw e
  | inr (anime_name, episode_num) =>
    let '(season_num, anime_name) :=
      get_and_replace_season_number (seasons cfg) anime_name in
    video_path ← format_video_path anime_name season_num episode_num;
    check_file_exists video_path;;
    mret video_path
  end.

(** ** Segmented media *)

(** [d[k] = v] on a [dict]: a key already present keeps its place. *)
Fixpoint dict_set (d : list (Py.str * Py.str)) (k v : Py.str)
  : list (Py.str * Py.str) :=
  match d with
  | [] => [(k, v)]
  | (k', v') :: d' =>
    if Py.eqb k k' then (k, v) :: d' else (k', v') :: dict_set d' k v
  end.

(** A [dict] comprehension over [items]. *)
Definition dict_of_items (items : list (Py.str * Py.str))
  : list (Py.str * Py.str) :=
  fold_left (fun d kv => dict_set d (fst kv) (snd kv)) items [].

(** The segment manifest built from a successful [response] to
    [new_url]. *)
Definition ts_links_of (new_url : Py.str) (response : Response)
  : list (Py.str * Py.str) :=
  let ts_files := m3u8_segments E (text response) in
  dict_of_items
    (map (fun ts_file =>
            (ts_file, Py.replace (py "playlist.m3u8") ts_file new_url))
         ts_files).

(** The loop of [parse_m3u8_from_url] over the remaining [qualities];
    [response] is the variable the loop leaves behind. *)
Fixpoint parse_m3u8_loop (url : Py.str) (h : headers)
  (qualities : list Py.str) (response : option Response)
  : M (list (Py.str * Py.str)) :=
  match qualities with
  | quality :: rest =>
    let new_url := Py.replace (py "playlist") quality url in
    response ← session_get E new_url h;
    if status_code response =? 200 then mret (ts_links_of new_url response)
    else parse_m3u8_loop url h rest (Some response)
  | [] =>
    match response with
    | Some r =>
      raise ConnectionError
            (py "下載失敗，狀態碼：" ++ Py.of_int (status_code r))
    | None => raise UnboundLocalError []
    end
  end.

Definition qualities : list Py.str := [py "1080p"; py "720p"].

Definition parse_m3u8_from_url (url : Py.str) (h : headers)
  : M (list (Py.str * Py.str)) :=
  parse_m3u8_loop url h qualities None.

(** [subprocess.run] of the concat command with [check=True]: [true] when
    the tool exits with status zero. *)
Definition subprocess_run_ffmpeg (m3u8_path out : Path) : M bool :=
  fun w =>
    let '(ok, f) := ffmpeg E m3u8_path out (fs w) in
    (inr ok, mkWorld f (trace w)).

(** The exception raised when the tool fails carries the fixed text only:
    the text of the subprocess error, which the code appends, is left
    out. *)
Definition convert_ts_to_mp4 (ts_folder m3u8_path : Path) : M Path :=
  let ts_folder := realpath E ts_folder in
  let tmp_video_path := ts_folder // py ".temp.mp4" in
  b ← path_exists E tmp_video_path;
  (if b : bool then unlink E tmp_video_path else mret tt);;
  ok ← subprocess_run_ffmpeg m3u8_path tmp_video_path;
  if ok : bool then mret tmp_video_path
  else raise Exception (py "轉換 ts 檔案失敗，錯誤：").

Definition download_single_ts (h : headers) (ts_url : Py.str)
  (ts_path : Path) : M unit :=
  ts_response ← session_get E ts_url h;
  write_file E ts_path (Blob (content ts_response)).

(** The line of the concatenation manifest for one segment. *)
Definition playlist_line (ts_folder : Path) (ts_name : Py.str) : Py.str :=
  py "file '" ++ as_posix (realpath E (ts_folder // ts_name))
     ++ py "'" ++ [newline].

(** The pool: the workers take effect in the order [order] in which they
    complete; what a worker raises stays in its future and is dropped. *)
Fixpoint run_pool (h : headers) (ts_folder : Path)
  (ts_links : list (Py.str * Py.str)) (order : list nat) : M unit :=
  match order with
  | [] => mret tt
  | i :: order' =>
    match nth_error ts_links i with
    | Some (ts_name, ts_url) =>
      swallow (download_single_ts h ts_url (ts_folder // ts_name))
    | None => mret tt
    end;;
    run_pool h ts_folder ts_links order'
  end.

Definition download_ts (download_url : Py.str) (video_path : Path)
  (h : headers) : M unit :=
  ts_links ← parse_m3u8_from_url download_url h;
  let ts_folder := parse (py ".ts") in
  mkdir E ts_folder false true;;
  let m3u8_playlist_path := ts_folder // py "playlist.m3u8" in
  write_file E m3u8_playlist_path
    (Text (map (fun kv => playlist_line ts_folder (fst kv)) ts_links));;
  run_pool h ts_folder ts_links (completion_order E (length ts_links));;
  tmp_video_path ← convert_ts_to_mp4 ts_folder m3u8_playlist_path;
  rename E tmp_video_path video_path;;
  rmtree E ts_folder.

(** ** Progressive media *)

Definition download_mp4 (download_url : Py.str) (video_path : Path)
  (h : headers) : M unit :=
  response ← session_get E download_url h;
  if negb (status_code response =? 200) then
    raise ConnectionError
          (py "下載失敗，狀態碼：" ++ Py.of_int (status_code response))
  else
    total_bytes ← match content_length response with
                  | Some v => py_int v
                  | None => mret 0
                  end;
    if (total_bytes : Z) =? 0 then
      raise ValueError (py "Content-Length 為零，無法下載檔案。")
    else
      match with_name video_path (py "." ++ name video_path) with
      | None => raise ValueError []
      | Some temp_video_path =>
        b ← path_exists E temp_video_path;
        (if b : bool then unlink E temp_video_path else mret tt);;
        write_file E temp_video_path (Blob (content response));;
        rename E temp_video_path video_path
      end.

(** ** One episode *)

(** Case-insensitive match of the ASCII literal [p] at the start of [s]:
    what follows the match. *)
Fixpoint match_literal_i (p s : Py.str) : option Py.str :=
  match p, s with
  | [], _ => Some s
  | a :: p', b :: s' =>
    if (Py.lower_char a =? Py.lower_char b)%N then match_literal_i p' s'
    else None
  | _ :: _, [] => None
  end.

(** The lazy group up to the next semicolon; a line feed ends the try. *)
Fixpoint until_semicolon (s : Py.str) : option Py.str :=
  match s with
  | [] => None
  | c :: s' =>
    if (c =? 59)%N then Some []
    else if (c =? newline)%N then None
    else option_map (cons c) (until_semicolon s')
  end.

(** [re.search] of a literal followed by a lazy group and a semicolon,
    ignoring case: the group of the leftmost match. *)
Fixpoint search_cookie (literal s : Py.str) : option Py.str :=
  match
    match match_literal_i literal s with
    | Some rest => until_semicolon rest
    | None => None
    end
  with
  | Some g => Some g
  | None => match s with
            | [] => None
            | _ :: s' => search_cookie literal s'
            end
  end.

Definition api_url : Py.str := py "https://v.anime1.me/api".

Definition download_episode (url : Py.str) : M unit :=
  response ← session_post E url None;
  let page := soup E (text response) in
  match video_js page with
  | None => raise Exception (py "找不到影片標籤")
  | Some attr =>
    if negb (truthy attr) then raise Exception (py "找不到 data-apireq 資料")
    else
      let data_apireq := str_of attr in
      let payload := py "d=" ++ data_apireq in
      api_response ← session_post E api_url (Some payload);
      api_data ← match json E (text api_response) with
                 | Some d => mret d
                 | None => raise JSONDecodeError []
                 end;
      first ← match default [ {| src := None |} ] (api_s api_data) with
              | x :: _ => mret x
              | [] => raise IndexError []
              end;
      let video_src := src first in
      if negb (truthy video_src) then raise Exception (py "無法取得影片連結")
      else
        let video_url := py "https:" ++ str_of video_src in
        let set_cookie := default [] (set_cookie api_response) in
        match search_cookie (py "e=") set_cookie,
              search_cookie (py "p=") set_cookie,
              search_cookie (py "HttpOnly, h=") set_cookie with
        | Some cookie_e, Some cookie_p, Some cookie_h =>
          let cookies :=
            py "e=" ++ cookie_e ++ py ";p=" ++ cookie_p
               ++ py ";h=" ++ cookie_h ++ py ";" in
          let download_headers :=
            [ (py "Accept", py "*/*");
              (py "Accept-Encoding", py "identity;q=1, *;q=0");
              (py "Accept-Language",
               py "zh-TW,zh;q=0.9,en-US;q=0.8,en;q=0.7");
              (py "Cookie", cookies);
              (py "DNT", py "1");
              (py "User-Agent", user_agent cfg) ] in
          match entry_title page with
          | None => raise Exception (py "找不到影片標題")
          | Some title_text =>
            let title := Py.strip title_text in
            video_path ← process_video_name title;
            let video_suffix :=
              Py.lower_ascii (Py.after_last dot video_url) in
            (if Py.eqb video_suffix (py "mp4") then
               download_mp4 video_url video_path download_headers
             else if Py.eqb video_suffix (py "m3u8") then
               download_ts video_url video_path download_headers
             else
               raise ValueError
                     (py "影片連結的副檔名不支援：" ++ video_suffix));;
            validate_download video_path
          end
        | _, _, _ => raise Exception (py "無法解析 cookie")
        end
  end.

End Downloader.

(* ================================================================== *)
(** * Collecting the URLs *)
(* ================================================================== *)

(** [s.split(sep)] for a one-character separator. *)
Fixpoint split_char (sep : N) (s : Py.str) : list Py.str :=
  match s with
  | [] => [[]]
  | c :: s' =>
    if (c =? sep)%N then [] :: split_char sep s'
    else match split_char sep s' with
         | w :: ws => (c :: w) :: ws
         | [] => [[c]]
         end
  end.

Definition comma : N := 44%N.

(** [get_user_input_urls], as a function of the line typed at the prompt:
    the stripped pieces between commas that are not empty. *)
Definition get_user_input_urls (user_input : Py.str) : list Py.str :=
  List.filter (fun url => negb (Py.eqb url []))
              (map Py.strip (split_char comma user_input)).

Definition carriage_return : N := 13%N.

(** The lines a text file yields when iterated, each with its terminator:
    a line ends at a line feed, a carriage return, or the two in a row, and
    the terminator is read as a line feed; a last line may lack it. *)
Fixpoint file_lines (pending : bool) (s : Py.str) : list Py.str :=
  match s with
  | [] => if pending then [[]] else []
  | c :: s' =>
    if (c =? newline)%N then [newline] :: file_lines false s'
    else if (c =? carriage_return)%N then
      match s' with
      | c' :: s'' =>
        if (c' =? newline)%N then [newline] :: file_lines false s''
        else [newline] :: file_lines false s'
      | [] => [[newline]]
      end
    else match file_lines true s' with
         | l :: ls => (c :: l) :: ls
         | [] => [[c]]
         end
  end.

(** [read_urls_from_file], as a function of the text at [file_path]
    ([None] when the path does not exist): the stripped lines that start
    with [http]. *)
Definition read_urls_from_file (file : option Py.str) : list Py.str :=
  match file with
  | Some content =>
    map Py.strip
        (List.filter (fun line => Py.startswith (py "http") (Py.strip line))
                     (file_lines false content))
  | None => []
  end.

(* ================================================================== *)
(** * Listing pages and the loop over episodes *)
(* ================================================================== *)

(** What the program reads of a parsed listing page: for every entry title
    that has a bookmark link, in page order, the [href] of that link,
    [None] when the link has no such attribute; and the [href] of the link
    in the previous-page block, when there is one. *)
Record Listing := {
  bookmarks : list (option Py.str);
  nav_previous : option Py.str
}.

(** [except Exception as e]: the handler gets the exception and the state
    reached. *)
Definition catch {A} (c : M A) (handler : exn -> M A) : M A :=
  fun w => match c w with
           | (inr x, w') => (inr x, w')
           | (inl e, w') => handler e w'
           end.

(** The character [c] matches the lower-case ASCII letter or sign [p] of a
    pattern compiled with [re.I]. *)
Definition matches_ignoring_case (p c : N) : bool :=
  (Py.lower_char c =? p)%N
  || ((p =? 105)%N && ((c =? 0x130)%N || (c =? 0x131)%N)).

Fixpoint match_pattern_i (p s : Py.str) : option Py.str :=
  match p, s with
  | [], _ => Some s
  | a :: p', b :: s' =>
    if matches_ignoring_case a b then match_pattern_i p' s' else None
  | _ :: _, [] => None
  end.

(** [re.search] of the category pattern: the host, [/category/], then
    anything. *)
Fixpoint is_category_url (anime_url : Py.str) : bool :=
  match match_pattern_i (py "anime1.me/category/") anime_url with
  | Some _ => true
  | None => match anime_url with
            | [] => false
            | _ :: rest => is_category_url rest
            end
  end.

(** A character of the class [\d]. *)
Definition is_decimal_char (c : N) : bool := Py.in_ranges Py.decimal_table c.

(** [re.search] of the episode pattern: the host, a slash, a digit. *)
Fixpoint is_episode_url (anime_url : Py.str) : bool :=
  match match_pattern_i (py "anime1.me/") anime_url with
  | Some (c :: _) =>
    is_decimal_char c
    || match anime_url with
       | [] => false
       | _ :: rest => is_episode_url rest
       end
  | _ => match anime_url with
         | [] => false
         | _ :: rest => is_episode_url rest
         end
  end.

Section Orchestrator.
Context (E : Env) (cfg : Config) (listing : Py.str -> Listing).

(** The loop of [get_season_episodes]: [fuel] bounds the number of pages
    read, and [None] is returned when it runs out before a page without a
    previous page is reached. *)
Fixpoint get_season_episodes_loop (fuel : nat) (current_url : option Py.str)
  (episodes : list (option Py.str)) : M (option (list (option Py.str))) :=
  match current_url with
  | Some (c :: u) =>
    match fuel with
    | O => mret None
    | S fuel' =>
      response ← session_post E (c :: u) None;
      let soup := listing (text response) in
      get_season_episodes_loop fuel' (nav_previous soup)
                               (episodes ++ bookmarks soup)
    end
  | _ => mret (Some episodes)
  end.

Definition get_season_episodes (fuel : nat) (url : Py.str)
  : M (option (list (option Py.str))) :=
  get_season_episodes_loop fuel (Some url) [].

(** [classify_urls], without the messages it prints. *)
Fixpoint classify_urls_loop (fuel : nat) (anime_urls : list Py.str)
  (url_list : list (option Py.str)) : M (option (list (option Py.str))) :=
  match anime_urls with
  | [] => mret (Some url_list)
  | anime_url :: rest =>
    let anime_url := Py.strip anime_url in
    if is_category_url anime_url then
      season_episodes ← get_season_episodes fuel anime_url;
      match season_episodes with
      | Some eps => classify_urls_loop fuel rest (url_list ++ eps)
      | None => mret None
      end
    else if is_episode_url anime_url then
      classify_urls_loop fuel rest (url_list ++ [Some anime_url])
    else classify_urls_loop fuel rest url_list
  end.

Definition classify_urls (fuel : nat) (anime_urls : list Py.str)
  : M (option (list (option Py.str))) :=
  classify_urls_loop fuel anime_urls [].

(** The sequential loop of [run] over [url_list]: an episode that raises
    is recorded, with its URL and exception, in [failed_list], and the loop
    goes on. *)
Fixpoint download_all (url_list : list Py.str)
  (failed_list : list (Py.str * exn)) : M (list (Py.str * exn)) :=
  match url_list with
  | [] => mret failed_list
  | url :: rest =>
    failed_list ←
      catch (download_episode E cfg url;; mret failed_list)
            (fun e => mret (failed_list ++ [(url, e)]));
    download_all rest failed_list
  end.

End Orchestrator.

(* ================================================================== *)
(** * Worked environment

    A concrete outside world used to run the methods on examples: the
    working directory is [/home/user], canonical paths are absolute paths,
    the network answers 404 to everything and workers finish in submission
    order. *)
(* ================================================================== *)

Module Sample.

Definition cwd : Path := parse (py "/home/user").

Definition absolute (p : Path) : Path :=
  match path_anchor p with
  | Rel => mkPath (path_anchor cwd) (parts cwd ++ parts p)
  | _ => p
  end.

Definition not_found : Response :=
  {| status_code := 404; text := []; set_cookie := None;
     content_length := None; content := 0 |}.

Definition offline : Env :=
  {| realpath := absolute;
     http_post := fun _ _ => not_found;
     http_get := fun _ _ => not_found;
     soup := fun _ => {| video_js := None; entry_title := None |};
     json := fun _ => None;
     m3u8_segments := fun _ => [];
     ffmpeg := fun _ _ f => (false, f);
     completion_order := fun n => seq 0 n |}.

(** The season table of the first end-to-end scenario. *)
Definition config : Config :=
  {| root_download_path := parse (py "downloads");
     seasons := [(py "第四季", py "4")];
     user_agent := py "Mozilla/5.0" |}.

(** A file system holding the working directory only. *)
Definition fresh : World := mkWorld {[ cwd := Dir ]} [].

(** The playlist host of the third end-to-end scenario: no 1080p tier, a
    720p tier with three segments, the middle one declared twice. *)
Definition playlist_url : Py.str := py "https://cdn.example/7/playlist.m3u8".

Definition tiers (url : Py.str) : Response :=
  if Py.eqb url (py "https://cdn.example/7/720p.m3u8")
  then {| status_code := 200; text := py "720p"; set_cookie := None;
          content_length := None; content := 120 |}
  else if Py.eqb (Py.after_last dot url) (py "ts")
  then {| status_code := 200; text := []; set_cookie := None;
          content_length := None; content := 700000 |}
  else not_found.

Definition scenario_C : Env :=
  {| realpath := absolute;
     http_post := fun _ _ => not_found;
     http_get := fun url _ => tiers url;
     soup := fun _ => {| video_js := None; entry_title := None |};
     json := fun _ => None;
     m3u8_segments := fun document =>
       if Py.eqb document (py "720p") then
         [py "720p_000.ts"; py "720p_001.ts"; py "720p_001.ts";
          py "720p_002.ts"]
       else [];
     ffmpeg := fun _ _ f => (false, f);
     completion_order := fun n => rev (seq 0 n) |}.

(** The same playlist host answering every request with status 206 and
    the 720p document. *)
Definition partial_content : Env :=
  {| realpath := absolute;
     http_post := fun _ _ => not_found;
     http_get := fun _ _ =>
       {| status_code := 206; text := py "720p"; set_cookie := None;
          content_length := None; content := 120 |};
     soup := fun _ => {| video_js := None; entry_title := None |};
     json := fun _ => None;
     m3u8_segments := m3u8_segments scenario_C;
     ffmpeg := fun _ _ f => (false, f);
     completion_order := fun n => seq 0 n |}.

(** An episode page that resolves: a token, a title, an API answer with
    the source [video_src] and the three cookies, and a media host that
    serves two million bytes. *)
Definition episode_url : Py.str := py "https://anime1.me/12345".

Definition page_response : Response :=
  {| status_code := 200; text := py "<html>"; set_cookie := None;
     content_length := None; content := 6 |}.

Definition api_answer : Response :=
  {| status_code := 200; text := py "{}";
     set_cookie := Some (py "e=1700000000; p=eyJpc3MiOiJhbmltZTEubWUifQ; HttpOnly, h=abc123;");
     content_length := None; content := 2 |}.

Definition media_response : Response :=
  {| status_code := 200; text := []; set_cookie := None;
     content_length := Some (py "2000000"); content := 2000000 |}.

Definition online (video_src : Py.str) : Env :=
  {| realpath := absolute;
     http_post := fun _ body =>
       match body with None => page_response | Some _ => api_answer end;
     http_get := fun _ _ => media_response;
     soup := fun _ =>
       {| video_js := Some (Some (py "token"));
          entry_title := Some (py " 某動畫[OP] ") |};
     json := fun _ => Some {| api_s := Some [ {| src := Some video_src |} ] |};
     m3u8_segments := fun _ => [];
     ffmpeg := fun _ _ f => (false, f);
     completion_order := fun n => seq 0 n |}.

(** The same host serving a placeholder of 512 bytes with status 200. *)
Definition placeholder : Env :=
  {| realpath := absolute;
     http_post := http_post (online (py "//cdn.example/12345.mp4"));
     http_get := fun _ _ =>
       {| status_code := 200; text := []; set_cookie := None;
          content_length := Some (py "512"); content := 512 |};
     soup := soup (online (py "//cdn.example/12345.mp4"));
     json := json (online (py "//cdn.example/12345.mp4"));
     m3u8_segments := fun _ => [];
     ffmpeg := fun _ _ f => (false, f);
     completion_order := fun n => seq 0 n |}.

(** A library in which the episode of [online] is already there. *)
Definition library : World :=
  mkWorld (<[absolute (parse (py "downloads/某動畫/某動畫 - OP.mp4"))
               := File (Blob 150000000)]>
             (<[absolute (parse (py "downloads/某動畫")) := Dir]>
                (<[absolute (parse (py "downloads")) := Dir]>
                   {[ cwd := Dir ]})))
          [].

(** The host of [online] with an API that sets no cookie. *)
Definition without_cookies (video_src : Py.str) : Env :=
  {| realpath := absolute;
     http_post := fun _ body =>
       match body with
       | None => page_response
       | Some _ =>
         {| status_code := 200; text := py "{}"; set_cookie := None;
            content_length := None; content := 2 |}
       end;
     http_get := fun _ _ => media_response;
     soup := soup (online video_src);
     json := json (online video_src);
     m3u8_segments := fun _ => [];
     ffmpeg := fun _ _ f => (false, f);
     completion_order := fun n => seq 0 n |}.

(** A site that answers every page request with the URL asked for, and a
    season of two listing pages; a third address lists a page that names
    itself as its previous page. *)
Definition catalogue : Env :=
  {| realpath := absolute;
     http_post := fun url _ =>
       {| status_code := 200; text := url; set_cookie := None;
          content_length := None; content := 0 |};
     http_get := fun _ _ => not_found;
     soup := fun _ => {| video_js := None; entry_title := None |};
     json := fun _ => None;
     m3u8_segments := fun _ => [];
     ffmpeg := fun _ _ f => (false, f);
     completion_order := fun n => seq 0 n |}.

Definition season_url : Py.str := py "https://anime1.me/category/2024/a".

Definition season_page_2 : Py.str :=
  py "https://anime1.me/category/2024/a/page/2".

Definition looping_url : Py.str := py "https://anime1.me/category/loop".

Definition season_pages (page : Py.str) : Listing :=
  if Py.eqb page season_url then
    {| bookmarks := [Some (py "https://anime1.me/103");
                     Some (py "https://anime1.me/102")];
       nav_previous := Some season_page_2 |}
  else if Py.eqb page season_page_2 then
    {| bookmarks := [Some (py "https://anime1.me/101")];
       nav_previous := None |}
  else if Py.eqb page looping_url then
    {| bookmarks := []; nav_previous := Some looping_url |}
  else {| bookmarks := []; nav_previous := None |}.

End Sample.

(* ================================================================== *)
(** * Notions used in the statements *)
(* ================================================================== *)

(** No marker of the table occurs in the name. *)
Definition no_marker (table : list (Py.str * Py.str)) (anime_name : Py.str)
  : Prop :=
  forall marker code,
    In (marker, code) table -> Py.contains marker anime_name = false.

(** A computation that sends no request and writes no file. *)
Definition silent {A} (c : M A) : Prop :=
  forall w, trace (snd (c w)) = trace w.

(** A computation only adds to the trace. *)
Definition grows {A} (c : M A) : Prop :=
  forall w, exists l, trace (snd (c w)) = trace w ++ l.

(** [int(s)] as a value or the [ValueError] it raises. *)
Definition int_or_error (s : Py.str) : exn + Z :=
  match Py.int s with
  | Some n => inr n
  | None => inl (Raise ValueError [])
  end.

(** The folder and the file [format_video_path] computes, before it makes
    the folder: the same case distinction, without the file system. *)
Definition destination (cfg : Config)
  (anime_name : Py.str) (season_num : option Py.str) (episode_num : Py.str)
  : exn + Path * Path :=
  match (if Py.isdigit episode_num
         then match int_or_error episode_num with
              | inr n => inr (Py.format_02d n)
              | inl e => inl e
              end
         else inr episode_num) with
  | inl e => inl e
  | inr episode_str =>
    if truthy season_num && Py.isdigit episode_num then
      match int_or_error (str_of season_num) with
      | inl e => inl e
      | inr n =>
        let download_folder :=
          root_download_path cfg // anime_name
            // (py "Season " ++ Py.of_int n) in
        inr (download_folder,
             download_folder //
               (anime_name ++ py " - S" ++ str_of season_num ++ py "E"
                  ++ episode_str ++ py ".mp4"))
      end
    else if truthy season_num then
      match int_or_error (str_of season_num) with
      | inl e => inl e
      | inr n =>
        let download_folder :=
          root_download_path cfg // anime_name
            // (py "Season " ++ Py.of_int n) in
        inr (download_folder,
             download_folder //
               (anime_name ++ py " - S" ++ str_of season_num ++ py " - "
                  ++ episode_str ++ py ".mp4"))
      end
    else if Py.isdigit episode_num then
      let download_folder :=
        root_download_path cfg // anime_name // py "Season 1" in
      inr (download_folder,
           download_folder //
             (anime_name ++ py " - " ++ episode_str ++ py ".mp4"))
    else
      let download_folder := root_download_path cfg // anime_name in
      inr (download_folder,
           download_folder //
             (anime_name ++ py " - " ++ episode_str ++ py ".mp4"))
  end.

(** The destination [process_video_name] computes for a title. *)
Definition title_destination (cfg : Config) (video_name : Py.str)
  : exn + Path * Path :=
  match parse_video_name (sanitize_video_name video_name) with
  | inl e => inl e
  | inr (anime_name, episode_num) =>
    let '(season_num, anime_name) :=
      get_and_replace_season_number (seasons cfg) anime_name in
    destination cfg anime_name season_num episode_num
  end.

(** HTTP success as [parse_m3u8_from_url] tests it. *)
Definition ok_status (r : Response) : Prop := status_code r = 200.

(** A success status as HTTP has it, which is what a success status says
    without more: a code from 200 to 299. *)
Definition success_status (r : Response) : Prop :=
  200 <= status_code r <= 299.

(** The distinct elements of a list, each at its first position. *)
Definition first_occurrences (xs : list Py.str) : list Py.str :=
  fold_left
    (fun acc x => if existsb (Py.eqb x) acc then acc else acc ++ [x]) xs [].

(** The manifest [ts_links] is built from the answer [response] to
    [new_url]: its keys are the segment URIs of the document in the
    answer, each at its first place, and the value of a key is [new_url]
    with [playlist.m3u8] replaced by the key. *)
Definition built_from (E : Env) (new_url : Py.str) (response : Response)
  (ts_links : list (Py.str * Py.str)) : Prop :=
  map fst ts_links = first_occurrences (m3u8_segments E (text response))
  /\ Forall (fun kv =>
               snd kv = Py.replace (py "playlist.m3u8") (fst kv) new_url)
            ts_links.

(** The headers [download_episode] sends with the media requests. *)
Definition download_headers (cfg : Config) (cookies : Py.str) : headers :=
  [ (py "Accept", py "*/*");
    (py "Accept-Encoding", py "identity;q=1, *;q=0");
    (py "Accept-Language", py "zh-TW,zh;q=0.9,en-US;q=0.8,en;q=0.7");
    (py "Cookie", cookies);
    (py "DNT", py "1");
    (py "User-Agent", user_agent cfg) ].

Definition episode_page (E : Env) (url : Py.str) : Page :=
  soup E (text (http_post E url None)).

Definition api_payload (token : Py.str) : option Py.str :=
  Some (py "d=" ++ token).

Definition api_response (E : Env) (token : Py.str) : Response :=
  http_post E api_url (api_payload token).

(** The world after the page and the API have been asked. *)
Definition posted (url token : Py.str) (w : World) : World :=
  mkWorld (fs w)
          ((trace w ++ [Post url None]) ++ [Post api_url (api_payload token)]).

(** The page of [url] carries the request token [token], and the API
    answers it with a list of sources that starts with [first]. *)
Record answered (E : Env) (url token : Py.str) (first : Source) : Prop := {
  ans_token : video_js (episode_page E url) = Some (Some token);
  ans_token_nonempty : token <> [];
  ans_first :
    exists api_data rest,
      json E (text (api_response E token)) = Some api_data
      /\ default [ {| src := None |} ] (api_s api_data) = first :: rest
}.

(** The episode resolves: the source is [video_src] and the session
    cookies assemble into [cookies]. *)
Record resolves (E : Env) (url token video_src cookies : Py.str) : Prop := {
  res_answered : answered E url token {| src := Some video_src |};
  res_src_nonempty : video_src <> [];
  res_cookies :
    exists cookie_e cookie_p cookie_h,
      let set_cookie := default [] (set_cookie (api_response E token)) in
      search_cookie (py "e=") set_cookie = Some cookie_e
      /\ search_cookie (py "p=") set_cookie = Some cookie_p
      /\ search_cookie (py "HttpOnly, h=") set_cookie = Some cookie_h
      /\ cookies = py "e=" ++ cookie_e ++ py ";p=" ++ cookie_p
                      ++ py ";h=" ++ cookie_h ++ py ";"
}.

(** What [download_episode] does once it has the media URL, the headers
    and the title: naming, the download by extension, validation. *)
Definition fetch_media (E : Env) (cfg : Config)
  (video_url : Py.str) (h : headers) (title : Py.str) : M unit :=
  video_path ← process_video_name E cfg title;
  let video_suffix := Py.lower_ascii (Py.after_last dot video_url) in
  (if Py.eqb video_suffix (py "mp4") then
     download_mp4 E video_url video_path h
   else if Py.eqb video_suffix (py "m3u8") then
     download_ts E video_url video_path h
   else
     raise ValueError (py "影片連結的副檔名不支援：" ++ video_suffix));;
  validate_download E video_path.

Definition raises_only {A} (P : exn -> Prop) (c : M A) : Prop :=
  forall w e, fst (c w) = inl e -> P e.

(** The errors of the operating system and of the built-ins: anything but
    a bare [Exception]. *)
Definition not_bare (e : exn) : Prop := exn_cls e <> Exception.

(** The exception raised when the API answer yields no media source. *)
Definition resolution_error : exn := Raise Exception (py "無法取得影片連結").

Definition other_error (e : exn) : Prop := e <> resolution_error.

(** A computation whose first effect is a GET of [url]. *)
Definition begins_with_get {A} (url : Py.str) (c : M A) : Prop :=
  forall w, exists h l, trace (snd (c w)) = trace w ++ Get url h :: l.

(** The listing page served at [url]. *)
Definition listing_page (E : Env) (listing : Py.str -> Listing)
  (url : Py.str) : Listing :=
  listing (text (http_post E url None)).

(** The listing pages [url :: older] follow one another through their
    previous-page links, and the last one has none. *)
Fixpoint page_chain (E : Env) (listing : Py.str -> Listing)
  (url : Py.str) (older : list Py.str) : Prop :=
  url <> []
  /\ match older with
     | [] => truthy (nav_previous (listing_page E listing url)) = false
     | next :: older' =>
       nav_previous (listing_page E listing url) = Some next
       /\ page_chain E listing next older'
     end.

(** A stripped string: no white space at either end. *)
Definition stripped (s : Py.str) : Prop :=
  match s with [] => True | c :: _ => Py.isspace_char c = false end
  /\ match rev s with [] => True | c :: _ => Py.isspace_char c = false end.

(** A character that may appear in a file name. *)
Definition legal_char (c : N) : Prop := ~ In c illegal_chars.

(** [legal_char] as a test. *)
Definition legal_charb (c : N) : bool :=
  negb (existsb (N.eqb c) illegal_chars).

(** The ASCII characters a string that [int] accepts is made of: C white
    space, a sign, an underscore, a digit. *)
Definition int_ascii (c : N) : bool :=
  Py.c_isspace c || (c =? 43)%N || (c =? 45)%N || (c =? 95)%N
  || match Py.ascii_digit c with Some _ => true | None => false end.

(** What the pool may do: a GET of a manifest URL with the given headers,
    or a write at the path that joining a manifest key to the segment
    folder gives.  That path need not lie in the folder: joining an
    absolute key gives the key itself. *)
Definition pool_event (h : headers) (ts_folder : Path)
  (ts_links : list (Py.str * Py.str)) (ev : event) : Prop :=
  match ev with
  | Get u h' => h' = h /\ In u (map snd ts_links)
  | Write p _ => exists k, In k (map fst ts_links) /\ p = ts_folder // k
  | Post _ _ => False
  end.

(** A line ending as a text file may have it. *)
Definition line_ending (eol : Py.str) : Prop :=
  eol = [newline] \/ eol = [carriage_return; newline]
  \/ eol = [carriage_return].

(* ================================================================== *)
(** * Facts about strings *)
(* ================================================================== *)

Module PyFacts.

Lemma eqb_eq a b : Py.eqb a b = true <-> a = b.
Proof. unfold Py.eqb. rewrite bool_decide_eq_true. tauto. Qed.

Lemma eqb_refl a : Py.eqb a a = true.
Proof. now apply eqb_eq. Qed.

Lemma startswith_nil_r old : old <> [] -> Py.startswith old [] = false.
Proof. destruct old; [congruence | reflexivity]. Qed.

(** Dropping [k] characters first is the same as scanning with [k] left
    to skip. *)
Lemma replace_scan_skip old new k s :
  Py.replace_scan old new k s = Py.replace_scan old new O (skipn k s).
Proof.
  revert k. induction s as [|c s IH]; intros [|k]; simpl; try reflexivity.
  apply IH.
Qed.

(** [str.replace] removes the leftmost occurrence and goes on with what
    follows it, so every non-overlapping occurrence is replaced. *)
Lemma replace_scan_find old new s :
  old <> [] ->
  Py.replace_scan old new O s =
  match Py.find old s with
  | Some i => firstn i s ++ new
                ++ Py.replace_scan old new O (skipn (i + length old) s)
  | None => s
  end.
Proof.
  intros Hold. induction s as [|c s IH].
  - simpl. rewrite (startswith_nil_r old Hold). reflexivity.
  - cbn [Py.replace_scan Py.find].
    destruct (Py.startswith old (c :: s)) eqn:Hsw.
    + cbn [firstn app Nat.add]. rewrite replace_scan_skip.
      destruct old as [|o old']; [congruence|].
      replace (length (o :: old') - 1)%nat with (length old')
        by (cbn [length]; lia).
      reflexivity.
    + rewrite IH. destruct (Py.find old s) as [i|]; reflexivity.
Qed.

Lemma replace_find old new s :
  old <> [] ->
  Py.replace old new s =
  match Py.find old s with
  | Some i => firstn i s ++ new
                ++ Py.replace old new (skipn (i + length old) s)
  | None => s
  end.
Proof.
  intros Hold. unfold Py.replace. destruct old as [|o old']; [congruence|].
  apply replace_scan_find. congruence.
Qed.

Lemma find_contains sub s :
  Py.contains sub s = match Py.find sub s with Some _ => true | None => false end.
Proof.
  induction s as [|c s IH]; cbn [Py.contains Py.find].
  - destruct (Py.startswith sub []); reflexivity.
  - destruct (Py.startswith sub (c :: s)); [reflexivity|].
    rewrite IH. simpl. destruct (Py.find sub s); reflexivity.
Qed.

End PyFacts.

(* ================================================================== *)
(** * The built-ins on examples

    Values observed with CPython 3.11 for the same inputs. *)
(* ================================================================== *)

Example int_examples :
  map Py.int [py " 4 "; py "+4"; py "1_0"; py "007"; py "１２"; py "-0";
              py "²"; py "1__0"; py "_1"; py "0x10"; py "+ 4"; py "IV"; []]
  = [Some 4; Some 4; Some 10; Some 7; Some 12; Some 0;
     None; None; None; None; None; None; None].
Proof. vm_compute. reflexivity. Qed.

Example isdigit_examples :
  map Py.isdigit [py "12"; py "１２"; py "²"; py "OP"; py "1a"; py "-1"; []]
  = [true; true; true; false; false; false; false].
Proof. vm_compute. reflexivity. Qed.

Example format_examples :
  map Py.format_02d [5; 12; 123; 0] = [py "05"; py "12"; py "123"; py "00"].
Proof. vm_compute. reflexivity. Qed.

Example replace_examples :
  Py.replace (py "AB") [] (py "AABB") = py "AB"
  /\ Py.replace (py "AA") [] (py "AAA") = py "A"
  /\ Py.replace [] (py "-") (py "abc") = py "-a-b-c-"
  /\ Py.replace (py "playlist") (py "720p")
                (py "https://cdn.example/7/playlist.m3u8")
     = py "https://cdn.example/7/720p.m3u8".
Proof. vm_compute. repeat split; reflexivity. Qed.

Example strip_examples :
  Py.strip (py "  進擊的巨人　") = py "進擊的巨人"
  /\ Py.strip (py " a b ") = py "a b".
Proof. vm_compute. split; reflexivity. Qed.

Example pathlib_examples :
  map (fun ab => as_posix (parse (py (fst ab)) // py (snd ab)))
      [("dl", "."); ("dl", ".."); ("dl", "a//b/"); ("dl", "/abs/x");
       ("dl", "//x/y"); ("dl", "///x"); (".ts", "playlist.m3u8")]%string
  = [py "dl"; py "dl/.."; py "dl/a/b"; py "/abs/x"; py "//x/y"; py "/x";
     py ".ts/playlist.m3u8"].
Proof. vm_compute. reflexivity. Qed.

Example parse_video_name_examples :
  parse_video_name (py "進擊的巨人 第四季[12]")
    = inr (py "進擊的巨人 第四季", py "12")
  /\ parse_video_name (py "a[1][2]") = inr (py "a[1]", py "2")
  /\ parse_video_name (py "a[1]b]") = inr (py "a", py "1]b")
  /\ parse_video_name (py "[[x]") = inr (py "[", py "x")
  /\ (exists e, parse_video_name (py "a]b[") = inl e)
  /\ (exists e, parse_video_name (py "no brackets") = inl e).
Proof. vm_compute. repeat split; try reflexivity; eexists; reflexivity. Qed.

Example search_cookie_examples :
  let header := py "e=1; p=2; HttpOnly, h=3;" in
  search_cookie (py "e=") header = Some (py "1")
  /\ search_cookie (py "p=") header = Some (py "2")
  /\ search_cookie (py "HttpOnly, h=") header = Some (py "3")
  /\ search_cookie (py "e=") (py "E=abc") = None
  /\ search_cookie (py "e=") (py "xE=1;e=2;") = Some (py "1").
Proof. vm_compute. repeat split; reflexivity. Qed.

(** Scenario A of the specification. *)
Example scenario_A :
  fst (process_video_name Sample.offline Sample.config
                          (py "進擊的巨人 第四季[12]") Sample.fresh)
  = inr (parse (py "downloads/進擊的巨人/Season 4/進擊的巨人 - S4E12.mp4")).
Proof. vm_compute. reflexivity. Qed.

(* ================================================================== *)
(** * Season extraction *)
(* ================================================================== *)

Section Seasons.

Implicit Types (table : list (Py.str * Py.str)) (anime_name : Py.str).

Lemma no_marker_cons marker code table anime_name :
  no_marker ((marker, code) :: table) anime_name <->
  Py.contains marker anime_name = false /\ no_marker table anime_name.
Proof.
  unfold no_marker. split.
  - intros H. split; [apply (H marker code); now left|].
    intros m c Hin. apply (H m c). now right.
  - intros [H0 H] m c [Heq|Hin]; [congruence | eauto].
Qed.

(** The loop falls through exactly when no marker occurs. *)
Lemma season_none_iff table anime_name :
  fst (get_and_replace_season_number table anime_name) = None <->
  no_marker table anime_name.
Proof.
  induction table as [|[m c] table IH]; simpl.
  - split; [intros _ ? ? [] | reflexivity].
  - rewrite no_marker_cons.
    destruct (Py.contains m anime_name); simpl.
    + split; [discriminate | intros [? _]; discriminate].
    + rewrite IH. tauto.
Qed.

Lemma season_none_name table anime_name :
  no_marker table anime_name ->
  get_and_replace_season_number table anime_name = (None, anime_name).
Proof.
  induction table as [|[m c] table IH]; simpl; [reflexivity|].
  rewrite no_marker_cons. intros [-> H]. now apply IH.
Qed.

Lemma season_skip before after anime_name :
  no_marker before anime_name ->
  get_and_replace_season_number (before ++ after) anime_name =
  get_and_replace_season_number after anime_name.
Proof.
  induction before as [|[m c] before IH]; simpl; [reflexivity|].
  rewrite no_marker_cons. intros [-> H]. now apply IH.
Qed.

End Seasons.

(** C10. Season extraction scans the table in order and stops at the first
    entry whose marker occurs in the name: the entries before it did not
    match, the result is that entry's code with the name stripped of the
    marker and of surrounding white space, and the entries after it play no
    part, whatever their markers.  The marker is removed by [str.replace],
    which takes out the leftmost occurrence and goes on with the rest of the
    name, hence every occurrence and not just the first. *)
Theorem season_first_match_wins before marker code after anime_name :
  no_marker before anime_name ->
  Py.contains marker anime_name = true ->
  get_and_replace_season_number (before ++ (marker, code) :: after) anime_name
    = (Some code, Py.strip (Py.replace marker [] anime_name))
  /\ (marker <> [] ->
      Py.replace marker [] anime_name =
      match Py.find marker anime_name with
      | Some i =>
        firstn i anime_name
          ++ Py.replace marker [] (skipn (i + length marker) anime_name)
      | None => anime_name
      end).
Proof.
  intros Hbefore Hin. split.
  - rewrite season_skip by assumption. simpl. now rewrite Hin.
  - intros Hne. now rewrite (PyFacts.replace_find marker [] anime_name Hne) at 1.
Qed.

(** The marker of the second entry occurs twice and the marker of the third
    entry occurs too: both occurrences go, the third entry is not applied. *)
Lemma season_first_match_wins_witness :
  get_and_replace_season_number
    ([(py "第二季", py "2")] ++ (py "第四季", py "4") :: [(py "巨人", py "9")])
    (py "進擊的巨人 第四季 第四季")
  = (Some (py "4"),
     Py.strip (Py.replace (py "第四季") [] (py "進擊的巨人 第四季 第四季")))
  /\ Py.strip (Py.replace (py "第四季") [] (py "進擊的巨人 第四季 第四季"))
     = py "進擊的巨人".
Proof.
  split; [|reflexivity].
  apply (season_first_match_wins
           [(py "第二季", py "2")] (py "第四季") (py "4")
           [(py "巨人", py "9")] (py "進擊的巨人 第四季 第四季")).
  - intros m c [H|[]]. inversion H. reflexivity.
  - reflexivity.
Defined.

(** C6, as stated, fails: with two markers in the name the first pass
    removes one of them and the second pass removes the other. *)
Lemma season_extraction_not_idempotent :
  let table := [(py "第二季", py "2"); (py "第三季", py "3")] in
  let once := get_and_replace_season_number table (py "某動畫 第二季 第三季") in
  get_and_replace_season_number table (snd once) <> (None, snd once).
Proof. vm_compute. discriminate. Qed.

(** A single marker is enough: removing it can bring its two halves
    together. *)
Example season_extraction_rejoins :
  let table := [(py "S2", py "2")] in
  get_and_replace_season_number table (py "Show SS22") = (Some (py "2"), py "Show S2")
  /\ get_and_replace_season_number table (py "Show S2") = (Some (py "2"), py "Show").
Proof. split; reflexivity. Qed.

(** C6, amended. A second pass over the name produced by a first pass
    changes nothing and reports no season exactly when no marker of the
    table occurs in that name; this is the case whenever the first pass
    itself found no marker. *)
Theorem season_extraction_twice table anime_name :
  let stripped := snd (get_and_replace_season_number table anime_name) in
  (get_and_replace_season_number table stripped = (None, stripped)
   <-> no_marker table stripped)
  /\ (fst (get_and_replace_season_number table anime_name) = None ->
      get_and_replace_season_number table stripped = (None, stripped)).
Proof.
  intros stripped. split; [split|].
  - intros H. apply season_none_iff. now rewrite H.
  - apply season_none_name.
  - intros H. apply season_none_iff in H.
    assert (Hs : stripped = anime_name).
    { unfold stripped. now rewrite (season_none_name _ _ H). }
    rewrite Hs. now apply season_none_name.
Qed.

Lemma season_extraction_twice_witness :
  let table := [(py "第四季", py "4")] in
  let stripped := snd (get_and_replace_season_number table (py "進擊的巨人 第四季")) in
  stripped = py "進擊的巨人"
  /\ get_and_replace_season_number table stripped = (None, stripped).
Proof.
  intros table stripped. split; [reflexivity|].
  apply (proj1 (season_extraction_twice table (py "進擊的巨人 第四季"))).
  intros m c [H|[]]. inversion H. reflexivity.
Defined.

(* ================================================================== *)
(** * Running the monad *)
(* ================================================================== *)

Lemma run_bind {A B} (c : M A) (k : A -> M B) w :
  (c ≫= k) w = match c w with
               | (inr x, w') => k x w'
               | (inl e, w') => (inl e, w')
               end.
Proof. reflexivity. Qed.

Lemma run_ret {A} (x : A) w : (mret x : M A) w = (inr x, w).
Proof. reflexivity. Qed.

Lemma run_bind_ok {A B} (c : M A) (k : A -> M B) w (x : A) :
  fst (c w) = inr x -> (c ≫= k) w = k x (snd (c w)).
Proof.
  rewrite run_bind. destruct (c w) as [r w']. cbn [fst snd].
  now intros ->.
Qed.

Lemma run_result {A} (c : M A) w (x : A) :
  fst (c w) = inr x -> c w = (inr x, snd (c w)).
Proof. destruct (c w) as [r w']. cbn [fst snd]. now intros ->. Qed.

Lemma silent_grows {A} (c : M A) : silent c -> grows c.
Proof. intros H w. exists []. rewrite H. now rewrite app_nil_r. Qed.

Lemma silent_ret {A} (x : A) : silent (mret x : M A).
Proof. intros w. reflexivity. Qed.

Lemma silent_raise {A} c msg : silent (raise c msg : M A).
Proof. intros w. reflexivity. Qed.

Lemma silent_throw {A} e : silent (throw e : M A).
Proof. intros w. reflexivity. Qed.

Lemma silent_bind {A B} (c : M A) (k : A -> M B) :
  silent c -> (forall x, silent (k x)) -> silent (c ≫= k).
Proof.
  intros Hc Hk w. rewrite run_bind. specialize (Hc w).
  destruct (c w) as [[e|x] w']; simpl in *; [assumption|].
  now rewrite Hk.
Qed.

Lemma grows_bind {A B} (c : M A) (k : A -> M B) :
  grows c -> (forall x, grows (k x)) -> grows (c ≫= k).
Proof.
  intros Hc Hk w. rewrite run_bind. destruct (Hc w) as [l Hl].
  destruct (c w) as [[e|x] w']; simpl in *; [eauto|].
  destruct (Hk x w') as [l' Hl']. exists (l ++ l').
  now rewrite Hl', Hl, app_assoc.
Qed.

Lemma grows_ret {A} (x : A) : grows (mret x : M A).
Proof. apply silent_grows, silent_ret. Qed.

Lemma grows_raise {A} c msg : grows (raise c msg : M A).
Proof. apply silent_grows, silent_raise. Qed.

Lemma grows_log e : grows (log e).
Proof. intros w. now exists [e]. Qed.

Lemma grows_swallow {A} (c : M A) : grows c -> grows (swallow c).
Proof. intros H w. apply H. Qed.

Lemma silent_get_fs : silent get_fs.
Proof. intros w. reflexivity. Qed.

Lemma silent_put_fs f : silent (put_fs f).
Proof. intros w. reflexivity. Qed.

Create HintDb quiet.
#[global] Hint Resolve silent_ret silent_raise silent_throw silent_get_fs
  silent_put_fs : quiet.
#[global] Hint Resolve grows_ret grows_raise grows_log : quiet.

(** Splits a bind, then closes the leaves from the hint base, looking
    through the case distinctions of the code. *)
Ltac quiet :=
  repeat first
    [ apply silent_bind; [|intros ?]
    | progress auto with quiet
    | match goal with
      | |- silent (match ?x with _ => _ end) => destruct x
      | |- silent (if ?b then _ else _) => destruct b
      end ].

Ltac growing :=
  repeat first
    [ apply grows_bind; [|intros ?]
    | progress auto with quiet
    | apply silent_grows; solve [quiet]
    | match goal with
      | |- grows (match ?x with _ => _ end) => destruct x
      | |- grows (if ?b then _ else _) => destruct b
      end ].

Section OSFacts.
Context (E : Env).

Lemma silent_path_exists p : silent (path_exists E p).
Proof. unfold path_exists. quiet. Qed.

Lemma silent_os_mkdir p : silent (os_mkdir E p).
Proof. unfold os_mkdir. quiet. Qed.

Lemma silent_mkdir_single p ok : silent (mkdir_single E p ok).
Proof.
  intros w. unfold mkdir_single. pose proof (silent_os_mkdir p w) as H.
  destruct (os_mkdir E p w) as [[e|[]] w']; simpl in *; [|assumption].
  destruct (exn_cls e), (ok && is_dir_in E (fs w') p); assumption.
Qed.

Lemma silent_mkdir_parents a rp ok : silent (mkdir_parents E a rp ok).
Proof.
  revert ok. induction rp as [|c rp IH]; intros ok w; simpl.
  - pose proof (silent_os_mkdir (mkPath a []) w) as H.
    destruct (os_mkdir E (mkPath a []) w) as [[e|[]] w']; simpl in *;
      [|assumption].
    destruct (exn_cls e), (ok && is_dir_in E (fs w') (mkPath a []));
      assumption.
  - pose proof (silent_os_mkdir (mkPath a (rev rp ++ [c])) w) as H.
    destruct (os_mkdir E (mkPath a (rev rp ++ [c])) w) as [[e|[]] w'];
      simpl in *; [|assumption].
    assert (Hrec : trace
              (snd ((mkdir_parents E a rp true;;
                     mkdir_single E (mkPath a (rev rp ++ [c])) ok) w'))
            = trace w).
    { rewrite <- H. apply silent_bind; [apply IH|].
      intros ?. apply silent_mkdir_single. }
    destruct (exn_cls e),
             (ok && is_dir_in E (fs w') (mkPath a (rev rp ++ [c])));
      assumption.
Qed.

Lemma silent_mkdir p parents ok : silent (mkdir E p parents ok).
Proof.
  unfold mkdir. destruct parents;
    [apply silent_mkdir_parents | apply silent_mkdir_single].
Qed.

Lemma silent_unlink p : silent (unlink E p).
Proof. unfold unlink. quiet. Qed.

Lemma silent_stat_st_size p : silent (stat_st_size E p).
Proof. unfold stat_st_size. quiet. Qed.

Lemma silent_rename a b : silent (rename E a b).
Proof. unfold rename. quiet. Qed.

Lemma silent_rmtree p : silent (rmtree E p).
Proof. unfold rmtree. quiet. Qed.

Lemma grows_write_file p d : grows (write_file E p d).
Proof. unfold write_file. growing. Qed.

Lemma grows_session_get url h : grows (session_get E url h).
Proof. unfold session_get. growing. Qed.

Lemma grows_session_post url body : grows (session_post E url body).
Proof. unfold session_post. growing. Qed.

(** Making a directory that is already there changes nothing. *)
Lemma mkdir_existing p parents w :
  is_dir_in E (fs w) p = true -> mkdir E p parents true w = (inr tt, w).
Proof.
  intros Hdir.
  assert (Hos : os_mkdir E p w
                = (inl (Raise FileExistsError (as_posix p)), w)).
  { unfold os_mkdir, is_dir_in in *. rewrite run_bind. simpl.
    destruct (lookup_path E (fs w) p) as [[]|]; try discriminate.
    reflexivity. }
  assert (Hsingle : mkdir_single E p true w = (inr tt, w)).
  { unfold mkdir_single. rewrite Hos. simpl. now rewrite Hdir. }
  unfold mkdir. destruct parents; [|assumption].
  assert (Hp : p = mkPath (path_anchor p) (rev (rev (parts p)))).
  { rewrite rev_involutive. now destruct p. }
  destruct (rev (parts p)) as [|c rp] eqn:Hrev; simpl in *;
    rewrite <- Hp, Hos; simpl; now rewrite Hdir.
Qed.

End OSFacts.

#[global] Hint Resolve silent_path_exists silent_os_mkdir silent_mkdir
  silent_unlink silent_stat_st_size silent_rename silent_rmtree : quiet.
#[global] Hint Resolve grows_write_file grows_session_get grows_session_post
  : quiet.

(* ================================================================== *)
(** * Naming *)
(* ================================================================== *)

Section NamingFacts.
Context (E : Env) (cfg : Config).

(** [format_video_path] is [destination] followed by the creation of the
    folder. *)
Lemma format_video_path_run anime_name season_num episode_num w :
  format_video_path E cfg anime_name season_num episode_num w =
  match destination cfg anime_name season_num episode_num with
  | inl e => (inl e, w)
  | inr (download_folder, video_path) =>
    match mkdir E download_folder true true w with
    | (inl e, w') => (inl e, w')
    | (inr _, w') => (inr video_path, w')
    end
  end.
Proof.
  unfold format_video_path, destination, py_int, int_or_error.
  destruct (Py.isdigit episode_num), (truthy season_num);
    cbn [andb];
    try destruct (Py.int episode_num);
    try destruct (Py.int (str_of season_num));
    try reflexivity;
    cbv [mbind M_bind bind mret M_ret ret raise];
    match goal with
    | |- context [mkdir E ?p true true w] =>
      destruct (mkdir E p true true w) as [[?|[]] ?]; reflexivity
    end.
Qed.

Lemma process_video_name_run video_name w :
  process_video_name E cfg video_name w =
  match title_destination cfg video_name with
  | inl e => (inl e, w)
  | inr (download_folder, video_path) =>
    match mkdir E download_folder true true w with
    | (inl e, w') => (inl e, w')
    | (inr _, w') =>
      if exists_in E (fs w') video_path
      then (inl (Raise FileExistsError
                   (py "檔案已存在於 " ++ as_posix video_path)), w')
      else if is_dir_in E (fs w') (parent video_path)
              && name_too_long video_path
      then (inl (Raise OSError (as_posix video_path)), w')
      else (inr video_path, w')
    end
  end.
Proof.
  unfold process_video_name, title_destination.
  destruct (parse_video_name (sanitize_video_name video_name))
    as [e|[anime_name episode_num]]; [reflexivity|].
  destruct (get_and_replace_season_number (seasons cfg) anime_name)
    as [season_num name'].
  rewrite run_bind, format_video_path_run.
  destruct (destination cfg name' season_num episode_num)
    as [e|[folder p]]; [reflexivity|].
  destruct (mkdir E folder true true w) as [[e|[]] w']; [reflexivity|].
  unfold check_file_exists, path_exists, get_fs, refused, exists_in.
  rewrite !run_bind. cbv beta iota.
  destruct (lookup_path E (fs w') p); [reflexivity|].
  destruct (is_dir_in E (fs w') (parent p) && name_too_long p); reflexivity.
Qed.

(** A name joined to a path is the name of the result. *)
Lemma name_joinpath p s :
  parse s = mkPath Rel [s] -> name (p // s) = s.
Proof.
  intros Hs. unfold joinpath, name. rewrite Hs. cbn [path_anchor parts].
  apply last_last.
Qed.

Lemma silent_format_video_path anime_name season_num episode_num :
  silent (format_video_path E cfg anime_name season_num episode_num).
Proof.
  intros w. rewrite format_video_path_run.
  destruct (destination cfg anime_name season_num episode_num)
    as [e|[folder p]]; [reflexivity|].
  pose proof (silent_mkdir E folder true true w) as H.
  destruct (mkdir E folder true true w) as [[e|[]] w']; exact H.
Qed.

Lemma silent_process_video_name video_name :
  silent (process_video_name E cfg video_name).
Proof.
  intros w. rewrite process_video_name_run.
  destruct (title_destination cfg video_name) as [e|[folder p]];
    [reflexivity|].
  pose proof (silent_mkdir E folder true true w) as H.
  destruct (mkdir E folder true true w) as [[e|[]] w']; [exact H|].
  destruct (exists_in E (fs w') p); [exact H|].
  destruct (is_dir_in E (fs w') (parent p) && name_too_long p); exact H.
Qed.

End NamingFacts.

#[global] Hint Resolve silent_format_video_path silent_process_video_name
  : quiet.

(** ** Scenario B *)

(** C3, as stated, fails: for the title of scenario B and a table without
    a matching marker the path has no season folder. *)
Lemma scenario_B_has_no_season_folder :
  fst (process_video_name Sample.offline Sample.config (py "某動畫[OP]")
                          Sample.fresh)
    = inr (parse (py "downloads/某動畫/某動畫 - OP.mp4"))
  /\ fst (process_video_name Sample.offline Sample.config (py "某動畫[OP]")
                             Sample.fresh)
     <> inr (root_download_path Sample.config // py "某動畫" // py "Season 1"
               // py "某動畫 - OP.mp4").
Proof. split; vm_compute; [reflexivity | discriminate]. Qed.

Lemma scenario_B_title :
  parse_video_name (sanitize_video_name (py "某動畫[OP]"))
  = inr (py "某動畫", py "OP").
Proof. vm_compute. reflexivity. Qed.

(** C3, amended. For the title of scenario B, when no configured season
    marker occurs in the name, the Naming Resolver computes
    <root>/某動畫/某動畫 - OP.mp4, in the folder <root>/某動畫: it makes that
    folder and returns the path, unless the folder cannot be made or the
    path already exists. *)
Theorem scenario_B_path (E : Env) (cfg : Config) (w : World) :
  no_marker (seasons cfg) (py "某動畫") ->
  let folder := root_download_path cfg // py "某動畫" in
  let video_path := folder // py "某動畫 - OP.mp4" in
  title_destination cfg (py "某動畫[OP]") = inr (folder, video_path)
  /\ process_video_name E cfg (py "某動畫[OP]") w =
     match mkdir E folder true true w with
     | (inl e, w') => (inl e, w')
     | (inr _, w') =>
       if exists_in E (fs w') video_path
       then (inl (Raise FileExistsError
                    (py "檔案已存在於 " ++ as_posix video_path)), w')
       else (inr video_path, w')
     end.
Proof.
  intros Hno folder video_path.
  assert (Hd : title_destination cfg (py "某動畫[OP]")
               = inr (folder, video_path)).
  { unfold title_destination. rewrite scenario_B_title.
    rewrite (season_none_name _ _ Hno). reflexivity. }
  split; [exact Hd|].
  rewrite process_video_name_run, Hd.
  assert (Hname : name_too_long video_path = false).
  { unfold name_too_long, video_path.
    rewrite name_joinpath by (vm_compute; reflexivity).
    vm_compute. reflexivity. }
  rewrite Hname.
  destruct (mkdir E folder true true w) as [[e|[]] w']; [reflexivity|].
  now rewrite andb_false_r.
Qed.

Lemma scenario_B_path_witness :
  title_destination Sample.config (py "某動畫[OP]")
  = inr (root_download_path Sample.config // py "某動畫",
         root_download_path Sample.config // py "某動畫"
           // py "某動畫 - OP.mp4").
Proof.
  apply (scenario_B_path Sample.offline Sample.config Sample.fresh).
  intros m c [H|[]]. inversion H. reflexivity.
Defined.

(** ** Path formatting as a function *)

(** C7, as stated, fails: two numeric episode parts with the same name and
    season give different paths. *)
Lemma path_depends_on_episode_number :
  let run episode_num :=
    fst (format_video_path Sample.offline Sample.config (py "某動畫") None
                           episode_num Sample.fresh) in
  Py.isdigit (py "01") = Py.isdigit (py "02")
  /\ run (py "01") <> run (py "02").
Proof. split; [reflexivity|]. vm_compute. discriminate. Qed.

(** C7, amended. Path formatting is a function of the name, the season
    code and the episode part (under the configured root): two calls that
    agree on these three return the same path, whatever the file system,
    the requests made so far and the outside world; the path is the one of
    [destination]. *)
Theorem format_video_path_function
  (E1 E2 : Env) (cfg : Config) anime_name season_num episode_num
  (w1 w2 : World) (p1 p2 : Path) :
  fst (format_video_path E1 cfg anime_name season_num episode_num w1)
    = inr p1 ->
  fst (format_video_path E2 cfg anime_name season_num episode_num w2)
    = inr p2 ->
  p1 = p2
  /\ exists download_folder,
       destination cfg anime_name season_num episode_num
       = inr (download_folder, p1).
Proof.
  rewrite !format_video_path_run.
  destruct (destination cfg anime_name season_num episode_num)
    as [e|[folder p]]; [discriminate|].
  destruct (mkdir E1 folder true true w1) as [[e|[]] w1']; [discriminate|].
  destruct (mkdir E2 folder true true w2) as [[e|[]] w2']; [discriminate|].
  simpl. intros [= <-] [= <-]. eauto.
Qed.

Lemma format_video_path_function_witness :
  let p := parse (py "downloads/某動畫/Season 4/某動畫 - S4E07.mp4") in
  p = p
  /\ exists download_folder,
       destination Sample.config (py "某動畫") (Some (py "4")) (py "7")
       = inr (download_folder, p).
Proof.
  intros p.
  apply (format_video_path_function
           Sample.offline Sample.offline Sample.config
           (py "某動畫") (Some (py "4")) (py "7")
           Sample.fresh
           (mkWorld (<[Sample.absolute (parse (py "downloads")) := Dir]>
                       (fs Sample.fresh))
                    [Post (py "https://anime1.me/1") None])
           p p).
  - vm_compute. reflexivity.
  - vm_compute. reflexivity.
Defined.

(** ** Season codes that are not integers *)

(** C9, as stated, fails: the empty season code cannot be converted to an
    integer, yet a title that matches its marker gets a path, the one of a
    title without season. *)
Lemma empty_season_code_is_accepted :
  let cfg := {| root_download_path := parse (py "downloads");
                seasons := [(py "第四季", [])];
                user_agent := [] |} in
  get_and_replace_season_number (seasons cfg) (py "某動畫 第四季")
    = (Some [], py "某動畫")
  /\ Py.int [] = None
  /\ fst (format_video_path Sample.offline cfg (py "某動畫") (Some [])
                             (py "12") Sample.fresh)
     = inr (parse (py "downloads/某動畫/Season 1/某動畫 - 12.mp4")).
Proof.
  intros cfg. split; [reflexivity|]. split; [reflexivity|].
  vm_compute. reflexivity.
Qed.

(** C9, amended. For every non-empty season code that [int] cannot
    convert, [format_video_path] raises [ValueError] instead of returning a
    path, and makes no folder; hence so does [process_video_name] for every
    title whose name matches a marker with such a code.  (An empty code
    counts as no season.) *)
Theorem format_video_path_needs_integer_season
  (E : Env) (cfg : Config) anime_name season_code episode_num (w : World) :
  season_code <> [] ->
  Py.int season_code = None ->
  format_video_path E cfg anime_name (Some season_code) episode_num w
    = (inl (Raise ValueError []), w)
  /\ forall video_name name0,
       parse_video_name (sanitize_video_name video_name)
         = inr (name0, episode_num) ->
       get_and_replace_season_number (seasons cfg) name0
         = (Some season_code, anime_name) ->
       process_video_name E cfg video_name w = (inl (Raise ValueError []), w).
Proof.
  intros Hne Hint.
  assert (Hd : destination cfg anime_name (Some season_code) episode_num
               = inl (Raise ValueError [])).
  { unfold destination, int_or_error.
    destruct season_code as [|c code]; [congruence|].
    cbn [truthy str_of andb]. rewrite Hint.
    destruct (Py.isdigit episode_num); [|reflexivity].
    destruct (Py.int episode_num); reflexivity. }
  split.
  - now rewrite format_video_path_run, Hd.
  - intros video_name name0 Hparse Hseason.
    rewrite process_video_name_run. unfold title_destination.
    now rewrite Hparse, Hseason, Hd.
Qed.

Lemma format_video_path_needs_integer_season_witness :
  let cfg := {| root_download_path := parse (py "downloads");
                seasons := [(py "第四季", py "IV")];
                user_agent := [] |} in
  format_video_path Sample.offline cfg (py "某動畫") (Some (py "IV")) (py "12")
                    Sample.fresh
    = (inl (Raise ValueError []), Sample.fresh)
  /\ process_video_name Sample.offline cfg (py "某動畫 第四季[12]") Sample.fresh
     = (inl (Raise ValueError []), Sample.fresh).
Proof.
  intros cfg.
  pose proof (format_video_path_needs_integer_season
                Sample.offline cfg (py "某動畫") (py "IV") (py "12")
                Sample.fresh ltac:(discriminate) ltac:(reflexivity))
    as [H1 H2].
  split; [exact H1|].
  apply (H2 (py "某動畫 第四季[12]") (py "某動畫 第四季")); reflexivity.
Defined.

(* ================================================================== *)
(** * Validation of a finished download *)
(* ================================================================== *)

(** C5. For a finished download, a file [video_path] of some size: below
    1 MiB (1024 * 1024 bytes) validation deletes the file and raises the
    too-small exception, so that the path no longer exists; from 1 MiB on
    it succeeds and leaves everything as it was. *)
Theorem validate_download_threshold (E : Env) (video_path : Path)
  (d : data) (w : World) :
  lookup_path E (fs w) video_path = Some (File d) ->
  (st_size d < 1024 * 1024 ->
   validate_download E video_path w
     = (inl (Raise Exception (name video_path ++ py " 檔案大小過小")),
        mkWorld (delete (realpath E video_path) (fs w)) (trace w))
   /\ exists_in E (fs (snd (validate_download E video_path w))) video_path
      = false)
  /\ (1024 * 1024 <= st_size d ->
      validate_download E video_path w = (inr tt, w)).
Proof.
  intros Hfile.
  assert (Hstat : stat_st_size E video_path w = (inr (st_size d), w)).
  { unfold stat_st_size. rewrite run_bind. cbn [get_fs]. now rewrite Hfile. }
  assert (Hunlink : unlink E video_path w
            = (inr tt, mkWorld (delete (realpath E video_path) (fs w))
                               (trace w))).
  { unfold unlink. rewrite run_bind. cbn [get_fs]. now rewrite Hfile. }
  unfold validate_download. rewrite run_bind, Hstat. split.
  - intros Hsmall. apply Z.ltb_lt in Hsmall. rewrite Hsmall.
    rewrite run_bind, Hunlink. split; [reflexivity|].
    unfold raise, exists_in, lookup_path. cbn [snd fs].
    now rewrite lookup_delete_eq.
  - intros Hbig. apply Z.ltb_ge in Hbig. now rewrite Hbig.
Qed.

(** The validation is the last step of [download_episode]: a placeholder
    answer is downloaded, renamed into place, found too small and removed. *)
Example placeholder_download_is_removed :
  let r := download_episode Sample.placeholder Sample.config
                            Sample.episode_url Sample.fresh in
  fst r = inl (Raise Exception (py "某動畫 - OP.mp4 檔案大小過小"))
  /\ exists_in Sample.placeholder (fs (snd r))
               (parse (py "downloads/某動畫/某動畫 - OP.mp4")) = false.
Proof. vm_compute. split; reflexivity. Qed.

Lemma validate_download_threshold_witness :
  let p := parse (py "downloads/某動畫/某動畫 - OP.mp4") in
  let k := realpath Sample.offline p in
  let small := mkWorld {[ k := File (Blob 1048575) ]} [] in
  let large := mkWorld {[ k := File (Blob 1048576) ]} [] in
  (validate_download Sample.offline p small
     = (inl (Raise Exception (name p ++ py " 檔案大小過小")),
        mkWorld (delete k (fs small)) (trace small))
   /\ exists_in Sample.offline
        (fs (snd (validate_download Sample.offline p small))) p = false)
  /\ validate_download Sample.offline p large = (inr tt, large).
Proof.
  intros p k small large. split.
  - apply (validate_download_threshold Sample.offline p (Blob 1048575) small).
    + apply lookup_singleton_eq.
    + reflexivity.
  - apply (validate_download_threshold Sample.offline p (Blob 1048576) large).
    + apply lookup_singleton_eq.
    + discriminate.
Defined.


(* ================================================================== *)
(** * The segment manifest *)
(* ================================================================== *)

(** ** Declaration order *)

Lemma dict_set_keys d k v :
  map fst (dict_set d k v) =
  if existsb (Py.eqb k) (map fst d) then map fst d else map fst d ++ [k].
Proof.
  induction d as [|[k' v'] d IH]; cbn [dict_set map fst existsb orb app];
    [reflexivity|].
  destruct (Py.eqb k k') eqn:Hk; cbn [orb map fst].
  - apply PyFacts.eqb_eq in Hk. now subst.
  - rewrite IH. now destruct (existsb (Py.eqb k) (map fst d)).
Qed.

Lemma dict_of_items_keys_from (f : Py.str -> Py.str) xs d :
  map fst (fold_left (fun d kv => dict_set d (fst kv) (snd kv))
                     (map (fun x => (x, f x)) xs) d)
  = fold_left
      (fun acc x => if existsb (Py.eqb x) acc then acc else acc ++ [x])
      xs (map fst d).
Proof.
  revert d. induction xs as [|x xs IH]; intros d; cbn [map fold_left fst snd];
    [reflexivity|].
  now rewrite IH, dict_set_keys.
Qed.

(** The keys of the segment manifest are the segment URIs of the playlist
    document in their order of declaration, a repeated URI keeping its
    first place. *)
Lemma ts_links_keys (E : Env) new_url response :
  map fst (ts_links_of E new_url response)
  = first_occurrences (m3u8_segments E (text response)).
Proof.
  unfold ts_links_of, dict_of_items, first_occurrences.
  apply (dict_of_items_keys_from
           (fun ts_file => Py.replace (py "playlist.m3u8") ts_file new_url)).
Qed.

Lemma dict_set_entries (Q : Py.str * Py.str -> Prop) d k v :
  Forall Q d -> Q (k, v) -> Forall Q (dict_set d k v).
Proof.
  intros Hd Hkv. induction Hd as [|[k' v'] d Hhead Hd IH]; cbn [dict_set].
  - apply Forall_cons_2; [exact Hkv | apply Forall_nil_2].
  - destruct (Py.eqb k k').
    + apply Forall_cons_2; [exact Hkv | exact Hd].
    + apply Forall_cons_2; [exact Hhead | exact IH].
Qed.

Lemma dict_of_items_entries (Q : Py.str * Py.str -> Prop) items :
  Forall Q items -> Forall Q (dict_of_items items).
Proof.
  unfold dict_of_items.
  assert (H : forall d,
             Forall Q d -> Forall Q items ->
             Forall Q (fold_left (fun d kv => dict_set d (fst kv) (snd kv))
                                 items d)).
  { induction items as [|[k v] items IH]; intros d Hd Hitems;
      cbn [fold_left]; [exact Hd|].
    apply Forall_cons_1 in Hitems as [Hkv Hitems].
    apply IH; [|exact Hitems]. now apply dict_set_entries. }
  intros Hitems. apply H; [apply Forall_nil_2 | exact Hitems].
Qed.

(** The manifest the code builds is built from the answer it is given. *)
Lemma ts_links_built (E : Env) new_url response :
  built_from E new_url response (ts_links_of E new_url response).
Proof.
  split; [apply ts_links_keys|]. unfold ts_links_of.
  apply dict_of_items_entries, List.Forall_forall. intros [k u] Hin.
  apply in_map_iff in Hin as (ts_file & Heq & _).
  pose proof (f_equal fst Heq) as Hk. pose proof (f_equal snd Heq) as Hu.
  cbn [fst snd] in *. now rewrite <- Hk, <- Hu.
Qed.

(** What the fetch does, by the status of the two answers. *)
Lemma parse_m3u8_from_url_run (E : Env) (url : Py.str) (h : headers)
  (w : World) :
  let url_1080p := Py.replace (py "playlist") (py "1080p") url in
  let url_720p := Py.replace (py "playlist") (py "720p") url in
  let r_1080p := http_get E url_1080p h in
  let r_720p := http_get E url_720p h in
  let asked_one := mkWorld (fs w) (trace w ++ [Get url_1080p h]) in
  let asked_both :=
    mkWorld (fs w) ((trace w ++ [Get url_1080p h]) ++ [Get url_720p h]) in
  parse_m3u8_from_url E url h w =
  if status_code r_1080p =? 200
  then (inr (ts_links_of E url_1080p r_1080p), asked_one)
  else if status_code r_720p =? 200
       then (inr (ts_links_of E url_720p r_720p), asked_both)
       else (inl (Raise ConnectionError
                    (py "下載失敗，狀態碼："
                        ++ Py.of_int (status_code r_720p))),
             asked_both).
Proof.
  intros url_1080p url_720p r_1080p r_720p asked_one asked_both.
  unfold parse_m3u8_from_url, qualities.
  cbn [parse_m3u8_loop]. unfold session_get.
  cbv [mbind M_bind bind mret M_ret ret raise log].
  fold url_1080p url_720p. cbn [fs trace]. fold r_1080p r_720p.
  destruct (status_code r_1080p =? 200); [reflexivity|].
  destruct (status_code r_720p =? 200); reflexivity.
Qed.

(** A manifest that was fetched was built from the answer of one of the
    tiers. *)
Lemma parse_m3u8_from_url_built (E : Env) url h w ts_links w1 :
  parse_m3u8_from_url E url h w = (inr ts_links, w1) ->
  exists new_url, built_from E new_url (http_get E new_url h) ts_links.
Proof.
  rewrite parse_m3u8_from_url_run.
  destruct (status_code _ =? 200);
    [intros [= <- _]; eexists; apply ts_links_built|].
  destruct (status_code _ =? 200); [|discriminate].
  intros [= <- _]. eexists. apply ts_links_built.
Qed.

(** C4, as stated, fails: a tier that answers 206, which is a success
    status, is passed over like a failure; when both tiers answer 206 the
    fetch fails although both answers have a success status and carry the
    playlist. *)
Lemma success_other_than_200_is_refused :
  let E := Sample.partial_content in
  let r := parse_m3u8_from_url E Sample.playlist_url [] Sample.fresh in
  success_status (http_get E (py "https://cdn.example/7/1080p.m3u8") [])
  /\ success_status (http_get E (py "https://cdn.example/7/720p.m3u8") [])
  /\ m3u8_segments E
       (text (http_get E (py "https://cdn.example/7/1080p.m3u8") []))
     <> []
  /\ fst r = inl (Raise ConnectionError (py "下載失敗，狀態碼：206"))
  /\ trace (snd r) = [Get (py "https://cdn.example/7/1080p.m3u8") [];
                      Get (py "https://cdn.example/7/720p.m3u8") []].
Proof.
  cbv zeta. split; [|split; [|split; [|split]]].
  - vm_compute. split; discriminate.
  - vm_compute. split; discriminate.
  - vm_compute. discriminate.
  - vm_compute. reflexivity.
  - vm_compute. reflexivity.
Qed.

(** C4, amended. The segment-manifest fetch asks for the 1080p playlist
    first and for the 720p playlist only if the first answer does not have
    status 200, each URL being the playlist URL with the tier name in place
    of [playlist].  The manifest is built from the first answer with status
    200, and from that answer alone: its keys are the segment URIs of the
    document in that answer.  The fetch fails, with [ConnectionError],
    exactly when neither answer has status 200; any other status, a
    success status included, counts as a failure. *)
Theorem parse_m3u8_quality_tiers (E : Env) (url : Py.str) (h : headers)
  (w : World) :
  let url_1080p := Py.replace (py "playlist") (py "1080p") url in
  let url_720p := Py.replace (py "playlist") (py "720p") url in
  let r_1080p := http_get E url_1080p h in
  let r_720p := http_get E url_720p h in
  let asked_one := mkWorld (fs w) (trace w ++ [Get url_1080p h]) in
  let asked_both :=
    mkWorld (fs w) ((trace w ++ [Get url_1080p h]) ++ [Get url_720p h]) in
  (ok_status r_1080p ->
   exists ts_links,
     parse_m3u8_from_url E url h w = (inr ts_links, asked_one)
     /\ built_from E url_1080p r_1080p ts_links)
  /\ (~ ok_status r_1080p -> ok_status r_720p ->
      exists ts_links,
        parse_m3u8_from_url E url h w = (inr ts_links, asked_both)
        /\ built_from E url_720p r_720p ts_links)
  /\ (~ ok_status r_1080p -> ~ ok_status r_720p ->
      parse_m3u8_from_url E url h w
        = (inl (Raise ConnectionError
                  (py "下載失敗，狀態碼："
                      ++ Py.of_int (status_code r_720p))),
           asked_both))
  /\ ((exists e, fst (parse_m3u8_from_url E url h w) = inl e)
      <-> ~ ok_status r_1080p /\ ~ ok_status r_720p).
Proof.
  intros url_1080p url_720p r_1080p r_720p asked_one asked_both.
  unfold ok_status.
  rewrite (parse_m3u8_from_url_run E url h w).
  fold url_1080p url_720p r_1080p r_720p asked_one asked_both.
  destruct (Z.eqb_spec (status_code r_1080p) 200) as [H1|H1];
    [|destruct (Z.eqb_spec (status_code r_720p) 200) as [H2|H2]].
  - split; [intros _; eexists; split; [reflexivity | apply ts_links_built]|].
    split; [tauto|]. split; [tauto|].
    split; [intros [e He]; discriminate He | tauto].
  - split; [tauto|].
    split;
      [intros _ _; eexists; split; [reflexivity | apply ts_links_built]|].
    split; [tauto|].
    split; [intros [e He]; discriminate He | tauto].
  - split; [tauto|]. split; [tauto|]. split; [reflexivity|].
    split; [tauto | intros _; eexists; reflexivity].
Qed.

(** Scenario C: 1080p answers 404 and 720p answers 200 with a document of
    four segment URIs, the second of them declared twice. *)
Lemma parse_m3u8_quality_tiers_witness :
  let E := Sample.scenario_C in
  let url_1080p :=
    Py.replace (py "playlist") (py "1080p") Sample.playlist_url in
  let url_720p :=
    Py.replace (py "playlist") (py "720p") Sample.playlist_url in
  exists ts_links,
    parse_m3u8_from_url E Sample.playlist_url [] Sample.fresh
    = (inr ts_links,
       mkWorld (fs Sample.fresh)
               ((trace Sample.fresh ++ [Get url_1080p []])
                  ++ [Get url_720p []]))
    /\ built_from E url_720p (http_get E url_720p []) ts_links.
Proof.
  intros E url_1080p url_720p.
  apply (parse_m3u8_quality_tiers E Sample.playlist_url [] Sample.fresh).
  - vm_compute. discriminate.
  - reflexivity.
Defined.

(** In scenario C the manifest has the three distinct URIs, in their order
    of declaration. *)
Example scenario_C_manifest :
  fst (parse_m3u8_from_url Sample.scenario_C Sample.playlist_url []
                           Sample.fresh)
  = inr [(py "720p_000.ts", py "https://cdn.example/7/720p.m3u8");
         (py "720p_001.ts", py "https://cdn.example/7/720p.m3u8");
         (py "720p_002.ts", py "https://cdn.example/7/720p.m3u8")].
Proof. vm_compute. reflexivity. Qed.

(** ** The concatenation manifest *)

Section SegmentFacts.
Context (E : Env).

Lemma os_mkdir_run p w :
  os_mkdir E p w =
  match lookup_path E (fs w) p with
  | Some _ => (inl (Raise FileExistsError (as_posix p)), w)
  | None =>
    match lookup_path E (fs w) (parent p) with
    | Some Dir =>
      if name_too_long p then (inl (Raise OSError (as_posix p)), w)
      else (inr tt, mkWorld (<[realpath E p := Dir]> (fs w)) (trace w))
    | Some (File _) => (inl (Raise NotADirectoryError (as_posix p)), w)
    | None => (inl (Raise FileNotFoundError (as_posix p)), w)
    end
  end.
Proof.
  unfold os_mkdir. rewrite run_bind. cbn [get_fs].
  destruct (lookup_path E (fs w) p); [reflexivity|].
  destruct (lookup_path E (fs w) (parent p)) as [[]|]; try reflexivity.
  destruct (name_too_long p); reflexivity.
Qed.

Lemma mkdir_single_is_dir p ok w w' :
  mkdir_single E p ok w = (inr tt, w') -> is_dir_in E (fs w') p = true.
Proof.
  unfold mkdir_single. rewrite os_mkdir_run.
  destruct (lookup_path E (fs w) p) as [n|] eqn:Hp.
  - cbn [exn_cls].
    destruct (ok && is_dir_in E (fs w) p) eqn:Hok; [|discriminate].
    intros [= <-]. now apply andb_prop in Hok.
  - destruct (lookup_path E (fs w) (parent p)) as [[|d]|]; cbn [exn_cls].
    + destruct (name_too_long p); cbn [exn_cls].
      * unfold is_dir_in. rewrite Hp, andb_false_r. discriminate.
      * intros [= <-]. unfold is_dir_in, lookup_path. cbn [fs].
        now rewrite lookup_insert_eq.
    + unfold is_dir_in. rewrite Hp, andb_false_r. discriminate.
    + discriminate.
Qed.

(** Writing a file into an existing directory, at a path that is not a
    directory itself and under a name that is not too long. *)
Lemma write_file_run p d w :
  is_dir_in E (fs w) (parent p) = true ->
  lookup_path E (fs w) p <> Some Dir ->
  name_too_long p = false ->
  write_file E p d w
  = (inr tt, mkWorld (<[realpath E p := File d]> (fs w))
                     (trace w ++ [Write p d])).
Proof.
  unfold write_file, is_dir_in. intros Hparent Hp Hname.
  rewrite run_bind. cbn [get_fs]. rewrite Hname, andb_false_r.
  destruct (lookup_path E (fs w) (parent p)) as [[]|]; try discriminate.
  destruct (lookup_path E (fs w) p) as [[]|]; [congruence| |]; reflexivity.
Qed.

Lemma grows_download_single_ts h ts_url ts_path :
  grows (download_single_ts E h ts_url ts_path).
Proof. unfold download_single_ts. growing. Qed.

Lemma grows_run_pool h ts_folder ts_links order :
  grows (run_pool E h ts_folder ts_links order).
Proof.
  induction order as [|i order IH]; cbn [run_pool]; [growing|].
  apply grows_bind; [|intros _; exact IH].
  destruct (nth_error ts_links i) as [[ts_name ts_url]|]; [|growing].
  apply grows_swallow, grows_download_single_ts.
Qed.

Lemma silent_subprocess_run_ffmpeg m3u8_path out :
  silent (subprocess_run_ffmpeg E m3u8_path out).
Proof.
  intros w. unfold subprocess_run_ffmpeg.
  now destruct (ffmpeg E m3u8_path out (fs w)).
Qed.

Lemma silent_convert_ts_to_mp4 ts_folder m3u8_path :
  silent (convert_ts_to_mp4 E ts_folder m3u8_path).
Proof.
  unfold convert_ts_to_mp4.
  apply silent_bind; [apply silent_path_exists|]. intros b.
  apply silent_bind; [destruct b; quiet|]. intros _.
  apply silent_bind; [apply silent_subprocess_run_ffmpeg|].
  intros ok. destruct ok; quiet.
Qed.

(** A write changes the file system at the path written, if at all. *)
Lemma write_file_other p d w k :
  k <> realpath E p ->
  fs (snd (write_file E p d w)) !! k = fs w !! k.
Proof.
  intros Hk. unfold write_file. rewrite run_bind. cbn [get_fs].
  assert (Hpar : forall existing : option node,
             fs (snd (match lookup_path E (fs w) (parent p) with
                      | Some Dir =>
                        if negb (bool_decide (is_Some existing))
                           && name_too_long p
                        then raise OSError (as_posix p)
                        else put_fs (<[realpath E p := File d]> (fs w));;
                             log (Write p d)
                      | Some (File _) =>
                        raise NotADirectoryError (as_posix p)
                      | None => raise FileNotFoundError (as_posix p)
                      end w)) !! k = fs w !! k).
  { intros existing.
    destruct (lookup_path E (fs w) (parent p)) as [[|d']|]; try reflexivity.
    destruct (negb (bool_decide (is_Some existing)) && name_too_long p);
      [reflexivity|].
    rewrite run_bind. cbn [put_fs log snd fs].
    now rewrite lookup_insert_ne by (intros Heq; now apply Hk). }
  destruct (lookup_path E (fs w) p) as [[|d0]|]; [reflexivity | |];
    apply Hpar.
Qed.

Lemma run_pool_ok h ts_folder ts_links order w :
  fst (run_pool E h ts_folder ts_links order w) = inr tt.
Proof.
  revert w. induction order as [|i order IH]; intros w; cbn [run_pool];
    [reflexivity|].
  rewrite run_bind.
  destruct (nth_error ts_links i) as [[ts_name ts_url]|];
    [unfold swallow | rewrite run_ret]; apply IH.
Qed.

Lemma download_single_ts_other h ts_url ts_path w k :
  k <> realpath E ts_path ->
  fs (snd (download_single_ts E h ts_url ts_path w)) !! k = fs w !! k.
Proof.
  intros Hk. unfold download_single_ts. rewrite run_bind.
  change (session_get E ts_url h w)
    with (inr (http_get E ts_url h) : exn + Response,
          mkWorld (fs w) (trace w ++ [Get ts_url h])).
  cbv beta iota. now rewrite write_file_other.
Qed.

(** An entry of the file system that is none of the segment files is the
    same after the pool as before it. *)
Lemma run_pool_other h ts_folder ts_links order w k :
  Forall (fun kv => realpath E (ts_folder // fst kv) <> k) ts_links ->
  fs (snd (run_pool E h ts_folder ts_links order w)) !! k = fs w !! k.
Proof.
  intros Hother. revert w.
  induction order as [|i order IH]; intros w; cbn [run_pool];
    [reflexivity|].
  rewrite run_bind.
  destruct (nth_error ts_links i) as [[ts_name ts_url]|] eqn:Hnth.
  - unfold swallow. rewrite IH. cbn [snd].
    apply download_single_ts_other.
    apply nth_error_In in Hnth. rewrite List.Forall_forall in Hother.
    intros Heq. exact (Hother _ Hnth (eq_sym Heq)).
  - rewrite run_ret. apply IH.
Qed.

End SegmentFacts.

#[global] Hint Resolve grows_download_single_ts grows_run_pool : quiet.
#[global] Hint Resolve silent_subprocess_run_ffmpeg silent_convert_ts_to_mp4
  : quiet.




(* ================================================================== *)
(** * One episode *)
(* ================================================================== *)

Ltac run_monad :=
  cbv [mbind M_bind bind mret M_ret ret raise log session_post].

Section EpisodeFacts.
Context (E : Env) (cfg : Config).

(** Up to the source: the two requests, then the check of [src]. *)
Lemma download_episode_answered url token first w :
  answered E url token first ->
  download_episode E cfg url w =
  if negb (truthy (src first))
  then (inl (Raise Exception (py "無法取得影片連結")), posted url token w)
  else
    let video_url := py "https:" ++ str_of (src first) in
    let set_cookie := default [] (set_cookie (api_response E token)) in
    match search_cookie (py "e=") set_cookie,
          search_cookie (py "p=") set_cookie,
          search_cookie (py "HttpOnly, h=") set_cookie with
    | Some cookie_e, Some cookie_p, Some cookie_h =>
      let cookies :=
        py "e=" ++ cookie_e ++ py ";p=" ++ cookie_p
           ++ py ";h=" ++ cookie_h ++ py ";" in
      match entry_title (episode_page E url) with
      | None => (inl (Raise Exception (py "找不到影片標題")),
                 posted url token w)
      | Some title_text =>
        fetch_media E cfg video_url (download_headers cfg cookies)
                    (Py.strip title_text) (posted url token w)
      end
    | _, _, _ => (inl (Raise Exception (py "無法解析 cookie")),
                  posted url token w)
    end.
Proof.
  intros [Htoken Hne (api_data & rest & Hjson & Hfirst)].
  unfold download_episode, fetch_media, download_headers, posted,
    api_response, api_payload, episode_page in *.
  run_monad. cbn [fs trace]. rewrite Htoken.
  destruct token as [|c token]; [congruence|]. cbn [truthy negb str_of].
  rewrite Hjson, Hfirst.
  destruct (truthy (src first)); cbn [negb]; [|reflexivity].
  destruct (search_cookie (py "e=") _); [|reflexivity].
  destruct (search_cookie (py "p=") _); [|reflexivity].
  destruct (search_cookie (py "HttpOnly, h=") _); [|reflexivity].
  destruct (entry_title _); reflexivity.
Qed.

Lemma download_episode_resolved url token video_src cookies title_text w :
  resolves E url token video_src cookies ->
  entry_title (episode_page E url) = Some title_text ->
  download_episode E cfg url w =
  fetch_media E cfg (py "https:" ++ video_src) (download_headers cfg cookies)
              (Py.strip title_text) (posted url token w).
Proof.
  intros [Hans Hne (ce & cp & ch & He & Hp & Hh & ->)] Htitle.
  rewrite (download_episode_answered url token _ w Hans).
  destruct video_src as [|c v]; [congruence|]. cbn [src truthy negb str_of].
  cbv zeta. rewrite He, Hp, Hh, Htitle. reflexivity.
Qed.

End EpisodeFacts.

(** ** A destination that already exists *)

(** The episode of [Sample.online] resolves, whatever its source. *)
Lemma sample_online_resolves video_src :
  video_src <> [] ->
  resolves (Sample.online video_src) Sample.episode_url (py "token") video_src
           (py "e=1700000000;p=eyJpc3MiOiJhbmltZTEubWUifQ;h=abc123;").
Proof.
  intros Hne. split; [split| |].
  - reflexivity.
  - discriminate.
  - eexists _, _. split; reflexivity.
  - exact Hne.
  - eexists _, _, _. cbv zeta.
    split; [vm_compute; reflexivity|].
    split; [vm_compute; reflexivity|].
    split; [vm_compute; reflexivity|].
    vm_compute. reflexivity.
Qed.

(** C2, as stated, fails: when the destination exists, the episode fails
    after the page and the API have been asked, not before any network
    call. *)
Lemma existing_destination_found_after_requests :
  let r := download_episode (Sample.online (py "//cdn.example/12345.mp4"))
                            Sample.config Sample.episode_url Sample.library in
  fst r = inl (Raise FileExistsError
                 (py "檔案已存在於 downloads/某動畫/某動畫 - OP.mp4"))
  /\ trace (snd r) = [Post Sample.episode_url None;
                      Post api_url (Some (py "d=token"))]
  /\ trace (snd r) <> trace Sample.library.
Proof.
  vm_compute. split; [reflexivity|]. split; [reflexivity|]. discriminate.
Qed.

(** C2, amended. For every episode that resolves and whose computed
    destination file already exists (in its folder), processing fails with
    [FileExistsError] before any media transfer: the only requests made are
    the two that resolve the episode (the page and the API), no media
    request is sent, no file is written and the file system is left as it
    was. *)
Theorem existing_destination_fails (E : Env) (cfg : Config)
  (url token video_src cookies title_text : Py.str)
  (download_folder video_path : Path) (w : World) :
  resolves E url token video_src cookies ->
  entry_title (episode_page E url) = Some title_text ->
  title_destination cfg (Py.strip title_text)
    = inr (download_folder, video_path) ->
  is_dir_in E (fs w) download_folder = true ->
  exists_in E (fs w) video_path = true ->
  let r := download_episode E cfg url w in
  fst r = inl (Raise FileExistsError
                 (py "檔案已存在於 " ++ as_posix video_path))
  /\ fs (snd r) = fs w
  /\ trace (snd r)
     = trace w ++ [Post url None; Post api_url (Some (py "d=" ++ token))].
Proof.
  intros Hres Htitle Hdest Hdir Hexists r. subst r.
  rewrite (download_episode_resolved E cfg url token video_src cookies
             title_text w Hres Htitle).
  unfold fetch_media. rewrite run_bind, process_video_name_run, Hdest.
  rewrite mkdir_existing by exact Hdir.
  cbn [posted fs] in *. rewrite Hexists. cbn [fst snd fs trace].
  split; [reflexivity|]. split; [reflexivity|].
  unfold posted, api_payload. cbn [trace]. now rewrite <- List.app_assoc.
Qed.

Lemma existing_destination_fails_witness :
  let E := Sample.online (py "//cdn.example/12345.mp4") in
  let r := download_episode E Sample.config Sample.episode_url
                            Sample.library in
  fst r = inl (Raise FileExistsError
                 (py "檔案已存在於 "
                     ++ as_posix (parse (py "downloads/某動畫/某動畫 - OP.mp4"))))
  /\ fs (snd r) = fs Sample.library
  /\ trace (snd r)
     = trace Sample.library
         ++ [Post Sample.episode_url None;
             Post api_url (Some (py "d=" ++ py "token"))].
Proof.
  intros E.
  apply (existing_destination_fails E Sample.config Sample.episode_url
           (py "token") (py "//cdn.example/12345.mp4")
           (py "e=1700000000;p=eyJpc3MiOiJhbmltZTEubWUifQ;h=abc123;")
           (py " 某動畫[OP] ")
           (parse (py "downloads/某動畫"))
           (parse (py "downloads/某動畫/某動畫 - OP.mp4"))
           Sample.library).
  - apply sample_online_resolves. discriminate.
  - reflexivity.
  - vm_compute. reflexivity.
  - vm_compute. reflexivity.
  - vm_compute. reflexivity.
Defined.

(** ** Which exceptions a computation can raise *)

Lemma raises_only_weaken {A} (P Q : exn -> Prop) (c : M A) :
  (forall e, P e -> Q e) -> raises_only P c -> raises_only Q c.
Proof. intros HPQ Hc w e He. eauto. Qed.

Lemma raises_only_ret {A} P (x : A) : raises_only P (mret x : M A).
Proof. intros w e [=]. Qed.

Lemma raises_only_raise {A} (P : exn -> Prop) c msg :
  P (Raise c msg) -> raises_only P (raise c msg : M A).
Proof. intros HP w e [= <-]. exact HP. Qed.

Lemma raises_only_throw {A} (P : exn -> Prop) e0 :
  P e0 -> raises_only P (throw e0 : M A).
Proof. intros HP w e [= <-]. exact HP. Qed.

Lemma raises_only_bind {A B} P (c : M A) (k : A -> M B) :
  raises_only P c -> (forall x, raises_only P (k x)) ->
  raises_only P (c ≫= k).
Proof.
  intros Hc Hk w e. rewrite run_bind. specialize (Hc w).
  destruct (c w) as [[e'|x] w']; cbn [fst] in *.
  - intros [= <-]. now apply Hc.
  - apply Hk.
Qed.

Lemma raises_only_swallow {A} P (c : M A) : raises_only P (swallow c).
Proof. intros w e [=]. Qed.

Lemma raises_only_log P ev : raises_only P (log ev).
Proof. intros w e [=]. Qed.

Lemma raises_only_get_fs P : raises_only P get_fs.
Proof. intros w e [=]. Qed.

Lemma raises_only_put_fs P f : raises_only P (put_fs f).
Proof. intros w e [=]. Qed.

Create HintDb raising.
#[global] Hint Resolve raises_only_ret raises_only_swallow raises_only_log
  raises_only_get_fs raises_only_put_fs : raising.
#[global] Hint Extern 1 (raises_only not_bare (raise _ _)) =>
  apply raises_only_raise; unfold not_bare; cbn [exn_cls]; discriminate
  : raising.

Ltac raising :=
  repeat first
    [ apply raises_only_bind; [|intros ?]
    | progress auto with raising
    | match goal with
      | |- raises_only _ (match ?x with _ => _ end) => destruct x
      | |- raises_only _ (if ?b then _ else _) => destruct b
      end ].

Section RaisingFacts.
Context (E : Env).

Lemma not_bare_session_get url h : raises_only not_bare (session_get E url h).
Proof. unfold session_get. raising. Qed.

Lemma not_bare_path_exists p : raises_only not_bare (path_exists E p).
Proof. unfold path_exists. raising. Qed.

Lemma not_bare_os_mkdir p : raises_only not_bare (os_mkdir E p).
Proof. unfold os_mkdir. raising. Qed.

Lemma not_bare_mkdir_single p ok : raises_only not_bare (mkdir_single E p ok).
Proof.
  intros w e. unfold mkdir_single.
  pose proof (not_bare_os_mkdir p w) as H.
  destruct (os_mkdir E p w) as [[e'|[]] w']; cbn [fst] in *; [|discriminate].
  specialize (H e' eq_refl).
  destruct (exn_cls e'), (ok && is_dir_in E (fs w') p);
    intros [= <-]; assumption.
Qed.

Lemma not_bare_mkdir_parents a rp ok :
  raises_only not_bare (mkdir_parents E a rp ok).
Proof.
  revert ok. induction rp as [|c rp IH]; intros ok w e; cbn [mkdir_parents].
  - pose proof (not_bare_os_mkdir (mkPath a (rev [])) w) as H.
    destruct (os_mkdir E (mkPath a (rev [])) w) as [[e'|[]] w'];
      cbn [fst] in *; [|discriminate].
    specialize (H e' eq_refl).
    destruct (exn_cls e'), (ok && is_dir_in E (fs w') (mkPath a (rev [])));
      intros [= <-]; assumption.
  - pose proof (not_bare_os_mkdir (mkPath a (rev (c :: rp))) w) as H.
    destruct (os_mkdir E (mkPath a (rev (c :: rp))) w) as [[e'|[]] w'];
      cbn [fst] in *; [|discriminate].
    specialize (H e' eq_refl).
    assert (Hrec : raises_only not_bare
              (mkdir_parents E a rp true;;
               mkdir_single E (mkPath a (rev (c :: rp))) ok)).
    { apply raises_only_bind; [apply IH|].
      intros _. apply not_bare_mkdir_single. }
    destruct (exn_cls e') eqn:Hcls,
             (ok && is_dir_in E (fs w') (mkPath a (rev (c :: rp))));
      try (intros [= <-]; assumption); apply Hrec.
Qed.

Lemma not_bare_mkdir p parents ok : raises_only not_bare (mkdir E p parents ok).
Proof.
  unfold mkdir. destruct parents;
    [apply not_bare_mkdir_parents | apply not_bare_mkdir_single].
Qed.

Lemma not_bare_unlink p : raises_only not_bare (unlink E p).
Proof. unfold unlink. raising. Qed.

Lemma not_bare_stat_st_size p : raises_only not_bare (stat_st_size E p).
Proof. unfold stat_st_size. raising. Qed.

Lemma not_bare_write_file p d : raises_only not_bare (write_file E p d).
Proof. unfold write_file. raising. Qed.

Lemma not_bare_rename a b : raises_only not_bare (rename E a b).
Proof. unfold rename. raising. Qed.

Lemma not_bare_rmtree p : raises_only not_bare (rmtree E p).
Proof. unfold rmtree. raising. Qed.

Lemma not_bare_py_int s : raises_only not_bare (py_int s).
Proof. unfold py_int. raising. Qed.

End RaisingFacts.

#[global] Hint Resolve not_bare_session_get not_bare_path_exists
  not_bare_os_mkdir not_bare_mkdir not_bare_unlink not_bare_stat_st_size
  not_bare_write_file not_bare_rename not_bare_rmtree not_bare_py_int
  : raising.

(** ** The resolution error *)

Lemma not_bare_other e : not_bare e -> other_error e.
Proof. intros H ->. now apply H. Qed.

Lemma differ_at_end (a front back : Py.str) (x y : N) :
  x <> y -> a ++ front ++ [x] <> back ++ [y].
Proof.
  intros Hxy H. rewrite List.app_assoc in H. apply app_inj_tail in H. tauto.
Qed.

Lemma too_small_other (file_name : Py.str) :
  other_error (Raise Exception (file_name ++ py " 檔案大小過小")).
Proof.
  unfold other_error, resolution_error. intros [= H]. revert H.
  replace (py " 檔案大小過小")
    with (removelast (py " 檔案大小過小")
            ++ [List.last (py " 檔案大小過小") 0%N])
    by (vm_compute; reflexivity).
  replace (py "無法取得影片連結")
    with (removelast (py "無法取得影片連結")
            ++ [List.last (py "無法取得影片連結") 0%N])
    by (vm_compute; reflexivity).
  apply differ_at_end. vm_compute. discriminate.
Qed.

Lemma ffmpeg_failure_other :
  other_error (Raise Exception (py "轉換 ts 檔案失敗，錯誤：")).
Proof.
  intros H. apply (f_equal exn_msg) in H. revert H. vm_compute. discriminate.
Qed.

Lemma spared_of_not_bare {A} (c : M A) :
  raises_only not_bare c -> raises_only other_error c.
Proof. apply raises_only_weaken, not_bare_other. Qed.

Section DownloadFacts.
Context (E : Env) (cfg : Config).

Lemma not_bare_format_video_path anime_name season_num episode_num :
  raises_only not_bare
    (format_video_path E cfg anime_name season_num episode_num).
Proof. unfold format_video_path. raising. Qed.

Lemma not_bare_process_video_name video_name :
  raises_only not_bare (process_video_name E cfg video_name).
Proof.
  unfold process_video_name, parse_video_name.
  destruct (search_brackets _) as [[g1 g2]|].
  - destruct (get_and_replace_season_number _ _).
    apply raises_only_bind; [apply not_bare_format_video_path|].
    intros p. unfold check_file_exists. raising.
  - apply raises_only_throw. unfold not_bare. cbn [exn_cls]. discriminate.
Qed.

Lemma not_bare_parse_m3u8_loop url h qs response :
  raises_only not_bare (parse_m3u8_loop E url h qs response).
Proof.
  revert response. induction qs as [|q qs IH]; intros response;
    cbn [parse_m3u8_loop]; [raising|].
  apply raises_only_bind; [auto with raising|].
  intros r. destruct (status_code r =? 200); [raising | apply IH].
Qed.

Lemma not_bare_download_mp4 download_url video_path h :
  raises_only not_bare (download_mp4 E download_url video_path h).
Proof. unfold download_mp4. raising. Qed.

Lemma not_bare_run_pool h ts_folder ts_links order :
  raises_only not_bare (run_pool E h ts_folder ts_links order).
Proof.
  induction order as [|i order IH]; cbn [run_pool]; [raising|].
  apply raises_only_bind; [|intros _; exact IH]. raising.
Qed.

Lemma spared_convert_ts_to_mp4 ts_folder m3u8_path :
  raises_only other_error (convert_ts_to_mp4 E ts_folder m3u8_path).
Proof.
  unfold convert_ts_to_mp4.
  apply raises_only_bind;
    [apply spared_of_not_bare, not_bare_path_exists|]. intros b.
  apply raises_only_bind; [apply spared_of_not_bare; raising|]. intros _.
  apply raises_only_bind; [intros w e; unfold subprocess_run_ffmpeg;
                           destruct (ffmpeg _ _ _ _); discriminate|].
  intros ok. destruct ok; [apply raises_only_ret|].
  apply raises_only_raise, ffmpeg_failure_other.
Qed.

Lemma spared_download_ts download_url video_path h :
  raises_only other_error (download_ts E download_url video_path h).
Proof.
  unfold download_ts, parse_m3u8_from_url.
  apply raises_only_bind;
    [apply spared_of_not_bare, not_bare_parse_m3u8_loop|]. intros ts_links.
  apply raises_only_bind; [apply spared_of_not_bare; raising|]. intros _.
  apply raises_only_bind; [apply spared_of_not_bare; raising|]. intros _.
  apply raises_only_bind;
    [apply spared_of_not_bare, not_bare_run_pool|]. intros _.
  apply raises_only_bind; [apply spared_convert_ts_to_mp4|]. intros tmp.
  apply spared_of_not_bare. raising.
Qed.

Lemma spared_validate_download video_path :
  raises_only other_error (validate_download E video_path).
Proof.
  unfold validate_download.
  apply raises_only_bind;
    [apply spared_of_not_bare, not_bare_stat_st_size|]. intros size.
  destruct (size <? 1024 * 1024); [|apply raises_only_ret].
  apply raises_only_bind; [apply spared_of_not_bare, not_bare_unlink|].
  intros _. apply raises_only_raise, too_small_other.
Qed.

Lemma spared_fetch_media video_url h title :
  raises_only other_error (fetch_media E cfg video_url h title).
Proof.
  unfold fetch_media.
  apply raises_only_bind;
    [apply spared_of_not_bare, not_bare_process_video_name|].
  intros video_path.
  apply raises_only_bind; [|intros _; apply spared_validate_download].
  destruct (Py.eqb _ (py "mp4"));
    [apply spared_of_not_bare, not_bare_download_mp4|].
  destruct (Py.eqb _ (py "m3u8")); [apply spared_download_ts|].
  apply spared_of_not_bare. raising.
Qed.

(** *** The first media request *)

Lemma begins_with_get_bind {A B} url (c : M A) (k : A -> M B) :
  begins_with_get url c -> (forall x, grows (k x)) ->
  begins_with_get url (c ≫= k).
Proof.
  intros Hc Hk w. rewrite run_bind. destruct (Hc w) as (h & l & Hl).
  destruct (c w) as [[e|x] w']; cbn [snd] in *; [eauto|].
  destruct (Hk x w') as [l' Hl']. exists h, (l ++ l').
  rewrite Hl', Hl, <- List.app_assoc. reflexivity.
Qed.

Lemma begins_with_get_session url h : begins_with_get url (session_get E url h).
Proof. intros w. exists h, []. reflexivity. Qed.

Lemma begins_after_silent {A B} url (c : M A) (k : A -> M B) w :
  silent c -> (forall x, begins_with_get url (k x)) ->
  exists l, trace (snd ((c ≫= k) w)) = trace w ++ l
            /\ (l = [] \/ exists h l', l = Get url h :: l').
Proof.
  intros Hc Hk. rewrite run_bind. specialize (Hc w).
  destruct (c w) as [[e|x] w']; cbn [snd] in *.
  - exists []. rewrite Hc, app_nil_r. auto.
  - destruct (Hk x w') as (h & l & Hl). exists (Get url h :: l).
    rewrite Hl, Hc. eauto.
Qed.

Lemma grows_parse_m3u8_loop url h qs response :
  grows (parse_m3u8_loop E url h qs response).
Proof.
  revert response. induction qs as [|q qs IH]; intros response;
    cbn [parse_m3u8_loop]; [growing|].
  apply grows_bind; [auto with quiet|].
  intros r. destruct (status_code r =? 200); [growing | apply IH].
Qed.

Lemma silent_validate_download video_path :
  silent (validate_download E video_path).
Proof. unfold validate_download. quiet. Qed.

Lemma begins_download_mp4 download_url video_path h :
  begins_with_get download_url (download_mp4 E download_url video_path h).
Proof.
  unfold download_mp4.
  apply begins_with_get_bind; [apply begins_with_get_session|].
  intros r. unfold py_int. growing.
Qed.

Lemma begins_download_ts download_url video_path h :
  begins_with_get (Py.replace (py "playlist") (py "1080p") download_url)
                  (download_ts E download_url video_path h).
Proof.
  unfold download_ts, parse_m3u8_from_url, qualities.
  cbn [parse_m3u8_loop].
  apply begins_with_get_bind; [|intros ts_links; growing].
  apply begins_with_get_bind; [apply begins_with_get_session|].
  intros r. growing.
Qed.

(** The requests of [fetch_media]: none, or first a GET of the media URL,
    or of its 1080p playlist for segmented media. *)
Lemma fetch_media_first_request video_url h title w :
  exists l,
    trace (snd (fetch_media E cfg video_url h title w)) = trace w ++ l
    /\ (l = [] \/
        exists u h' l',
          l = Get u h' :: l'
          /\ (u = video_url
              \/ u = Py.replace (py "playlist") (py "1080p") video_url)).
Proof.
  unfold fetch_media.
  destruct (Py.eqb (Py.lower_ascii (Py.after_last dot video_url)) (py "mp4")).
  - destruct (begins_after_silent video_url
                (process_video_name E cfg title)
                (fun video_path =>
                   download_mp4 E video_url video_path h;;
                   validate_download E video_path) w)
      as (l & Hl & Hcase).
    + apply silent_process_video_name.
    + intros p. apply begins_with_get_bind; [apply begins_download_mp4|].
      intros _. apply silent_grows, silent_validate_download.
    + exists l. split; [exact Hl|].
      destruct Hcase as [->|(h' & l' & ->)]; [auto|right; eauto 6].
  - destruct (Py.eqb (Py.lower_ascii (Py.after_last dot video_url))
                     (py "m3u8")).
    + destruct (begins_after_silent
                  (Py.replace (py "playlist") (py "1080p") video_url)
                  (process_video_name E cfg title)
                  (fun video_path =>
                     download_ts E video_url video_path h;;
                     validate_download E video_path) w)
        as (l & Hl & Hcase).
      * apply silent_process_video_name.
      * intros p. apply begins_with_get_bind; [apply begins_download_ts|].
        intros _. apply silent_grows, silent_validate_download.
      * exists l. split; [exact Hl|].
        destruct Hcase as [->|(h' & l' & ->)]; [auto|right; eauto 6].
    + exists []. rewrite app_nil_r. split; [|auto].
      apply silent_bind; [apply silent_process_video_name|].
      intros p. apply silent_bind; [apply silent_raise|].
      intros _. apply silent_validate_download.
Qed.

End DownloadFacts.

(** ** The media URL *)




(* ================================================================== *)
(** * Further facts about strings *)
(* ================================================================== *)

Module StrFacts.

Lemma Forall_lstrip (P : N -> Prop) s : Forall P s -> Forall P (Py.lstrip s).
Proof.
  induction 1 as [|c s Hc Hs IH]; cbn [Py.lstrip]; [constructor|].
  destruct (Py.isspace_char c); [exact IH | now constructor].
Qed.

Lemma Forall_strip (P : N -> Prop) s : Forall P s -> Forall P (Py.strip s).
Proof.
  intros H. unfold Py.strip, Py.rstrip.
  apply Forall_rev, Forall_lstrip, Forall_rev, Forall_lstrip, H.
Qed.

Lemma Forall_skipn (P : N -> Prop) k s : Forall P s -> Forall P (skipn k s).
Proof.
  intros H. revert k. induction H as [|c s Hc Hs IH]; intros [|k];
    cbn [skipn]; try constructor; auto.
Qed.

Lemma Forall_replace_scan (P : N -> Prop) old k s :
  Forall P s -> Forall P (Py.replace_scan old [] k s).
Proof.
  intros H. revert k. induction H as [|c s Hc Hs IH]; intros k;
    cbn [Py.replace_scan]; [constructor|].
  destruct k; [|apply IH].
  destruct (Py.startswith old (c :: s)); cbn [app]; [apply IH|].
  constructor; [exact Hc | apply IH].
Qed.

(** Removing a substring brings in no new character. *)
Lemma Forall_replace_nil (P : N -> Prop) old s :
  Forall P s -> Forall P (Py.replace old [] s).
Proof.
  intros H. unfold Py.replace. destruct old.
  - cbn [app]. induction H; cbn [flat_map app]; now try constructor.
  - now apply Forall_replace_scan.
Qed.

Lemma lstrip_fixed s :
  match s with [] => True | c :: _ => Py.isspace_char c = false end ->
  Py.lstrip s = s.
Proof. destruct s as [|c s]; cbn [Py.lstrip]; [easy|]. now intros ->. Qed.

Lemma lstrip_head s :
  match Py.lstrip s with
  | [] => True
  | c :: _ => Py.isspace_char c = false
  end.
Proof.
  induction s as [|c s IH]; cbn [Py.lstrip]; [exact I|].
  destruct (Py.isspace_char c) eqn:Hc; [exact IH | exact Hc].
Qed.

(** What [lstrip] removes is a prefix. *)
Lemma lstrip_suffix s : exists sp, s = sp ++ Py.lstrip s.
Proof.
  induction s as [|c s [sp IH]]; cbn [Py.lstrip]; [now exists []|].
  destruct (Py.isspace_char c); [|now exists []].
  exists (c :: sp). cbn [app]. now rewrite <- IH.
Qed.

Lemma rstrip_prefix s : exists sp, s = Py.rstrip s ++ sp.
Proof.
  unfold Py.rstrip. destruct (lstrip_suffix (rev s)) as [sp Hsp].
  exists (rev sp). now rewrite <- rev_app_distr, <- Hsp, rev_involutive.
Qed.

Lemma rstrip_last s :
  match rev (Py.rstrip s) with
  | [] => True
  | c :: _ => Py.isspace_char c = false
  end.
Proof. unfold Py.rstrip. rewrite rev_involutive. apply lstrip_head. Qed.

Lemma rstrip_fixed s :
  match rev s with [] => True | c :: _ => Py.isspace_char c = false end ->
  Py.rstrip s = s.
Proof.
  intros H. unfold Py.rstrip. rewrite lstrip_fixed by exact H.
  apply rev_involutive.
Qed.

Lemma strip_stripped s : stripped (Py.strip s).
Proof.
  unfold stripped, Py.strip. split; [|apply rstrip_last].
  pose proof (lstrip_head s) as Hhead.
  destruct (rstrip_prefix (Py.lstrip s)) as [sp Hsp].
  destruct (Py.rstrip (Py.lstrip s)) as [|c u]; [exact I|].
  rewrite Hsp in Hhead. exact Hhead.
Qed.

Lemma stripped_fixed s : stripped s -> Py.strip s = s.
Proof.
  intros [Hhead Hlast]. unfold Py.strip.
  rewrite (lstrip_fixed s Hhead). now apply rstrip_fixed.
Qed.

(** [str.strip] is idempotent. *)
Lemma strip_idempotent s : Py.strip (Py.strip s) = Py.strip s.
Proof. apply stripped_fixed, strip_stripped. Qed.

Lemma stripped_iff s : stripped s <-> Py.strip s = s.
Proof.
  split; [apply stripped_fixed|]. intros <-. apply strip_stripped.
Qed.

(** The last occurrence of a character. *)
Lemma rsplit_char_none c s : rsplit_char c s = None <-> ~ In c s.
Proof.
  induction s as [|x s IH]; cbn [rsplit_char In]; [tauto|].
  destruct (rsplit_char c s) as [[a b]|].
  - split; [discriminate|]. intros H. exfalso. apply H. right.
    destruct (in_dec N.eq_dec c s) as [Hin|Hin]; [exact Hin|].
    now apply IH in Hin.
  - destruct (N.eqb_spec x c) as [->|Hne].
    + split; [discriminate | intros H; exfalso; apply H; now left].
    + split; [|reflexivity]. intros _ [Heq|Hin]; [congruence|].
      now apply IH in Hin.
Qed.

Lemma rsplit_char_some c s a b :
  rsplit_char c s = Some (a, b) <-> s = a ++ c :: b /\ ~ In c b.
Proof.
  revert a b. induction s as [|x s IH]; intros a b; cbn [rsplit_char].
  - split; [discriminate|]. intros [H _]. now destruct a.
  - destruct (rsplit_char c s) as [[a' b']|] eqn:Hrec.
    + destruct (proj1 (IH a' b') eq_refl) as [Hs Hb'].
      split.
      * intros [= <- <-]. now rewrite Hs.
      * intros [Hs' Hb]. destruct a as [|y a].
        -- cbn [app] in Hs'. injection Hs' as -> ->.
           exfalso. apply Hb. rewrite Hs. apply in_elt.
        -- cbn [app] in Hs'. injection Hs' as -> Hs'.
           assert (Heq : Some (a', b') = Some (a, b))
             by (apply IH; now split).
           now injection Heq as -> ->.
    + apply rsplit_char_none in Hrec.
      destruct (N.eqb_spec x c) as [->|Hne].
      * split.
        -- intros [= <- <-]. now split.
        -- intros [Hs Hb]. destruct a as [|y a].
           ++ cbn [app] in Hs. now injection Hs as ->.
           ++ cbn [app] in Hs. injection Hs as -> ->.
              exfalso. apply Hrec, in_elt.
      * split; [discriminate|]. intros [Hs Hb].
        destruct a as [|y a]; cbn [app] in Hs; injection Hs as -> ->;
          [congruence|]. exfalso. apply Hrec, in_elt.
Qed.

Lemma split_lines_single s : ~ In newline s -> split_lines s = [s].
Proof.
  induction s as [|c s IH]; cbn [split_lines In]; [reflexivity|].
  intros H. destruct (N.eqb_spec c newline) as [->|Hne]; [tauto|].
  rewrite IH by tauto. reflexivity.
Qed.

Lemma split_lines_chars s line :
  In line (split_lines s) -> forall c, In c line -> In c s.
Proof.
  revert line. induction s as [|x s IH]; intros line; cbn [split_lines].
  - intros [<-|[]] c [].
  - destruct (x =? newline)%N.
    + intros [<-|Hin] c Hc; [destruct Hc|]. right. eauto.
    + destruct (split_lines s) as [|l ls] eqn:Hls.
      * intros [<-|[]] c [<-|[]]. now left.
      * intros [<-|Hin] c Hc.
        -- destruct Hc as [<-|Hc]; [now left|]. right.
           apply (IH l); [now left | exact Hc].
        -- right. apply (IH line); [now right | exact Hc].
Qed.

End StrFacts.

(* ================================================================== *)
(** * Titles *)
(* ================================================================== *)

Lemma sanitize_legal video_name :
  Forall legal_char (sanitize_video_name video_name).
Proof.
  unfold sanitize_video_name. apply List.Forall_forall. intros c Hc.
  apply filter_In in Hc as [_ Hc]. apply negb_true_iff in Hc.
  intros Hin. apply not_true_iff_false in Hc. apply Hc.
  apply existsb_exists. exists c. split; [exact Hin | apply N.eqb_refl].
Qed.

(** X1. Sanitising removes exactly the illegal characters: none is left,
    a name without any is unchanged (and only such a name is), the rest
    stays in order so that sanitising distributes over concatenation, and
    a second pass changes nothing. *)
Theorem sanitize_video_name_removes_illegal (a b : Py.str) :
  Forall legal_char (sanitize_video_name a)
  /\ (sanitize_video_name a = a <-> Forall legal_char a)
  /\ sanitize_video_name (a ++ b)
     = sanitize_video_name a ++ sanitize_video_name b
  /\ sanitize_video_name (sanitize_video_name a) = sanitize_video_name a.
Proof.
  assert (Hfix : forall s, Forall legal_char s -> sanitize_video_name s = s).
  { intros s Hs. unfold sanitize_video_name.
    induction Hs as [|c s Hc Hs IH]; cbn [List.filter]; [reflexivity|].
    destruct (existsb (N.eqb c) illegal_chars) eqn:Hex; cbn [negb].
    - exfalso. apply Hc. apply existsb_exists in Hex as (x & Hx & Heq).
      apply N.eqb_eq in Heq. now subst.
    - now rewrite IH. }
  split; [apply sanitize_legal|]. split; [|split].
  - split; [intros <-; apply sanitize_legal | apply Hfix].
  - apply List.filter_app.
  - apply Hfix, sanitize_legal.
Qed.

(** X2. A title made of a name, a bracketed episode part and anything after
    the closing bracket is parsed into the stripped name and the stripped
    episode part, whatever the name holds but a line feed, provided the
    episode part has no bracket and no line feed and what follows has no
    closing bracket and no line feed; what follows is dropped. *)
Theorem parse_video_name_round_trip (anime_name episode_num tail : Py.str) :
  ~ In newline anime_name ->
  Forall (fun c => c <> 91%N /\ c <> 93%N /\ c <> newline) episode_num ->
  Forall (fun c => c <> 93%N /\ c <> newline) tail ->
  parse_video_name (anime_name ++ [91%N] ++ episode_num ++ [93%N] ++ tail)
  = inr (Py.strip anime_name, Py.strip episode_num).
Proof.
  intros Hname Hep Htail. rewrite List.Forall_forall in Hep, Htail.
  unfold parse_video_name. rewrite StrFacts.split_lines_single.
  - cbn [search_brackets]. unfold match_brackets.
    assert (H93 : rsplit_char 93 (anime_name ++ [91%N] ++ episode_num
                                    ++ [93%N] ++ tail)
                  = Some (anime_name ++ [91%N] ++ episode_num, tail)).
    { apply StrFacts.rsplit_char_some. split.
      - now rewrite <- !List.app_assoc.
      - intros Hin. now apply Htail in Hin. }
    rewrite H93.
    assert (H91 : rsplit_char 91 (anime_name ++ [91%N] ++ episode_num)
                  = Some (anime_name, episode_num)).
    { apply StrFacts.rsplit_char_some. split; [reflexivity|].
      intros Hin. now apply Hep in Hin. }
    now rewrite H91.
  - intros Hin. rewrite !in_app_iff in Hin. cbn [In] in Hin.
    destruct Hin as [H|[[H|[]]|[H|[[H|[]]|H]]]];
      try discriminate H; try tauto.
    + now apply Hep in H.
    + now apply Htail in H.
Qed.

Lemma parse_video_name_round_trip_witness :
  parse_video_name (py "某動畫 [Season 2] " ++ [91%N] ++ py " 07 "
                       ++ [93%N] ++ py " (HD)")
  = inr (Py.strip (py "某動畫 [Season 2] "), Py.strip (py " 07 ")).
Proof.
  apply (parse_video_name_round_trip (py "某動畫 [Season 2] ") (py " 07 ")
           (py " (HD)")).
  - vm_compute. intuition discriminate.
  - apply List.Forall_forall. intros c Hc. vm_compute in Hc.
    intuition (subst; discriminate).
  - apply List.Forall_forall. intros c Hc. vm_compute in Hc.
    intuition (subst; discriminate).
Defined.

(** X3. A title is accepted exactly when one of its lines has an opening
    bracket with a closing bracket somewhere after it; every other title
    is rejected. *)
Theorem parse_video_name_accepts (video_name : Py.str) :
  (exists groups, parse_video_name video_name = inr groups)
  <-> exists line a b c,
        In line (split_lines video_name)
        /\ line = a ++ [91%N] ++ b ++ [93%N] ++ c.
Proof.
  unfold parse_video_name.
  assert (Hline : forall line,
             (exists g, match_brackets line = Some g)
             <-> exists a b c, line = a ++ [91%N] ++ b ++ [93%N] ++ c).
  { intros line. unfold match_brackets. split.
    - intros [[g1 g2] Hg].
      destruct (rsplit_char 93 line) as [[before after]|] eqn:H93;
        [|discriminate].
      apply StrFacts.rsplit_char_some in H93 as [-> _].
      apply StrFacts.rsplit_char_some in Hg as [-> _].
      exists g1, g2, after. now rewrite <- !List.app_assoc.
    - intros (a & b & c & ->).
      destruct (rsplit_char 93 (a ++ [91%N] ++ b ++ [93%N] ++ c))
        as [[before after]|] eqn:H93.
      + apply StrFacts.rsplit_char_some in H93 as [Heq Hafter].
        destruct (rsplit_char 91 before) as [g|] eqn:H91; [eauto|].
        exfalso. apply StrFacts.rsplit_char_none in H91. apply H91.
        assert (Heq' : (a ++ 91%N :: b) ++ 93%N :: c = before ++ 93%N :: after)
          by (rewrite <- Heq; now rewrite <- !List.app_assoc).
        clear Heq. symmetry in Heq'.
        apply app_eq_app in Heq' as [k [[-> Hk]|[Hb Hk]]].
        * rewrite in_app_iff. left. apply in_elt.
        * destruct k as [|x k]; cbn [app] in Hk.
          -- rewrite app_nil_r in Hb. subst before. apply in_elt.
          -- injection Hk as Hx Hk. subst x after.
             exfalso. apply Hafter, in_elt.
      + exfalso. apply StrFacts.rsplit_char_none in H93. apply H93.
        rewrite !in_app_iff. right. right. right. left. now left. }
  induction (split_lines video_name) as [|l ls IH]; cbn [search_brackets In].
  - split; [intros [g [=]] | intros (line & a & b & c & [] & _)].
  - destruct (match_brackets l) as [[g1 g2]|] eqn:Hl.
    + split; [|eauto]. intros _.
      destruct (proj1 (Hline l)) as (a & b & c & Heq); [eauto|].
      exists l, a, b, c. split; [now left | exact Heq].
    + rewrite IH. split.
      * intros (line & a & b & c & Hin & Heq). exists line, a, b, c.
        split; [now right | exact Heq].
      * intros (line & a & b & c & [<-|Hin] & Heq); [|eauto 8].
        destruct (proj2 (Hline l)) as [g Hg]; [eauto|]. congruence.
Qed.

(* ================================================================== *)
(** * The destination path *)
(* ================================================================== *)

Lemma legal_charb_spec c : legal_charb c = true <-> legal_char c.
Proof.
  unfold legal_charb, legal_char. rewrite negb_true_iff.
  rewrite <- not_true_iff_false, existsb_exists. split.
  - intros H Hin. apply H. exists c. split; [exact Hin | apply N.eqb_refl].
  - intros H (x & Hin & Heq). apply N.eqb_eq in Heq. subst. now apply H.
Qed.

Lemma legal_literal s : forallb legal_charb s = true -> Forall legal_char s.
Proof.
  intros H. apply List.Forall_forall. intros c Hc.
  apply legal_charb_spec. rewrite forallb_forall in H. now apply H.
Qed.

Lemma legal_no_slash s : Forall legal_char s -> ~ In slash s.
Proof.
  intros H Hin. rewrite List.Forall_forall in H. apply (H _ Hin).
  right. now left.
Qed.

(** ** Joining a plain component *)

Lemma split_slash_plain s : ~ In slash s -> split_slash s = [s].
Proof.
  induction s as [|c s IH]; cbn [split_slash In]; [reflexivity|].
  intros H. destruct (N.eqb_spec c slash) as [->|Hne]; [tauto|].
  rewrite IH by tauto. reflexivity.
Qed.

Lemma leading_slashes_plain s : ~ In slash s -> leading_slashes s = O.
Proof.
  destruct s as [|c s]; cbn [leading_slashes In]; [reflexivity|].
  intros H. destruct (N.eqb_spec c slash) as [->|Hne]; [tauto | reflexivity].
Qed.

(** Joining a string without slash appends it as one component, or
    nothing when it is empty or a lone dot. *)
Lemma joinpath_plain p s :
  ~ In slash s ->
  p // s = mkPath (path_anchor p)
                  (parts p ++ if is_component s then [s] else []).
Proof.
  intros H. unfold joinpath, parse.
  rewrite leading_slashes_plain, split_slash_plain by exact H.
  cbn [path_anchor parts List.filter].
  now destruct (is_component s).
Qed.

Lemma is_component_longer c d s : is_component (c :: d :: s) = true.
Proof.
  unfold is_component, Py.eqb.
  rewrite !bool_decide_eq_false_2 by discriminate. reflexivity.
Qed.

Lemma is_component_mp4 s : is_component (s ++ py ".mp4") = true.
Proof.
  destruct s as [|c [|d s]]; [reflexivity| |apply is_component_longer].
  apply (is_component_longer c 46%N).
Qed.

(** ** The characters [int] accepts *)

Lemma skip_c_space_nil s :
  Py.skip_c_space s = [] -> forallb Py.c_isspace s = true.
Proof.
  induction s as [|c s IH]; cbn [Py.skip_c_space forallb]; [reflexivity|].
  destruct (Py.c_isspace c); [exact IH | discriminate].
Qed.

Lemma c_isspace_int_ascii s :
  forallb Py.c_isspace s = true -> forallb int_ascii s = true.
Proof.
  rewrite !forallb_forall. intros H c Hc. unfold int_ascii.
  now rewrite (H c Hc).
Qed.

Lemma digits_value_chars s acc n prev r :
  Py.digits_value s acc n prev = Some r -> forallb int_ascii s = true.
Proof.
  revert acc n prev. induction s as [|c s IH]; intros acc n prev;
    cbn [Py.digits_value forallb]; [reflexivity|].
  destruct (Py.ascii_digit c) as [d|] eqn:Hd.
  - intros H. apply IH in H. rewrite H. unfold int_ascii. rewrite Hd.
    now rewrite !orb_true_r.
  - destruct (N.eqb_spec c 95) as [->|Hne].
    + destruct prev; [|discriminate].
      destruct s as [|c' s']; [discriminate|].
      destruct (Py.ascii_digit c'); [|discriminate].
      intros H. apply IH in H. now rewrite H.
    + destruct prev; [|discriminate].
      destruct (Py.skip_c_space (c :: s)) eqn:Hskip; [|discriminate].
      intros _. apply skip_c_space_nil, c_isspace_int_ascii in Hskip.
      exact Hskip.
Qed.

Lemma skip_c_space_chars s :
  forallb int_ascii (Py.skip_c_space s) = true -> forallb int_ascii s = true.
Proof.
  induction s as [|c s IH]; cbn [Py.skip_c_space forallb]; [reflexivity|].
  destruct (Py.c_isspace c) eqn:Hc.
  - intros H. rewrite (IH H). unfold int_ascii. now rewrite Hc.
  - cbn [forallb]. tauto.
Qed.

Lemma int_chars s n :
  Py.int s = Some n -> forallb int_ascii (map Py.to_ascii_decimal s) = true.
Proof.
  unfold Py.int. intros H. apply skip_c_space_chars.
  destruct (Py.skip_c_space (map Py.to_ascii_decimal s)) as [|c a] eqn:Ha.
  - reflexivity.
  - destruct (N.eqb_spec c 45) as [->|H45];
      [|destruct (N.eqb_spec c 43) as [->|H43]].
    + destruct (Py.digits_value a 0 O false) as [[v k]|] eqn:Hd;
        [|discriminate].
      cbn [forallb]. now rewrite (digits_value_chars _ _ _ _ _ Hd).
    + destruct (Py.digits_value a 0 O false) as [[v k]|] eqn:Hd;
        [|discriminate].
      cbn [forallb]. now rewrite (digits_value_chars _ _ _ _ _ Hd).
    + destruct (Py.digits_value (c :: a) 0 O false) as [[v k]|] eqn:Hd;
        [|discriminate].
      exact (digits_value_chars _ _ _ _ _ Hd).
Qed.

Lemma int_ascii_legal c :
  int_ascii (Py.to_ascii_decimal c) = true -> legal_char c.
Proof.
  intros H Hin. unfold Py.to_ascii_decimal in H.
  cbn [illegal_chars In] in Hin.
  repeat (destruct Hin as [<-|Hin]; [discriminate H|]). exact Hin.
Qed.

(** A string that [int] converts holds no illegal character. *)
Lemma int_legal s n : Py.int s = Some n -> Forall legal_char s.
Proof.
  intros H. apply int_chars in H. rewrite forallb_forall in H.
  apply List.Forall_forall. intros c Hc. apply int_ascii_legal, H.
  now apply in_map.
Qed.

Lemma uint_digits_legal u : Forall legal_char (Py.uint_digits u).
Proof.
  induction u; cbn [Py.uint_digits]; constructor; try exact IHu;
    apply legal_charb_spec; reflexivity.
Qed.

Lemma of_int_legal n : Forall legal_char (Py.of_int n).
Proof.
  destruct n; cbn [Py.of_int].
  - apply legal_literal. reflexivity.
  - apply uint_digits_legal.
  - constructor; [apply legal_charb_spec; reflexivity|].
    apply uint_digits_legal.
Qed.

Lemma format_02d_legal n : Forall legal_char (Py.format_02d n).
Proof.
  unfold Py.format_02d. pose proof (of_int_legal n) as H.
  destruct (Py.of_int n) as [|c [|d s]]; try exact H.
  constructor; [apply legal_charb_spec; reflexivity | exact H].
Qed.

(** ** From the title to the components *)

Lemma parse_video_name_chars (P : N -> Prop) s anime_name episode_num :
  Forall P s ->
  parse_video_name s = inr (anime_name, episode_num) ->
  Forall P anime_name /\ Forall P episode_num.
Proof.
  intros Hs. unfold parse_video_name.
  destruct (search_brackets (split_lines s)) as [[g1 g2]|] eqn:Hsearch;
    [|discriminate].
  intros [= <- <-].
  assert (Hline : exists line,
             In line (split_lines s) /\ match_brackets line = Some (g1, g2)).
  { induction (split_lines s) as [|l ls IH]; [discriminate|].
    cbn [search_brackets] in Hsearch.
    destruct (match_brackets l) as [g|] eqn:Hl.
    - exists l. split; [now left | congruence].
    - destruct (IH Hsearch) as (line & Hin & Hm). exists line.
      split; [now right | exact Hm]. }
  destruct Hline as (line & Hin & Hm). unfold match_brackets in Hm.
  destruct (rsplit_char 93 line) as [[before after]|] eqn:H93; [|discriminate].
  apply StrFacts.rsplit_char_some in H93 as [Hline _].
  apply StrFacts.rsplit_char_some in Hm as [Hbefore _].
  assert (Hall : Forall P line).
  { apply List.Forall_forall. intros c Hc.
    rewrite List.Forall_forall in Hs. apply Hs.
    exact (StrFacts.split_lines_chars s line Hin c Hc). }
  subst line before. rewrite !Forall_app in Hall.
  destruct Hall as [[H1 H2] _]. apply Forall_cons_1 in H2 as [_ H2].
  split; now apply StrFacts.Forall_strip.
Qed.

Lemma season_name_chars (P : N -> Prop) table anime_name :
  Forall P anime_name ->
  Forall P (snd (get_and_replace_season_number table anime_name)).
Proof.
  intros H. induction table as [|[m c] table IH];
    cbn [get_and_replace_season_number snd]; [exact H|].
  destruct (Py.contains m anime_name); [|exact IH].
  cbn [snd]. now apply StrFacts.Forall_strip, StrFacts.Forall_replace_nil.
Qed.

(** The file name of a destination is one legal component of the folder,
    and the folder adds legal components to the root. *)
Lemma destination_shape cfg anime_name season_num episode_num folder p :
  Forall legal_char anime_name ->
  Forall legal_char episode_num ->
  destination cfg anime_name season_num episode_num = inr (folder, p) ->
  exists comps file_name,
    folder = mkPath (path_anchor (root_download_path cfg))
                    (parts (root_download_path cfg) ++ comps)
    /\ p = mkPath (path_anchor folder) (parts folder ++ [file_name])
    /\ Forall (Forall legal_char) comps
    /\ Forall legal_char file_name
    /\ Forall (fun c => c <> py "..") (tl (comps ++ [file_name])).
Proof.
  intros Hname Hep. unfold destination, int_or_error.
  assert (Hnotup : forall s, s ++ py ".mp4" <> py "..").
  { intros s H. apply (f_equal (@length N)) in H.
    rewrite length_app in H. vm_compute (length (py ".mp4")) in H.
    vm_compute (length (py "..")) in H. lia. }
  assert (Hseason_up : forall n, py "Season " ++ Py.of_int n <> py "..").
  { intros n H. apply (f_equal (fun s => nth 0 s 0%N)) in H.
    vm_compute in H. discriminate. }
  assert (Htl : forall (season : list Py.str) file_name,
             Forall (fun c => c <> py "..") season ->
             file_name <> py ".." ->
             Forall (fun c => c <> py "..")
                    (tl (((if is_component anime_name
                           then [anime_name] else []) ++ season)
                           ++ [file_name]))).
  { intros season file_name Hs Hf.
    assert (Hall : Forall (fun c => c <> py "..") (season ++ [file_name])).
    { apply Forall_app. split; [exact Hs|].
      apply Forall_cons_2; [exact Hf | apply Forall_nil_2]. }
    destruct (is_component anime_name); cbn [app tl]; [exact Hall|].
    destruct season as [|c season]; cbn [app tl] in *.
    - apply Forall_nil_2.
    - apply Forall_cons_1 in Hall as [_ Hall]. exact Hall. }
  assert (Hlit : forall s, forallb legal_charb s = true -> Forall legal_char s)
    by exact legal_literal.
  assert (Hseason : forall n, Forall legal_char (py "Season " ++ Py.of_int n)).
  { intros n. apply Forall_app. split; [now apply Hlit | apply of_int_legal]. }
  assert (Hroot : root_download_path cfg // anime_name
            = mkPath (path_anchor (root_download_path cfg))
                (parts (root_download_path cfg)
                   ++ if is_component anime_name then [anime_name] else []))
    by (apply joinpath_plain, legal_no_slash, Hname).
  assert (Hcomp : Forall (Forall legal_char)
                    (if is_component anime_name then [anime_name] else []))
    by (destruct (is_component anime_name);
        [apply Forall_cons_2; [exact Hname | apply Forall_nil_2]
        | apply Forall_nil_2]).
  assert (Hstr : Forall legal_char
            (if Py.isdigit episode_num
             then match Py.int episode_num with
                  | Some n => Py.format_02d n
                  | None => []
                  end
             else episode_num)).
  { destruct (Py.isdigit episode_num); [|exact Hep].
    destruct (Py.int episode_num); [apply format_02d_legal | constructor]. }
  assert (Hfile : forall x y folder0,
             Forall legal_char x -> Forall legal_char y ->
             folder0 // (anime_name ++ x ++ y ++ py ".mp4")
             = mkPath (path_anchor folder0)
                 (parts folder0 ++ [anime_name ++ x ++ y ++ py ".mp4"])
             /\ Forall legal_char (anime_name ++ x ++ y ++ py ".mp4")
             /\ anime_name ++ x ++ y ++ py ".mp4" <> py "..").
  { intros x y folder0 Hx Hy.
    assert (Hall : Forall legal_char (anime_name ++ x ++ y ++ py ".mp4")).
    { rewrite !Forall_app. repeat split; try assumption. now apply Hlit. }
    split; [|split; [exact Hall|]].
    2:{ replace (anime_name ++ x ++ y ++ py ".mp4")
          with ((anime_name ++ x ++ y) ++ py ".mp4")
          by now rewrite <- !List.app_assoc.
        apply Hnotup. }
    rewrite joinpath_plain by (apply legal_no_slash, Hall).
    replace (anime_name ++ x ++ y ++ py ".mp4")
      with ((anime_name ++ x ++ y) ++ py ".mp4")
      by now rewrite <- !List.app_assoc.
    now rewrite is_component_mp4. }
  assert (Hsub : forall n,
             root_download_path cfg // anime_name
               // (py "Season " ++ Py.of_int n)
             = mkPath (path_anchor (root_download_path cfg))
                 (parts (root_download_path cfg)
                    ++ (if is_component anime_name then [anime_name] else [])
                    ++ [py "Season " ++ Py.of_int n])).
  { intros n. rewrite joinpath_plain by (apply legal_no_slash, Hseason).
    rewrite Hroot. cbn [path_anchor parts].
    replace (is_component (py "Season " ++ Py.of_int n)) with true.
    - now rewrite <- List.app_assoc.
    - symmetry. destruct (Py.of_int n); apply is_component_longer. }
  destruct (Py.isdigit episode_num) eqn:Hdigit.
  - destruct (Py.int episode_num) as [k|] eqn:Hk; [|discriminate].
    destruct (truthy season_num) eqn:Htruthy; cbn [andb].
    + destruct (Py.int (str_of season_num)) as [n|] eqn:Hn; [|discriminate].
      intros [= <- <-].
      destruct (Hfile (py " - S") (str_of season_num ++ py "E" ++ Py.format_02d k)
                  (root_download_path cfg // anime_name
                     // (py "Season " ++ Py.of_int n)))
        as (Hp & Hlegal & Hup).
      { now apply Hlit. }
      { rewrite !Forall_app. repeat split;
          [exact (int_legal _ _ Hn) | now apply Hlit | exact Hstr]. }
      eexists _, _. split; [apply Hsub|].
      split; [rewrite <- !List.app_assoc in Hp; exact Hp|].
      split; [|split;
                 [rewrite <- !List.app_assoc in Hlegal; exact Hlegal|]].
      { apply Forall_app. split; [exact Hcomp|].
        apply Forall_cons_2; [apply Hseason | apply Forall_nil_2]. }
      rewrite <- !List.app_assoc in Hup. apply Htl; [|exact Hup].
      apply Forall_cons_2; [apply Hseason_up | apply Forall_nil_2].
    + intros [= <- <-].
      destruct (Hfile (py " - ") (Py.format_02d k)
                  (root_download_path cfg // anime_name // py "Season 1"))
        as (Hp & Hlegal & Hup); [now apply Hlit | exact Hstr|].
      eexists _, _. split; [apply (Hsub 1)|].
      split; [exact Hp|]. split; [|split; [exact Hlegal|]].
      { apply Forall_app. split; [exact Hcomp|].
        apply Forall_cons_2; [apply (Hseason 1) | apply Forall_nil_2]. }
      apply Htl; [|exact Hup].
      apply Forall_cons_2; [apply (Hseason_up 1) | apply Forall_nil_2].
  - cbn [andb]. rewrite andb_false_r.
    destruct (truthy season_num) eqn:Htruthy.
    + destruct (Py.int (str_of season_num)) as [n|] eqn:Hn; [|discriminate].
      intros [= <- <-].
      destruct (Hfile (py " - S") (str_of season_num ++ py " - " ++ episode_num)
                  (root_download_path cfg // anime_name
                     // (py "Season " ++ Py.of_int n)))
        as (Hp & Hlegal & Hup).
      { now apply Hlit. }
      { rewrite !Forall_app. repeat split;
          [exact (int_legal _ _ Hn) | now apply Hlit | exact Hep]. }
      eexists _, _. split; [apply Hsub|].
      split; [rewrite <- !List.app_assoc in Hp; exact Hp|].
      split; [|split;
                 [rewrite <- !List.app_assoc in Hlegal; exact Hlegal|]].
      { apply Forall_app. split; [exact Hcomp|].
        apply Forall_cons_2; [apply Hseason | apply Forall_nil_2]. }
      rewrite <- !List.app_assoc in Hup. apply Htl; [|exact Hup].
      apply Forall_cons_2; [apply Hseason_up | apply Forall_nil_2].
    + intros [= <- <-].
      destruct (Hfile (py " - ") episode_num
                  (root_download_path cfg // anime_name))
        as (Hp & Hlegal & Hup); [now apply Hlit | exact Hep|].
      eexists _, _. split; [exact Hroot|].
      split; [exact Hp|]. split; [exact Hcomp|]. split; [exact Hlegal|].
      destruct (is_component anime_name); cbn [app tl];
        [|apply Forall_nil_2].
      apply Forall_cons_2; [exact Hup | apply Forall_nil_2].
Qed.

(** ** Directories *)

Section MkdirFacts.
Context (E : Env).

Lemma os_mkdir_keeps p w : fs w ⊆ fs (snd (os_mkdir E p w)).
Proof.
  rewrite os_mkdir_run.
  destruct (lookup_path E (fs w) p) eqn:Hp; [reflexivity|].
  destruct (lookup_path E (fs w) (parent p)) as [[|d]|]; try reflexivity.
  destruct (name_too_long p); [reflexivity|].
  cbn [snd fs]. now apply insert_subseteq.
Qed.

Lemma mkdir_single_keeps p ok w : fs w ⊆ fs (snd (mkdir_single E p ok w)).
Proof.
  unfold mkdir_single. pose proof (os_mkdir_keeps p w) as H.
  destruct (os_mkdir E p w) as [[e|[]] w']; cbn [snd] in *; [|exact H].
  destruct (exn_cls e), (ok && is_dir_in E (fs w') p); exact H.
Qed.

Lemma mkdir_parents_keeps a rp ok w :
  fs w ⊆ fs (snd (mkdir_parents E a rp ok w)).
Proof.
  revert ok w. induction rp as [|c rp IH]; intros ok w; cbn [mkdir_parents].
  - pose proof (os_mkdir_keeps (mkPath a (rev [])) w) as H.
    destruct (os_mkdir E (mkPath a (rev [])) w) as [[e|[]] w'];
      cbn [snd] in *; [|exact H].
    destruct (exn_cls e), (ok && is_dir_in E (fs w') (mkPath a (rev [])));
      exact H.
  - pose proof (os_mkdir_keeps (mkPath a (rev (c :: rp))) w) as H.
    destruct (os_mkdir E (mkPath a (rev (c :: rp))) w) as [[e|[]] w'];
      cbn [snd] in *; [|exact H].
    assert (Hrec : fs w ⊆ fs (snd ((mkdir_parents E a rp true;;
                     mkdir_single E (mkPath a (rev (c :: rp))) ok) w'))).
    { rewrite run_bind. pose proof (IH true w') as H1.
      destruct (mkdir_parents E a rp true w') as [[e1|[]] w1];
        cbn [snd] in *; [now transitivity (fs w')|].
      pose proof (mkdir_single_keeps (mkPath a (rev (c :: rp))) ok w1) as H2.
      transitivity (fs w'); [exact H|]. now transitivity (fs w1). }
    destruct (exn_cls e),
             (ok && is_dir_in E (fs w') (mkPath a (rev (c :: rp))));
      try exact H; exact Hrec.
Qed.

(** Making directories never removes or replaces an entry. *)
Lemma mkdir_keeps p parents ok w :
  fs w ⊆ fs (snd (mkdir E p parents ok w)).
Proof.
  unfold mkdir. destruct parents;
    [apply mkdir_parents_keeps | apply mkdir_single_keeps].
Qed.

Lemma mkdir_parents_is_dir a rp ok w w' :
  mkdir_parents E a rp ok w = (inr tt, w') ->
  is_dir_in E (fs w') (mkPath a (rev rp)) = true.
Proof.
  assert (Hbase : forall p (e : exn) w0 w1,
             (if ok && is_dir_in E (fs w0) p
              then (inr tt, w0) else (inl e, w0))
             = ((inr tt, w1) : (exn + unit) * World) ->
             is_dir_in E (fs w1) p = true).
  { intros p e w0 w1.
    destruct (ok && is_dir_in E (fs w0) p) eqn:Hok; [|discriminate].
    intros [= <-]. now apply andb_prop in Hok. }
  destruct rp as [|c rp]; cbn [mkdir_parents]; rewrite os_mkdir_run.
  - destruct (lookup_path E (fs w) (mkPath a (rev []))) eqn:Hp.
    + cbn [exn_cls]. apply Hbase.
    + destruct (lookup_path E (fs w) (parent (mkPath a (rev []))))
        as [[|d]|]; cbn [exn_cls]; try discriminate.
      * destruct (name_too_long (mkPath a (rev []))); cbn [exn_cls];
          [apply Hbase|].
        intros [= <-]. unfold is_dir_in, lookup_path. cbn [fs].
        now rewrite lookup_insert_eq.
      * apply Hbase.
  - destruct (lookup_path E (fs w) (mkPath a (rev (c :: rp)))) eqn:Hp.
    + cbn [exn_cls]. apply Hbase.
    + destruct (lookup_path E (fs w) (parent (mkPath a (rev (c :: rp)))))
        as [[|d]|]; cbn [exn_cls].
      * destruct (name_too_long (mkPath a (rev (c :: rp)))); cbn [exn_cls];
          [apply Hbase|].
        intros [= <-]. unfold is_dir_in, lookup_path. cbn [fs].
        now rewrite lookup_insert_eq.
      * apply Hbase.
      * rewrite run_bind.
        destruct (mkdir_parents E a rp true w) as [[e1|[]] w1]; [discriminate|].
        apply mkdir_single_is_dir.
Qed.

(** A directory that was made is there. *)
Lemma mkdir_is_dir p parents ok w w' :
  mkdir E p parents ok w = (inr tt, w') -> is_dir_in E (fs w') p = true.
Proof.
  unfold mkdir. destruct parents; [|apply mkdir_single_is_dir].
  intros H. apply mkdir_parents_is_dir in H.
  rewrite rev_involutive in H. now destruct p.
Qed.

End MkdirFacts.

(** ** What the naming guarantees *)

(** The destination of a title: the root, then the components made from
    the title, then the file. *)
Lemma title_destination_shape cfg video_name folder p :
  title_destination cfg video_name = inr (folder, p) ->
  exists comps file_name,
    folder = mkPath (path_anchor (root_download_path cfg))
                    (parts (root_download_path cfg) ++ comps)
    /\ p = mkPath (path_anchor folder) (parts folder ++ [file_name])
    /\ Forall (Forall legal_char) comps
    /\ Forall legal_char file_name
    /\ Forall (fun c => c <> py "..") (tl (comps ++ [file_name])).
Proof.
  unfold title_destination.
  destruct (parse_video_name (sanitize_video_name video_name))
    as [e|[name0 episode_num]] eqn:Hparse; [discriminate|].
  destruct (parse_video_name_chars legal_char _ _ _
              (sanitize_legal video_name) Hparse) as [Hname0 Hep].
  pose proof (season_name_chars legal_char (seasons cfg) name0 Hname0)
    as Hname.
  destruct (get_and_replace_season_number (seasons cfg) name0)
    as [season_num anime_name]. cbn [snd] in Hname.
  now apply destination_shape.
Qed.

Lemma title_destination_parent cfg video_name folder p :
  title_destination cfg video_name = inr (folder, p) ->
  parent p = folder /\ parts p <> [].
Proof.
  intros Hdest.
  destruct (title_destination_shape cfg video_name folder p Hdest)
    as (comps & file_name & _ & Hp & _).
  split.
  - rewrite Hp. unfold parent. cbn [path_anchor parts].
    rewrite removelast_last. now destruct folder.
  - rewrite Hp. cbn [parts]. intros H. now apply app_eq_nil in H as [_ H].
Qed.

(** X5. Whatever the title, the destination that the naming computes is
    the configured root followed by components made from the title, the
    last of them the file; none of them holds a character illegal in file
    names, so that each is one component, and the file is placed directly
    in the folder that gets created.  Only the first of these components
    can be [..]: a title that names [..] is the one way for the destination
    to leave the root. *)
Theorem destination_is_legal (cfg : Config) (video_name : Py.str)
  (download_folder video_path : Path) :
  title_destination cfg video_name = inr (download_folder, video_path) ->
  parent video_path = download_folder
  /\ path_anchor video_path = path_anchor (root_download_path cfg)
  /\ exists comps,
       parts video_path = parts (root_download_path cfg) ++ comps
       /\ comps <> []
       /\ Forall (Forall legal_char) comps
       /\ Forall (fun c => c <> py "..") (tl comps).
Proof.
  intros Hdest.
  destruct (title_destination_parent cfg video_name _ _ Hdest) as [Hpar _].
  destruct (title_destination_shape cfg video_name _ _ Hdest)
    as (comps & file_name & Hfolder & Hp & Hcomps & Hfile & Hup).
  split; [exact Hpar|]. split; [rewrite Hp, Hfolder; reflexivity|].
  exists (comps ++ [file_name]). split; [|split; [|split]].
  - rewrite Hp, Hfolder. cbn [parts]. now rewrite <- List.app_assoc.
  - intros H. now apply app_eq_nil in H as [_ H].
  - apply Forall_app. split; [exact Hcomps|].
    apply Forall_cons_2; [exact Hfile | apply Forall_nil_2].
  - exact Hup.
Qed.

Lemma destination_is_legal_witness :
  let p := parse (py "downloads/Re ゼロ/Season 2/Re ゼロ - S2E07.mp4") in
  parent p = parse (py "downloads/Re ゼロ/Season 2")
  /\ path_anchor p = path_anchor (parse (py "downloads"))
  /\ exists comps,
       parts p = parts (parse (py "downloads")) ++ comps
       /\ comps <> []
       /\ Forall (Forall legal_char) comps
       /\ Forall (fun c => c <> py "..") (tl comps).
Proof.
  apply (destination_is_legal
           {| root_download_path := parse (py "downloads");
              seasons := [(py "第二季", py "2")];
              user_agent := [] |}
           (py "Re: ゼロ? 第二季 [7]")).
  vm_compute. reflexivity.
Defined.

(** A title that names the parent directory takes the destination out of
    the root. *)
Example destination_outside_root :
  title_destination Sample.config (py "..[OP]")
  = inr (parse (py "downloads/.."), parse (py "downloads/../.. - OP.mp4")).
Proof. vm_compute. reflexivity. Qed.

Section NamingOutcome.
Context (E : Env) (cfg : Config).

(** What a successful naming leaves behind. *)
Lemma process_video_name_success video_name w video_path w' :
  process_video_name E cfg video_name w = (inr video_path, w') ->
  parts video_path <> []
  /\ is_dir_in E (fs w') (parent video_path) = true
  /\ exists_in E (fs w') video_path = false
  /\ name_too_long video_path = false
  /\ fs w ⊆ fs w'
  /\ trace w' = trace w.
Proof.
  intros Hrun.
  assert (Htrace : trace w' = trace w).
  { pose proof (silent_process_video_name E cfg video_name w) as H.
    now rewrite Hrun in H. }
  rewrite process_video_name_run in Hrun.
  destruct (title_destination cfg video_name) as [e|[folder p]] eqn:Hdest;
    [discriminate|].
  pose proof (mkdir_keeps E folder true true w) as Hkeep.
  destruct (mkdir E folder true true w) as [[e|[]] w1] eqn:Hmk;
    [discriminate|].
  destruct (exists_in E (fs w1) p) eqn:Hex; [discriminate|].
  destruct (title_destination_parent cfg video_name folder p Hdest)
    as [Hparent Hparts].
  pose proof (mkdir_is_dir E _ true true w w1 Hmk) as Hdir.
  rewrite Hparent, Hdir in Hrun. cbn [andb] in Hrun.
  destruct (name_too_long p) eqn:Hlong; [discriminate|].
  injection Hrun as <- <-.
  rewrite Hparent. repeat split; assumption.
Qed.

End NamingOutcome.

(** X4. When [process_video_name] returns a path, the folder of that path
    is a directory, nothing exists at the path yet, no entry of the file
    system has been removed or replaced, and nothing was requested or
    written. *)
Theorem process_video_name_postcondition (E : Env) (cfg : Config)
  (video_name : Py.str) (w w' : World) (video_path : Path) :
  process_video_name E cfg video_name w = (inr video_path, w') ->
  is_dir_in E (fs w') (parent video_path) = true
  /\ exists_in E (fs w') video_path = false
  /\ fs w ⊆ fs w'
  /\ trace w' = trace w.
Proof.
  intros Hrun.
  destruct (process_video_name_success E cfg _ _ _ _ Hrun)
    as (_ & Hdir & Hfree & _ & Hkeep & Htrace).
  repeat split; assumption.
Qed.

Lemma process_video_name_postcondition_witness :
  let r := process_video_name Sample.offline Sample.config
                              (py "進擊的巨人 第四季[12]") Sample.fresh in
  is_dir_in Sample.offline (fs (snd r))
            (parent (parse (py "downloads/進擊的巨人/Season 4/進擊的巨人 - S4E12.mp4")))
    = true
  /\ exists_in Sample.offline (fs (snd r))
               (parse (py "downloads/進擊的巨人/Season 4/進擊的巨人 - S4E12.mp4"))
     = false
  /\ fs Sample.fresh ⊆ fs (snd r)
  /\ trace (snd r) = trace Sample.fresh.
Proof.
  intros r.
  apply (process_video_name_postcondition Sample.offline Sample.config
           (py "進擊的巨人 第四季[12]") Sample.fresh (snd r)).
  apply run_result. vm_compute. reflexivity.
Defined.

(** X6. Numeric episode parts that denote the same integer get the same
    destination: the number is normalised before it enters the file name. *)
Theorem same_number_same_destination (cfg : Config)
  (anime_name : Py.str) (season_num : option Py.str) (e1 e2 : Py.str) :
  Py.isdigit e1 = true -> Py.isdigit e2 = true -> Py.int e1 = Py.int e2 ->
  destination cfg anime_name season_num e1
  = destination cfg anime_name season_num e2.
Proof.
  intros H1 H2 Hint. unfold destination, int_or_error.
  rewrite H1, H2, Hint. reflexivity.
Qed.

Lemma same_number_same_destination_witness :
  destination Sample.config (py "某動畫") None (py "7")
  = destination Sample.config (py "某動畫") None (py "０７").
Proof.
  apply same_number_same_destination; reflexivity.
Defined.

(** ** Session cookies *)

Lemma match_literal_i_split p s rest :
  match_literal_i p s = Some rest ->
  exists m, s = m ++ rest /\ map Py.lower_char m = map Py.lower_char p.
Proof.
  revert s. induction p as [|a p IH]; intros s; cbn [match_literal_i].
  - intros [= ->]. now exists [].
  - destruct s as [|b s]; [discriminate|].
    destruct (Py.lower_char a =? Py.lower_char b)%N eqn:Hab; [|discriminate].
    intros H. destruct (IH s H) as (m & -> & Hm).
    exists (b :: m). split; [reflexivity|]. cbn [map].
    apply N.eqb_eq in Hab. now rewrite Hm, Hab.
Qed.

Lemma match_literal_i_self p s : match_literal_i p (p ++ s) = Some s.
Proof.
  induction p as [|a p IH]; cbn [match_literal_i app]; [reflexivity|].
  now rewrite N.eqb_refl.
Qed.

Lemma until_semicolon_split s g :
  until_semicolon s = Some g ->
  (exists post, s = g ++ 59%N :: post)
  /\ ~ In 59%N g /\ ~ In newline g.
Proof.
  revert g. induction s as [|c s IH]; intros g; cbn [until_semicolon];
    [discriminate|].
  destruct (c =? 59)%N eqn:H59.
  - intros [= <-]. apply N.eqb_eq in H59. subst c.
    split; [now exists s|]. split; intros [].
  - destruct (c =? newline)%N eqn:Hnl; [discriminate|].
    destruct (until_semicolon s) as [g'|]; [|discriminate].
    intros [= <-]. destruct (IH g' eq_refl) as ((post & ->) & Hs & Hn).
    apply N.eqb_neq in H59, Hnl.
    split; [now exists post|].
    split; intros [Hc|Hin]; auto.
Qed.

Lemma until_semicolon_value v post :
  ~ In 59%N v -> ~ In newline v ->
  until_semicolon (v ++ 59%N :: post) = Some v.
Proof.
  induction v as [|c v IH]; intros Hs Hn; cbn [until_semicolon app].
  - reflexivity.
  - destruct (c =? 59)%N eqn:H59.
    { apply N.eqb_eq in H59. exfalso. apply Hs. now left. }
    destruct (c =? newline)%N eqn:Hnl.
    { apply N.eqb_eq in Hnl. exfalso. apply Hn. now left. }
    rewrite IH; [reflexivity | |]; intros Hin; [apply Hs | apply Hn];
      now right.
Qed.

(** X7. A cookie value found by the search is a stretch of the header with
    no semicolon and no line feed in it, that follows an occurrence of the
    literal in either case and is closed by a semicolon. *)
Theorem search_cookie_value (literal s g : Py.str) :
  search_cookie literal s = Some g ->
  ~ In 59%N g /\ ~ In newline g
  /\ exists pre m post,
       s = pre ++ m ++ g ++ 59%N :: post
       /\ map Py.lower_char m = map Py.lower_char literal.
Proof.
  revert g. induction s as [|c s IH]; intros g; cbn [search_cookie].
  - destruct (match_literal_i literal []) as [rest|] eqn:Hm;
      [|discriminate].
    destruct (until_semicolon rest) as [g'|] eqn:Hu; [|discriminate].
    intros [= <-].
    destruct (until_semicolon_split _ _ Hu) as ((post & ->) & Hs & Hn).
    destruct (match_literal_i_split _ _ _ Hm) as (m & Heq & Hlow).
    split; [exact Hs|]. split; [exact Hn|].
    now exists [], m, post.
  - destruct (match_literal_i literal (c :: s)) as [rest|] eqn:Hm.
    + destruct (until_semicolon rest) as [g'|] eqn:Hu.
      * intros [= <-].
        destruct (until_semicolon_split _ _ Hu) as ((post & ->) & Hs & Hn).
        destruct (match_literal_i_split _ _ _ Hm) as (m & Heq & Hlow).
        split; [exact Hs|]. split; [exact Hn|].
        now exists [], m, post.
      * intros H. destruct (IH g H) as (Hs & Hn & pre & m & post & -> & Hl).
        split; [exact Hs|]. split; [exact Hn|].
        now exists (c :: pre), m, post.
    + intros H. destruct (IH g H) as (Hs & Hn & pre & m & post & -> & Hl).
      split; [exact Hs|]. split; [exact Hn|].
      now exists (c :: pre), m, post.
Qed.

Lemma search_cookie_value_witness :
  ~ In 59%N (py "abc") /\ ~ In newline (py "abc")
  /\ exists pre m post,
       py "x=1; HTTPONLY, H=abc; path=/"
       = pre ++ m ++ py "abc" ++ 59%N :: post
       /\ map Py.lower_char m = map Py.lower_char (py "HttpOnly, h=").
Proof.
  apply (search_cookie_value (py "HttpOnly, h=")
           (py "x=1; HTTPONLY, H=abc; path=/") (py "abc")).
  vm_compute. reflexivity.
Defined.

(** X8. A header that starts with the literal gives back the value written
    after it, whatever follows the closing semicolon. *)
Theorem search_cookie_round_trip (literal v post : Py.str) :
  ~ In 59%N v -> ~ In newline v ->
  search_cookie literal (literal ++ v ++ 59%N :: post) = Some v.
Proof.
  intros Hs Hn.
  assert (H : forall s,
             match_literal_i literal s = Some (v ++ 59%N :: post) ->
             search_cookie literal s = Some v).
  { intros s Hm. destruct s; cbn [search_cookie]; rewrite Hm;
      now rewrite until_semicolon_value. }
  apply H, match_literal_i_self.
Qed.

Lemma search_cookie_round_trip_witness :
  search_cookie (py "e=") (py "e=" ++ py "1700000000" ++ 59%N :: py " p=x;")
  = Some (py "1700000000").
Proof.
  apply search_cookie_round_trip; vm_compute; intuition discriminate.
Defined.

(** ** Episodes that fail early *)

(** X9. Without a video element that carries a non-empty request token the
    episode fails with a bare [Exception] after the page request alone: the
    API is not asked, and the file system is left as it was. *)
Theorem download_episode_needs_token (E : Env) (cfg : Config)
  (url : Py.str) (w : World) :
  (forall token,
     video_js (episode_page E url) = Some (Some token) -> token = []) ->
  download_episode E cfg url w
  = (inl (Raise Exception
            (match video_js (episode_page E url) with
             | None => py "找不到影片標籤"
             | Some _ => py "找不到 data-apireq 資料"
             end)),
     mkWorld (fs w) (trace w ++ [Post url None])).
Proof.
  unfold episode_page, download_episode. intros Htoken.
  run_monad. cbn [fs trace].
  destruct (video_js (soup E (text (http_post E url None))))
    as [[token|]|]; try reflexivity.
  rewrite (Htoken token eq_refl). reflexivity.
Qed.

Lemma download_episode_needs_token_witness :
  download_episode Sample.offline Sample.config Sample.episode_url
                   Sample.fresh
  = (inl (Raise Exception
            (match video_js (episode_page Sample.offline Sample.episode_url)
             with
             | None => py "找不到影片標籤"
             | Some _ => py "找不到 data-apireq 資料"
             end)),
     mkWorld (fs Sample.fresh)
             (trace Sample.fresh ++ [Post Sample.episode_url None])).
Proof.
  apply download_episode_needs_token. intros token H.
  vm_compute in H. discriminate.
Defined.

(** X10. When the API names a source but one of the three cookies cannot
    be read from its [set-cookie] header, the episode fails after the two
    requests: the title is not looked at, no folder is made and no media
    is requested. *)
Theorem download_episode_needs_cookies (E : Env) (cfg : Config)
  (url token video_src : Py.str) (w : World) :
  answered E url token {| src := Some video_src |} ->
  video_src <> [] ->
  (let set_cookie := default [] (set_cookie (api_response E token)) in
   search_cookie (py "e=") set_cookie = None
   \/ search_cookie (py "p=") set_cookie = None
   \/ search_cookie (py "HttpOnly, h=") set_cookie = None) ->
  download_episode E cfg url w
  = (inl (Raise Exception (py "無法解析 cookie")), posted url token w).
Proof.
  intros Hans Hne Hmiss. cbv zeta in Hmiss.
  rewrite (download_episode_answered E cfg url token _ w Hans).
  destruct video_src as [|c v]; [congruence|].
  cbn [src truthy negb str_of]. cbv zeta.
  destruct (search_cookie (py "e=") _) as [ce|]; [|reflexivity].
  destruct (search_cookie (py "p=") _) as [cp|]; [|reflexivity].
  destruct (search_cookie (py "HttpOnly, h=") _) as [ch|]; [|reflexivity].
  destruct Hmiss as [H|[H|H]]; discriminate.
Qed.

Lemma download_episode_needs_cookies_witness :
  download_episode (Sample.without_cookies (py "//cdn.example/1.mp4"))
                   Sample.config Sample.episode_url Sample.fresh
  = (inl (Raise Exception (py "無法解析 cookie")),
     posted Sample.episode_url (py "token") Sample.fresh).
Proof.
  apply (download_episode_needs_cookies
           (Sample.without_cookies (py "//cdn.example/1.mp4")) Sample.config
           Sample.episode_url (py "token") (py "//cdn.example/1.mp4")).
  - split; [reflexivity | discriminate |].
    eexists _, _. split; reflexivity.
  - discriminate.
  - left. reflexivity.
Defined.

Section EpisodeOutcomes.
Context (E : Env) (cfg : Config).

Lemma fetch_media_unsupported video_url h title w video_path w1 :
  let video_suffix := Py.lower_ascii (Py.after_last dot video_url) in
  video_suffix <> py "mp4" -> video_suffix <> py "m3u8" ->
  process_video_name E cfg title w = (inr video_path, w1) ->
  exists msg,
    fetch_media E cfg video_url h title w = (inl (Raise ValueError msg), w1).
Proof.
  intros video_suffix Hmp4 Hm3u8 Hname. unfold fetch_media.
  rewrite run_bind, Hname. fold video_suffix.
  destruct (Py.eqb video_suffix (py "mp4")) eqn:H1.
  { apply PyFacts.eqb_eq in H1. contradiction. }
  destruct (Py.eqb video_suffix (py "m3u8")) eqn:H2.
  { apply PyFacts.eqb_eq in H2. contradiction. }
  eexists. reflexivity.
Qed.

End EpisodeOutcomes.

(** X11. A media URL whose extension is neither [mp4] nor [m3u8] is turned
    down with a [ValueError] only after the naming has run: the season
    folder has been made by then, and no media request is ever sent. *)
Theorem unsupported_extension_after_folder (E : Env) (cfg : Config)
  (url token video_src cookies title_text : Py.str)
  (video_path : Path) (w w1 : World) :
  resolves E url token video_src cookies ->
  entry_title (episode_page E url) = Some title_text ->
  Py.lower_ascii (Py.after_last dot (py "https:" ++ video_src)) <> py "mp4" ->
  Py.lower_ascii (Py.after_last dot (py "https:" ++ video_src)) <> py "m3u8" ->
  process_video_name E cfg (Py.strip title_text) (posted url token w)
    = (inr video_path, w1) ->
  (exists msg,
     download_episode E cfg url w = (inl (Raise ValueError msg), w1))
  /\ is_dir_in E (fs w1) (parent video_path) = true
  /\ trace w1
     = trace w ++ [Post url None; Post api_url (Some (py "d=" ++ token))].
Proof.
  intros Hres Htitle Hmp4 Hm3u8 Hname.
  rewrite (download_episode_resolved E cfg url token video_src cookies
             title_text w Hres Htitle).
  split; [now apply fetch_media_unsupported with (video_path := video_path)|].
  destruct (process_video_name_success E cfg _ _ _ _ Hname)
    as (_ & Hdir & _ & _ & _ & Htrace).
  split; [exact Hdir|]. rewrite Htrace. unfold posted, api_payload.
  cbn [trace]. now rewrite <- List.app_assoc.
Qed.

Lemma unsupported_extension_after_folder_witness :
  let E := Sample.online (py "//cdn.example/12345.mp4?token=1") in
  let r := process_video_name E Sample.config (py "某動畫[OP]")
             (posted Sample.episode_url (py "token") Sample.fresh) in
  (exists msg,
     download_episode E Sample.config Sample.episode_url Sample.fresh
     = (inl (Raise ValueError msg), snd r))
  /\ is_dir_in E (fs (snd r))
               (parent (parse (py "downloads/某動畫/某動畫 - OP.mp4"))) = true
  /\ trace (snd r)
     = trace Sample.fresh
         ++ [Post Sample.episode_url None;
             Post api_url (Some (py "d=" ++ py "token"))].
Proof.
  intros E r.
  apply (unsupported_extension_after_folder E Sample.config
           Sample.episode_url (py "token")
           (py "//cdn.example/12345.mp4?token=1")
           (py "e=1700000000;p=eyJpc3MiOiJhbmltZTEubWUifQ;h=abc123;")
           (py " 某動畫[OP] ")
           (parse (py "downloads/某動畫/某動畫 - OP.mp4"))
           Sample.fresh (snd r)).
  - apply sample_online_resolves. discriminate.
  - reflexivity.
  - vm_compute. discriminate.
  - vm_compute. discriminate.
  - apply run_result. vm_compute. reflexivity.
Defined.

(** ** Progressive downloads *)

Section Mp4Facts.
Context (E : Env).

Lemma session_get_run url h w :
  session_get E url h w
  = (inr (http_get E url h), mkWorld (fs w) (trace w ++ [Get url h])).
Proof. reflexivity. Qed.

Lemma path_exists_run p w :
  name_too_long p = false ->
  path_exists E p w = (inr (exists_in E (fs w) p), w).
Proof.
  intros Hname. unfold path_exists, exists_in, refused.
  rewrite run_bind. cbn [get_fs]. rewrite Hname, andb_false_r.
  now destruct (lookup_path E (fs w) p).
Qed.

Lemma unlink_file_run p d w :
  lookup_path E (fs w) p = Some (File d) ->
  unlink E p w = (inr tt, mkWorld (delete (realpath E p) (fs w)) (trace w)).
Proof.
  intros Hp. unfold unlink. rewrite run_bind. cbn [get_fs].
  now rewrite Hp.
Qed.

Lemma rename_file_run a b d w :
  lookup_path E (fs w) a = Some (File d) ->
  lookup_path E (fs w) b <> Some Dir ->
  is_dir_in E (fs w) (parent b) = true ->
  name_too_long b = false ->
  rename E a b w
  = (inr tt,
     mkWorld (<[realpath E b := File d]> (delete (realpath E a) (fs w)))
             (trace w)).
Proof.
  unfold rename, is_dir_in. intros Ha Hb Hparent Hname.
  rewrite run_bind. cbn [get_fs]. rewrite Ha, Hname, andb_false_r.
  destruct (lookup_path E (fs w) (parent b)) as [[]|]; try discriminate.
  destruct (lookup_path E (fs w) b) as [[]|]; [congruence| |]; reflexivity.
Qed.

(** The name of the temporary file is one byte longer than the name of
    the file. *)
Lemma temp_name_longer a front file_name :
  name_too_long (mkPath a (front ++ [py "." ++ file_name])) = false ->
  forall p, name p = file_name -> name_too_long p = false.
Proof.
  unfold name_too_long, name. cbn [parts]. rewrite last_last.
  replace (py ".") with [46%N] by (vm_compute; reflexivity).
  intros H p ->. apply Z.ltb_ge in H. apply Z.ltb_ge.
  unfold Py.encoded_len in *. cbn [app fold_right] in H.
  change (Py.utf8_len 46) with 1 in H. lia.
Qed.

Lemma with_name_named p n :
  parts p <> [] ->
  with_name p n = Some (mkPath (path_anchor p) (removelast (parts p) ++ [n])).
Proof. unfold with_name. now destruct (parts p). Qed.

(** The temporary file is cleared when it is there. *)
Lemma clear_temp_run {B} p (k : M B) w :
  lookup_path E (fs w) p <> Some Dir ->
  name_too_long p = false ->
  (b ← path_exists E p;
   (if b : bool then unlink E p else mret tt);; k) w
  = k (mkWorld (delete (realpath E p) (fs w)) (trace w)).
Proof.
  intros Hp Hname. rewrite run_bind, path_exists_run by exact Hname.
  unfold exists_in.
  destruct (lookup_path E (fs w) p) as [[|d]|] eqn:Hl.
  - congruence.
  - now rewrite run_bind, (unlink_file_run p d w Hl).
  - rewrite run_bind, run_ret. unfold lookup_path in Hl.
    rewrite delete_id by exact Hl. now destruct w.
Qed.

Lemma download_mp4_run download_url video_path h w n v :
  let response := http_get E download_url h in
  let temp_video_path :=
    mkPath (path_anchor video_path)
           (removelast (parts video_path) ++ [py "." ++ name video_path]) in
  status_code response = 200 ->
  content_length response = Some v -> Py.int v = Some n -> n <> 0 ->
  parts video_path <> [] ->
  is_dir_in E (fs w) (parent video_path) = true ->
  lookup_path E (fs w) video_path <> Some Dir ->
  lookup_path E (fs w) temp_video_path <> Some Dir ->
  name_too_long temp_video_path = false ->
  download_mp4 E download_url video_path h w
  = (inr tt,
     mkWorld (<[realpath E video_path := File (Blob (content response))]>
                (delete (realpath E temp_video_path) (fs w)))
             (trace w ++ [Get download_url h;
                          Write temp_video_path (Blob (content response))])).
Proof.
  intros response temp Hstatus Hlen Hint Hn Hparts Hparent Hvp Htemp Hfits.
  assert (Hfits' : name_too_long video_path = false)
    by exact (temp_name_longer _ _ _ Hfits video_path eq_refl).
  assert (Hptemp : parent temp = parent video_path).
  { unfold parent, temp. cbn [path_anchor parts].
    now rewrite removelast_last. }
  unfold download_mp4. rewrite run_bind, session_get_run.
  fold response. rewrite Hstatus. cbn [Z.eqb Pos.eqb negb].
  rewrite Hlen. unfold py_int. rewrite Hint, run_bind, run_ret.
  destruct (n =? 0) eqn:Hz; [apply Z.eqb_eq in Hz; contradiction|].
  rewrite (with_name_named video_path _ Hparts). fold temp.
  set (w0 := mkWorld (fs w) (trace w ++ [Get download_url h])).
  rewrite clear_temp_run by assumption.
  set (w1 := mkWorld (delete (realpath E temp) (fs w0)) (trace w0)).
  assert (Hneq : realpath E (parent video_path) <> realpath E temp).
  { intros Heq. unfold is_dir_in, lookup_path in Hparent, Htemp.
    rewrite Heq in Hparent.
    destruct (fs w !! realpath E temp) as [[]|]; congruence. }
  assert (Hdir1 : is_dir_in E (fs w1) (parent temp) = true).
  { rewrite Hptemp. unfold is_dir_in, lookup_path, w1, w0. cbn [fs].
    rewrite lookup_delete_ne by (intros Heq; now apply Hneq).
    exact Hparent. }
  rewrite run_bind, write_file_run; [|exact Hdir1| |exact Hfits].
  2:{ unfold lookup_path, w1. cbn [fs]. now rewrite lookup_delete_eq. }
  set (w2 := mkWorld _ _).
  rewrite rename_file_run with (d := Blob (content response));
    [| | | |exact Hfits'].
  - f_equal. unfold w2, w1, w0. cbn [fs trace]. f_equal.
    + rewrite delete_insert_eq, delete_delete_eq. reflexivity.
    + now rewrite <- List.app_assoc.
  - unfold lookup_path, w2. cbn [fs]. now rewrite lookup_insert_eq.
  - unfold lookup_path, w2, w1, w0. cbn [fs].
    destruct (decide (realpath E temp = realpath E video_path)) as [Heq|Hne].
    + rewrite <- Heq, lookup_insert_eq. discriminate.
    + rewrite lookup_insert_ne by exact Hne.
      rewrite lookup_delete_ne by exact Hne. exact Hvp.
  - unfold is_dir_in, lookup_path, w2, w1, w0. cbn [fs].
    rewrite lookup_insert_ne by (intros Heq; now apply Hneq).
    rewrite lookup_delete_ne by (intros Heq; now apply Hneq).
    exact Hparent.
Qed.

End Mp4Facts.

(** X12. A media answer whose status is not 200 ends the progressive
    download with a [ConnectionError] that carries the status: the single
    GET has been sent and the file system is untouched. *)
Theorem download_mp4_bad_status (E : Env) (download_url : Py.str)
  (video_path : Path) (h : headers) (w : World) :
  status_code (http_get E download_url h) <> 200 ->
  download_mp4 E download_url video_path h w
  = (inl (Raise ConnectionError
            (py "下載失敗，狀態碼："
               ++ Py.of_int (status_code (http_get E download_url h)))),
     mkWorld (fs w) (trace w ++ [Get download_url h])).
Proof.
  intros Hstatus. unfold download_mp4.
  rewrite run_bind, session_get_run.
  apply Z.eqb_neq in Hstatus. rewrite Hstatus. reflexivity.
Qed.

Lemma download_mp4_bad_status_witness :
  download_mp4 Sample.offline (py "https://cdn.example/1.mp4")
               (parse (py "downloads/a.mp4")) [] Sample.fresh
  = (inl (Raise ConnectionError
            (py "下載失敗，狀態碼："
               ++ Py.of_int
                    (status_code
                       (http_get Sample.offline
                                 (py "https://cdn.example/1.mp4") [])))),
     mkWorld (fs Sample.fresh)
             (trace Sample.fresh ++ [Get (py "https://cdn.example/1.mp4") []])).
Proof.
  apply download_mp4_bad_status. vm_compute. discriminate.
Defined.

(** X13. A 200 answer with no [Content-Length], or with one that reads as
    zero, is turned down with a [ValueError] before any file is touched,
    whatever the body holds. *)
Theorem download_mp4_needs_length (E : Env) (download_url : Py.str)
  (video_path : Path) (h : headers) (w : World) :
  let response := http_get E download_url h in
  status_code response = 200 ->
  (content_length response = None
   \/ exists v, content_length response = Some v /\ Py.int v = Some 0) ->
  download_mp4 E download_url video_path h w
  = (inl (Raise ValueError (py "Content-Length 為零，無法下載檔案。")),
     mkWorld (fs w) (trace w ++ [Get download_url h])).
Proof.
  intros response Hstatus Hlen. unfold download_mp4.
  rewrite run_bind, session_get_run. fold response. rewrite Hstatus.
  cbn [Z.eqb Pos.eqb negb].
  destruct Hlen as [Hlen|(v & Hlen & Hint)]; rewrite Hlen.
  - reflexivity.
  - unfold py_int. rewrite Hint. reflexivity.
Qed.

Lemma download_mp4_needs_length_witness :
  download_mp4 Sample.scenario_C (py "https://cdn.example/7/720p_000.ts")
               (parse (py "downloads/a.mp4")) [] Sample.fresh
  = (inl (Raise ValueError (py "Content-Length 為零，無法下載檔案。")),
     mkWorld (fs Sample.fresh)
             (trace Sample.fresh
                ++ [Get (py "https://cdn.example/7/720p_000.ts") []])).
Proof.
  apply download_mp4_needs_length; [reflexivity | left; reflexivity].
Defined.

(** X14. With a 200 answer and a [Content-Length] that reads as a non-zero
    integer, into an existing folder, when neither the destination nor the
    dot-prefixed temporary path is a directory and the temporary name,
    which is one byte longer than the name of the destination, is not too
    long for the file system, the progressive download succeeds: the
    destination then holds the body as received, whose size need not be
    the declared length; the temporary file is gone; one GET was sent and
    one file written. *)
Theorem download_mp4_stores_body (E : Env) (download_url : Py.str)
  (video_path : Path) (h : headers) (w : World) (v : Py.str) (n : Z) :
  let response := http_get E download_url h in
  let temp_video_path :=
    mkPath (path_anchor video_path)
           (removelast (parts video_path) ++ [py "." ++ name video_path]) in
  status_code response = 200 ->
  content_length response = Some v -> Py.int v = Some n -> n <> 0 ->
  parts video_path <> [] ->
  is_dir_in E (fs w) (parent video_path) = true ->
  lookup_path E (fs w) video_path <> Some Dir ->
  lookup_path E (fs w) temp_video_path <> Some Dir ->
  name_too_long temp_video_path = false ->
  let r := download_mp4 E download_url video_path h w in
  fst r = inr tt
  /\ lookup_path E (fs (snd r)) video_path
     = Some (File (Blob (content response)))
  /\ (realpath E temp_video_path <> realpath E video_path ->
      lookup_path E (fs (snd r)) temp_video_path = None)
  /\ (forall k,
        k <> realpath E video_path -> k <> realpath E temp_video_path ->
        fs (snd r) !! k = fs w !! k)
  /\ trace (snd r)
     = trace w ++ [Get download_url h;
                   Write temp_video_path (Blob (content response))].
Proof.
  intros response temp Hstatus Hlen Hint Hn Hparts Hparent Hvp Htemp Hfits
         r.
  unfold r.
  rewrite (download_mp4_run E download_url video_path h w n v
             Hstatus Hlen Hint Hn Hparts Hparent Hvp Htemp Hfits).
  cbn [fst snd fs trace]. fold response temp. unfold lookup_path.
  split; [reflexivity|].
  split; [now rewrite lookup_insert_eq|].
  split.
  { intros Hne. rewrite lookup_insert_ne by (intros Heq; now apply Hne).
    now rewrite lookup_delete_eq. }
  split; [|reflexivity].
  intros k Hk1 Hk2.
  rewrite lookup_insert_ne by (intros Heq; now apply Hk1).
  now rewrite lookup_delete_ne by (intros Heq; now apply Hk2).
Qed.

Lemma download_mp4_stores_body_witness :
  let E := Sample.online (py "//cdn.example/12345.mp4") in
  let video_path := parse (py "downloads/某動畫/某動畫 - 01.mp4") in
  let temp_video_path := parse (py "downloads/某動畫/.某動畫 - 01.mp4") in
  let r := download_mp4 E (py "https://cdn.example/12345.mp4") video_path []
                        Sample.library in
  fst r = inr tt
  /\ lookup_path E (fs (snd r)) video_path = Some (File (Blob 2000000))
  /\ (realpath E temp_video_path <> realpath E video_path ->
      lookup_path E (fs (snd r)) temp_video_path = None)
  /\ (forall k,
        k <> realpath E video_path -> k <> realpath E temp_video_path ->
        fs (snd r) !! k = fs Sample.library !! k)
  /\ trace (snd r)
     = trace Sample.library
         ++ [Get (py "https://cdn.example/12345.mp4") [];
             Write temp_video_path (Blob 2000000)].
Proof.
  intros E video_path temp_video_path.
  apply (download_mp4_stores_body E (py "https://cdn.example/12345.mp4")
           video_path [] Sample.library (py "2000000") 2000000).
  - reflexivity.
  - reflexivity.
  - vm_compute. reflexivity.
  - discriminate.
  - vm_compute. discriminate.
  - vm_compute. reflexivity.
  - vm_compute. discriminate.
  - vm_compute. discriminate.
  - vm_compute. reflexivity.
Defined.

(** A destination whose name has 255 bytes can be made, but the name of
    its temporary file has 256. *)
Example temp_name_too_long :
  let file_name := repeat 97%N 251 ++ py ".mp4" in
  name_too_long (parse (py "downloads") // file_name) = false
  /\ name_too_long (parse (py "downloads") // (py "." ++ file_name)) = true.
Proof. vm_compute. split; reflexivity. Qed.

(** X25. A destination whose name is as long as the file system allows
    cannot be downloaded: the temporary file has a name one byte longer,
    so that, once the answer has status 200 and a non-zero
    [Content-Length], the check for a stale temporary file raises
    [OSError]; the request has been sent by then, and no file is
    touched. *)
Theorem download_mp4_long_name_fails (E : Env) (download_url : Py.str)
  (video_path : Path) (h : headers) (w : World) (v : Py.str) (n : Z) :
  let response := http_get E download_url h in
  let temp_video_path :=
    mkPath (path_anchor video_path)
           (removelast (parts video_path) ++ [py "." ++ name video_path]) in
  status_code response = 200 ->
  content_length response = Some v -> Py.int v = Some n -> n <> 0 ->
  parts video_path <> [] ->
  is_dir_in E (fs w) (parent video_path) = true ->
  lookup_path E (fs w) temp_video_path = None ->
  name_too_long temp_video_path = true ->
  let r := download_mp4 E download_url video_path h w in
  (exists msg, fst r = inl (Raise OSError msg))
  /\ snd r = mkWorld (fs w) (trace w ++ [Get download_url h]).
Proof.
  intros response temp Hstatus Hlen Hint Hn Hparts Hparent Htemp Hlong r.
  assert (Hptemp : parent temp = parent video_path).
  { unfold parent, temp. cbn [path_anchor parts].
    now rewrite removelast_last. }
  subst temp r.
  unfold download_mp4. rewrite run_bind, session_get_run.
  fold response. rewrite Hstatus. cbn [Z.eqb Pos.eqb negb].
  rewrite Hlen. unfold py_int. rewrite Hint, run_bind, run_ret.
  destruct (n =? 0) eqn:Hz; [apply Z.eqb_eq in Hz; contradiction|].
  rewrite (with_name_named video_path _ Hparts).
  rewrite run_bind. unfold path_exists, refused.
  rewrite run_bind. cbn [get_fs fs]. unfold Py.str in *.
  rewrite Htemp, Hptemp, Hparent, Hlong. cbn [andb fst snd].
  split; [eexists; reflexivity | reflexivity].
Qed.

Lemma download_mp4_long_name_fails_witness :
  let E := Sample.online (py "//cdn.example/12345.mp4") in
  let video_path :=
    parse (py "downloads/某動畫") // (repeat 21205%N 83 ++ py "ab.mp4") in
  let r := download_mp4 E (py "https://cdn.example/12345.mp4") video_path []
                        Sample.library in
  (exists msg, fst r = inl (Raise OSError msg))
  /\ snd r = mkWorld (fs Sample.library)
                     (trace Sample.library
                        ++ [Get (py "https://cdn.example/12345.mp4") []]).
Proof.
  intros E video_path.
  apply (download_mp4_long_name_fails E (py "https://cdn.example/12345.mp4")
           video_path [] Sample.library (py "2000000") 2000000).
  - reflexivity.
  - reflexivity.
  - vm_compute. reflexivity.
  - discriminate.
  - vm_compute. discriminate.
  - vm_compute. reflexivity.
  - vm_compute. reflexivity.
  - vm_compute. reflexivity.
Defined.

Section EpisodeSuccess.
Context (E : Env) (cfg : Config).

Lemma validate_download_large video_path size w :
  lookup_path E (fs w) video_path = Some (File (Blob size)) ->
  1024 * 1024 <= size ->
  validate_download E video_path w = (inr tt, w).
Proof.
  intros Hp Hsize. unfold validate_download, stat_st_size.
  rewrite !run_bind. cbn [get_fs]. rewrite Hp, run_ret. cbn [st_size].
  destruct (size <? 1024 * 1024) eqn:Hlt; [|reflexivity].
  apply Z.ltb_lt in Hlt. lia.
Qed.

End EpisodeSuccess.

(** X15. An episode end to end, progressive case: when the page and the
    API resolve, the title names a destination that is free, the source
    ends in [mp4], the media host answers 200 with a non-zero
    [Content-Length] and a body of at least one mebibyte, and the
    dot-prefixed temporary path is not a directory and its name is not
    too long for the file system, the episode succeeds; the destination
    holds the body, and the trace is the two POSTs, one GET with the
    assembled headers, and one write to the temporary file. *)
Theorem episode_mp4_downloaded (E : Env) (cfg : Config)
  (url token video_src cookies title_text v : Py.str) (n : Z)
  (video_path : Path) (w w1 : World) :
  let video_url := py "https:" ++ video_src in
  let response := http_get E video_url (download_headers cfg cookies) in
  let temp_video_path :=
    mkPath (path_anchor video_path)
           (removelast (parts video_path) ++ [py "." ++ name video_path]) in
  resolves E url token video_src cookies ->
  entry_title (episode_page E url) = Some title_text ->
  Py.lower_ascii (Py.after_last dot video_url) = py "mp4" ->
  process_video_name E cfg (Py.strip title_text) (posted url token w)
    = (inr video_path, w1) ->
  status_code response = 200 ->
  content_length response = Some v -> Py.int v = Some n -> n <> 0 ->
  1024 * 1024 <= content response ->
  lookup_path E (fs w1) temp_video_path <> Some Dir ->
  name_too_long temp_video_path = false ->
  let r := download_episode E cfg url w in
  fst r = inr tt
  /\ lookup_path E (fs (snd r)) video_path
     = Some (File (Blob (content response)))
  /\ trace (snd r)
     = trace w ++ [Post url None;
                   Post api_url (Some (py "d=" ++ token));
                   Get video_url (download_headers cfg cookies);
                   Write temp_video_path (Blob (content response))].
Proof.
  intros video_url response temp Hres Htitle Hsuffix Hname Hstatus Hlen Hint
         Hn Hsize Htemp Hfits r.
  unfold r.
  rewrite (download_episode_resolved E cfg url token video_src cookies
             title_text w Hres Htitle).
  fold video_url. unfold fetch_media.
  rewrite run_bind, Hname. rewrite Hsuffix.
  replace (Py.eqb (py "mp4") (py "mp4")) with true
    by (vm_compute; reflexivity).
  destruct (process_video_name_success E cfg _ _ _ _ Hname)
    as (Hparts & Hdir & Hfree & _ & _ & Htrace).
  assert (Hvp : lookup_path E (fs w1) video_path <> Some Dir).
  { unfold exists_in in Hfree.
    destruct (lookup_path E (fs w1) video_path); [discriminate|congruence]. }
  rewrite run_bind,
    (download_mp4_run E video_url video_path (download_headers cfg cookies)
       w1 n v Hstatus Hlen Hint Hn Hparts Hdir Hvp Htemp Hfits).
  fold response temp.
  rewrite (validate_download_large E video_path (content response)).
  - cbn [fst snd fs trace]. split; [reflexivity|].
    split; [unfold lookup_path; now rewrite lookup_insert_eq|].
    rewrite Htrace. unfold posted, api_payload. cbn [trace].
    now rewrite <- !List.app_assoc.
  - unfold lookup_path. cbn [fs]. now rewrite lookup_insert_eq.
  - exact Hsize.
Qed.

Lemma episode_mp4_downloaded_witness :
  let E := Sample.online (py "//cdn.example/12345.MP4") in
  let h := download_headers Sample.config
             (py "e=1700000000;p=eyJpc3MiOiJhbmltZTEubWUifQ;h=abc123;") in
  let r := download_episode E Sample.config Sample.episode_url
                            Sample.fresh in
  fst r = inr tt
  /\ lookup_path E (fs (snd r)) (parse (py "downloads/某動畫/某動畫 - OP.mp4"))
     = Some (File (Blob 2000000))
  /\ trace (snd r)
     = trace Sample.fresh
         ++ [Post Sample.episode_url None;
             Post api_url (Some (py "d=" ++ py "token"));
             Get (py "https:" ++ py "//cdn.example/12345.MP4") h;
             Write (parse (py "downloads/某動畫/.某動畫 - OP.mp4"))
                   (Blob 2000000)].
Proof.
  intros E h.
  apply (episode_mp4_downloaded E Sample.config Sample.episode_url
           (py "token") (py "//cdn.example/12345.MP4")
           (py "e=1700000000;p=eyJpc3MiOiJhbmltZTEubWUifQ;h=abc123;")
           (py " 某動畫[OP] ") (py "2000000") 2000000
           (parse (py "downloads/某動畫/某動畫 - OP.mp4")) Sample.fresh
           (snd (process_video_name E Sample.config (py "某動畫[OP]")
                   (posted Sample.episode_url (py "token") Sample.fresh)))).
  - apply sample_online_resolves. discriminate.
  - reflexivity.
  - vm_compute. reflexivity.
  - apply run_result. vm_compute. reflexivity.
  - reflexivity.
  - reflexivity.
  - vm_compute. reflexivity.
  - discriminate.
  - vm_compute. discriminate.
  - vm_compute. discriminate.
  - vm_compute. reflexivity.
Defined.

(** ** Segment URLs and the pool *)

Lemma replace_absent old new s :
  old <> [] -> Py.contains old s = false -> Py.replace old new s = s.
Proof.
  intros Hold Hc. rewrite (PyFacts.replace_find old new s Hold).
  rewrite PyFacts.find_contains in Hc.
  now destruct (Py.find old s).
Qed.

Lemma dict_set_values (P : Py.str -> Prop) d k v :
  Forall (fun kv => P (snd kv)) d -> P v ->
  Forall (fun kv => P (snd kv)) (dict_set d k v).
Proof.
  intros Hd Hv. induction Hd as [|[k' v'] d Hkv Hd IH]; cbn [dict_set].
  - apply Forall_cons_2; [exact Hv | apply Forall_nil_2].
  - destruct (Py.eqb k k').
    + apply Forall_cons_2; [exact Hv | exact Hd].
    + apply Forall_cons_2; [exact Hkv | exact IH].
Qed.

Lemma dict_of_items_values (P : Py.str -> Prop) items :
  Forall (fun kv => P (snd kv)) items ->
  Forall (fun kv => P (snd kv)) (dict_of_items items).
Proof.
  unfold dict_of_items.
  assert (H : forall d,
             Forall (fun kv => P (snd kv)) d ->
             Forall (fun kv => P (snd kv)) items ->
             Forall (fun kv => P (snd kv))
                    (fold_left (fun d kv => dict_set d (fst kv) (snd kv))
                               items d)).
  { induction items as [|[k v] items IH]; intros d Hd Hitems;
      cbn [fold_left]; [exact Hd|].
    apply Forall_cons_1 in Hitems as [Hv Hitems].
    apply IH; [|exact Hitems]. now apply dict_set_values. }
  intros Hitems. apply H; [apply Forall_nil_2 | exact Hitems].
Qed.

(** Once the word [playlist] has been replaced by the tier, the second
    replacement finds nothing to replace. *)
Lemma ts_links_values_absent (E : Env) new_url response :
  Py.contains (py "playlist.m3u8") new_url = false ->
  Forall (fun kv => snd kv = new_url) (ts_links_of E new_url response).
Proof.
  intros Habsent. unfold ts_links_of.
  apply (dict_of_items_values (fun u => u = new_url)).
  apply List.Forall_forall. intros [k u] Hin.
  apply in_map_iff in Hin as (ts_file & Heq & _).
  apply (f_equal snd) in Heq. cbn [snd] in *. rewrite <- Heq.
  apply replace_absent; [discriminate | exact Habsent].
Qed.

(** X16. When replacing [playlist] by a tier leaves no [playlist.m3u8] in
    the URL, as it does for a URL that ends in [/playlist.m3u8], every
    segment of the manifest gets the same URL: the URL of the tier playlist
    that was just fetched, not a URL of its own. *)
Theorem segment_urls_repeat_playlist (E : Env) (url : Py.str) (h : headers)
  (w w' : World) (ts_links : list (Py.str * Py.str)) :
  (forall quality,
     In quality qualities ->
     Py.contains (py "playlist.m3u8")
                 (Py.replace (py "playlist") quality url) = false) ->
  parse_m3u8_from_url E url h w = (inr ts_links, w') ->
  exists new_url earlier,
    trace w' = earlier ++ [Get new_url h]
    /\ Forall (fun kv => snd kv = new_url) ts_links.
Proof.
  intros Habsent. unfold parse_m3u8_from_url.
  assert (Hloop : forall qs response w0,
             (forall quality, In quality qs -> In quality qualities) ->
             parse_m3u8_loop E url h qs response w0 = (inr ts_links, w') ->
             exists new_url earlier,
               trace w' = earlier ++ [Get new_url h]
               /\ Forall (fun kv => snd kv = new_url) ts_links).
  { induction qs as [|quality qs IH]; intros response w0 Hqs;
      cbn [parse_m3u8_loop].
    - destruct response; discriminate.
    - rewrite run_bind, session_get_run.
      destruct (status_code _ =? 200).
      + rewrite run_ret. intros [= <- <-]. cbn [trace].
        eexists _, _. split; [reflexivity|].
        apply ts_links_values_absent, Habsent, Hqs. now left.
      + apply IH. intros q Hq. apply Hqs. now right. }
  apply Hloop. auto.
Qed.

Lemma segment_urls_repeat_playlist_witness :
  let r := parse_m3u8_from_url Sample.scenario_C Sample.playlist_url []
                               Sample.fresh in
  exists new_url earlier,
    trace (snd r) = earlier ++ [Get new_url []]
    /\ Forall (fun kv => snd kv = new_url)
              [(py "720p_000.ts", py "https://cdn.example/7/720p.m3u8");
               (py "720p_001.ts", py "https://cdn.example/7/720p.m3u8");
               (py "720p_002.ts", py "https://cdn.example/7/720p.m3u8")].
Proof.
  intros r.
  apply (segment_urls_repeat_playlist Sample.scenario_C Sample.playlist_url
           [] Sample.fresh (snd r)).
  - intros quality [<-|[<-|[]]]; vm_compute; reflexivity.
  - apply run_result. vm_compute. reflexivity.
Defined.

Lemma write_file_trace (E : Env) p d w :
  trace (snd (write_file E p d w)) = trace w
  \/ trace (snd (write_file E p d w)) = trace w ++ [Write p d].
Proof.
  unfold write_file. rewrite run_bind. cbn [get_fs].
  destruct (lookup_path E (fs w) p) as [[|d0]|];
    [now left | |];
    (destruct (lookup_path E (fs w) (parent p)) as [[|d1]|];
     [|now left | now left]);
    match goal with
    | |- context [if ?b then _ else _] => destruct b
    end; [now left | right; reflexivity | now left | right; reflexivity].
Qed.

Lemma download_single_ts_trace (E : Env) h ts_url ts_path w :
  exists l,
    trace (snd (download_single_ts E h ts_url ts_path w)) = trace w ++ l
    /\ (l = [Get ts_url h]
        \/ l = [Get ts_url h;
                Write ts_path (Blob (content (http_get E ts_url h)))]).
Proof.
  unfold download_single_ts. rewrite run_bind, session_get_run.
  destruct (write_file_trace E ts_path
              (Blob (content (http_get E ts_url h)))
              (mkWorld (fs w) (trace w ++ [Get ts_url h]))) as [H|H];
    rewrite H; cbn [trace].
  - exists [Get ts_url h]. split; [reflexivity | now left].
  - eexists. split; [now rewrite <- List.app_assoc | now right].
Qed.

(** X17. The pool never raises, whatever happens to its workers: a segment
    whose file cannot be written is lost without a trace in the result.
    All it does is GET URLs of the manifest, with the given headers, and
    write at paths obtained by joining a key of the manifest to the
    segment folder.  Nothing keeps such a path inside the folder. *)
Theorem run_pool_never_raises (E : Env) (h : headers) (ts_folder : Path)
  (ts_links : list (Py.str * Py.str)) (order : list nat) (w : World) :
  let r := run_pool E h ts_folder ts_links order w in
  fst r = inr tt
  /\ exists l,
       trace (snd r) = trace w ++ l
       /\ Forall (pool_event h ts_folder ts_links) l.
Proof.
  revert w. induction order as [|i order IH]; intros w; cbn [run_pool].
  - cbv zeta. rewrite run_ret. cbn [fst snd]. split; [reflexivity|].
    exists []. split; [now rewrite app_nil_r | apply Forall_nil_2].
  - cbv zeta. rewrite run_bind.
    assert (Hstep : exists w1 l1,
               match nth_error ts_links i with
               | Some (ts_name, ts_url) =>
                 swallow (download_single_ts E h ts_url
                                             (ts_folder // ts_name))
               | None => mret tt
               end w = (inr tt, w1)
               /\ trace w1 = trace w ++ l1
               /\ Forall (pool_event h ts_folder ts_links) l1).
    { destruct (nth_error ts_links i) as [[ts_name ts_url]|] eqn:Hnth.
      - apply nth_error_In in Hnth.
        assert (Hk : In ts_name (map fst ts_links))
          by (apply in_map_iff; now exists (ts_name, ts_url)).
        assert (Hu : In ts_url (map snd ts_links))
          by (apply in_map_iff; now exists (ts_name, ts_url)).
        assert (Hget : pool_event h ts_folder ts_links (Get ts_url h))
          by (split; [reflexivity | exact Hu]).
        destruct (download_single_ts_trace E h ts_url
                    (ts_folder // ts_name) w) as (l1 & Ht & Hl).
        unfold swallow. eexists _, l1. split; [reflexivity|].
        split; [exact Ht|].
        destruct Hl as [-> | ->].
        + apply Forall_cons_2; [exact Hget | apply Forall_nil_2].
        + apply Forall_cons_2; [exact Hget|].
          apply Forall_cons_2; [|apply Forall_nil_2].
          exists ts_name. split; [exact Hk | reflexivity].
      - rewrite run_ret. exists w, []. split; [reflexivity|].
        split; [now rewrite app_nil_r | apply Forall_nil_2]. }
    destruct Hstep as (w1 & l1 & -> & Ht1 & Hl1).
    destruct (IH w1) as (Hfst & l2 & Ht2 & Hl2).
    split; [exact Hfst|].
    exists (l1 ++ l2). split.
    + rewrite Ht2, Ht1. now rewrite <- List.app_assoc.
    + apply Forall_app. now split.
Qed.

(** A segment whose URI is an absolute path is written at that path, not
    in the segment folder. *)
Example segment_written_outside_folder :
  let ts_folder := parse (py ".ts") in
  let ts_links := [(py "/home/user/evil.mp4", py "https://cdn.example/x")] in
  let r := run_pool Sample.scenario_C [] ts_folder ts_links [0%nat]
                    Sample.fresh in
  under (realpath Sample.scenario_C ts_folder)
        (realpath Sample.scenario_C (parse (py "/home/user/evil.mp4")))
  = false
  /\ lookup_path Sample.scenario_C (fs (snd r))
                 (parse (py "/home/user/evil.mp4"))
     = Some (File (Blob 0)).
Proof. vm_compute. split; reflexivity. Qed.

(** ** Collecting the URLs *)

Lemma split_char_nonempty sep s : split_char sep s <> [].
Proof.
  destruct s as [|c s]; cbn [split_char]; [discriminate|].
  destruct (c =? sep)%N; [discriminate|].
  destruct (split_char sep s); discriminate.
Qed.

Lemma split_char_pieces sep s :
  Forall (fun piece => ~ In sep piece) (split_char sep s).
Proof.
  induction s as [|c s IH]; cbn [split_char].
  - apply Forall_cons_2; [intros [] | apply Forall_nil_2].
  - destruct (N.eqb_spec c sep) as [->|Hne].
    + apply Forall_cons_2; [intros [] | exact IH].
    + destruct (split_char sep s) as [|piece pieces].
      * apply Forall_cons_2; [|apply Forall_nil_2].
        intros [H|[]]. congruence.
      * apply Forall_cons_1 in IH as [Hpiece Hpieces].
        apply Forall_cons_2; [|exact Hpieces].
        intros [H|H]; [congruence | contradiction].
Qed.

Lemma split_char_app sep u rest :
  ~ In sep u ->
  split_char sep (u ++ sep :: rest) = u :: split_char sep rest.
Proof.
  induction u as [|c u IH]; intros Hu; cbn [split_char app].
  - now rewrite N.eqb_refl.
  - destruct (N.eqb_spec c sep) as [->|Hne]; [exfalso; apply Hu; now left|].
    rewrite IH by (intros H; apply Hu; now right). reflexivity.
Qed.

Lemma split_char_single sep u : ~ In sep u -> split_char sep u = [u].
Proof.
  induction u as [|c u IH]; intros Hu; cbn [split_char]; [reflexivity|].
  destruct (N.eqb_spec c sep) as [->|Hne]; [exfalso; apply Hu; now left|].
  rewrite IH by (intros H; apply Hu; now right). reflexivity.
Qed.

Lemma not_In_Forall (c : N) s : ~ In c s <-> Forall (fun x => x <> c) s.
Proof.
  rewrite List.Forall_forall. split.
  - intros H x Hx ->. contradiction.
  - intros H Hc. exact (H c Hc eq_refl).
Qed.

Lemma strip_blank_left u : Py.strip (32%N :: u) = Py.strip u.
Proof. reflexivity. Qed.

(** X18. Every URL taken from the prompt is non-empty, has no white space
    at either end and holds no comma. *)
Theorem get_user_input_urls_clean (user_input : Py.str) :
  Forall (fun url => url <> [] /\ Py.strip url = url /\ ~ In comma url)
         (get_user_input_urls user_input).
Proof.
  unfold get_user_input_urls. apply List.Forall_forall. intros url Hin.
  apply filter_In in Hin as [Hin Hne].
  apply in_map_iff in Hin as (piece & <- & Hpiece).
  split; [|split].
  - intros Heq. rewrite Heq in Hne. discriminate.
  - apply StrFacts.strip_idempotent.
  - pose proof (split_char_pieces comma user_input) as Hall.
    rewrite List.Forall_forall in Hall. specialize (Hall piece Hpiece).
    apply not_In_Forall, StrFacts.Forall_strip, not_In_Forall, Hall.
Qed.

(** X19. URLs typed with a comma and a blank between them come back as
    they were typed, in the same order, provided each is non-empty, has no
    white space at either end and holds no comma. *)
Theorem get_user_input_urls_round_trip (urls : list Py.str) :
  Forall (fun url => url <> [] /\ Py.strip url = url /\ ~ In comma url)
         urls ->
  get_user_input_urls
    (match urls with
     | [] => []
     | url :: rest => url ++ flat_map (fun u => py ", " ++ u) rest
     end)
  = urls.
Proof.
  intros Hurls. unfold get_user_input_urls.
  assert (Hsplit : forall url rest,
             ~ In comma url ->
             Forall (fun u => u <> [] /\ Py.strip u = u /\ ~ In comma u)
                    rest ->
             split_char comma
                        (url ++ flat_map (fun u => py ", " ++ u) rest)
             = url :: map (cons 32%N) rest).
  { intros url rest. revert url.
    induction rest as [|v rest IH]; intros url Hurl Hrest;
      cbn [flat_map map].
    - rewrite app_nil_r. now apply split_char_single.
    - apply Forall_cons_1 in Hrest as [(_ & _ & Hv) Hrest].
      change (py ", " ++ v) with (comma :: (32%N :: v)).
      change ((comma :: 32%N :: v) ++ flat_map (fun u => py ", " ++ u) rest)
        with (comma :: ((32%N :: v)
                          ++ flat_map (fun u => py ", " ++ u) rest)).
      rewrite split_char_app by exact Hurl.
      rewrite IH; [reflexivity | | exact Hrest].
      intros [H|H]; [discriminate H | contradiction]. }
  assert (Hkeep : forall pieces,
             Forall (fun u => u <> [] /\ Py.strip u = u /\ ~ In comma u)
                    pieces ->
             List.filter (fun url => negb (Py.eqb url []))
                         (map Py.strip (map (cons 32%N) pieces))
             = pieces).
  { induction 1 as [|u pieces (Hne & Hstrip & _) _ IH];
      cbn [map List.filter]; [reflexivity|].
    rewrite strip_blank_left, Hstrip.
    destruct (Py.eqb u []) eqn:Hu; [apply PyFacts.eqb_eq in Hu; contradiction|].
    cbn [negb]. now rewrite IH. }
  destruct urls as [|url rest]; [reflexivity|].
  apply Forall_cons_1 in Hurls as [(Hne & Hstrip & Hurl) Hrest].
  rewrite Hsplit by assumption. cbn [map List.filter].
  rewrite Hstrip.
  destruct (Py.eqb url []) eqn:Hu; [apply PyFacts.eqb_eq in Hu; contradiction|].
  cbn [negb]. now rewrite Hkeep.
Qed.

Lemma get_user_input_urls_round_trip_witness :
  get_user_input_urls
    (py "https://anime1.me/12345"
        ++ flat_map (fun u => py ", " ++ u)
                    [py "https://anime1.me/category/2024/frieren"])
  = [py "https://anime1.me/12345";
     py "https://anime1.me/category/2024/frieren"].
Proof.
  apply (get_user_input_urls_round_trip
           [py "https://anime1.me/12345";
            py "https://anime1.me/category/2024/frieren"]).
  repeat (apply Forall_cons_2;
          [split; [discriminate|];
           split; [vm_compute; reflexivity|];
           vm_compute; intuition discriminate|]).
  apply Forall_nil_2.
Defined.

Lemma file_lines_line u eol rest pending :
  ~ In newline u -> ~ In carriage_return u -> line_ending eol ->
  match rest with c :: _ => c <> newline | [] => True end ->
  file_lines pending (u ++ eol ++ rest)
  = (u ++ [newline]) :: file_lines false rest.
Proof.
  intros Hnl Hcr Heol Hrest. revert pending.
  induction u as [|c u IH]; intros pending.
  - cbn [app]. destruct Heol as [-> | [-> | ->]]; cbn [app file_lines].
    + now rewrite N.eqb_refl.
    + cbn. reflexivity.
    + cbn. destruct rest as [|c' rest']; [reflexivity|].
      destruct (N.eqb_spec c' newline) as [->|_]; [contradiction|].
      reflexivity.
  - cbn [app file_lines].
    destruct (N.eqb_spec c newline) as [->|_]; [exfalso; apply Hnl; now left|].
    destruct (N.eqb_spec c carriage_return) as [->|_];
      [exfalso; apply Hcr; now left|].
    rewrite IH; [reflexivity | |]; intros H; [apply Hnl | apply Hcr];
      now right.
Qed.

Lemma strip_line u :
  Py.startswith (py "http") u = true -> Py.strip u = u ->
  Py.strip (u ++ [newline]) = u.
Proof.
  intros Hhttp Hstrip.
  destruct u as [|c u]; [discriminate|].
  cbn [Py.startswith] in Hhttp. change (py "http") with [104; 116; 116; 112]%N in Hhttp.
  apply andb_prop in Hhttp as [Hc _]. apply N.eqb_eq in Hc. subst c.
  assert (Hl : Py.lstrip (104%N :: u) = 104%N :: u) by reflexivity.
  unfold Py.strip in *. rewrite Hl in Hstrip.
  change (Py.lstrip ((104%N :: u) ++ [newline]))
    with ((104%N :: u) ++ [newline]).
  unfold Py.rstrip in *. rewrite rev_app_distr. cbn [rev app].
  change (Py.lstrip (newline :: (rev u ++ [104%N])))
    with (Py.lstrip (rev u ++ [104%N])).
  exact Hstrip.
Qed.

(** X20. A file that holds one URL a line, each line ended by a line feed,
    a carriage return, or both, reads back as the URLs in file order,
    provided each starts with [http], has no white space at either end and
    spans one line. *)
Theorem read_urls_from_file_round_trip (lines : list (Py.str * Py.str)) :
  Forall (fun line =>
            Py.startswith (py "http") (fst line) = true
            /\ Py.strip (fst line) = fst line
            /\ ~ In newline (fst line)
            /\ ~ In carriage_return (fst line)
            /\ line_ending (snd line)) lines ->
  read_urls_from_file
    (Some (flat_map (fun line => fst line ++ snd line) lines))
  = map fst lines.
Proof.
  intros Hlines. unfold read_urls_from_file.
  assert (Hhead : forall ls : list (Py.str * Py.str),
             Forall (fun line =>
                       Py.startswith (py "http") (fst line) = true
                       /\ Py.strip (fst line) = fst line
                       /\ ~ In newline (fst line)
                       /\ ~ In carriage_return (fst line)
                       /\ line_ending (snd line)) ls ->
             match flat_map (fun line => fst line ++ snd line) ls with
             | c :: _ => c <> newline
             | [] => True
             end).
  { intros [|[u eol] ls] H; cbn [flat_map fst snd]; [exact I|].
    apply Forall_cons_1 in H as [(Hhttp & _) _]. cbn [fst] in Hhttp.
    destruct u as [|c u]; [discriminate|]. cbn [app].
    cbn [Py.startswith] in Hhttp.
    change (py "http") with [104; 116; 116; 112]%N in Hhttp.
    apply andb_prop in Hhttp as [Hc _]. apply N.eqb_eq in Hc. subst c.
    discriminate. }
  induction Hlines as [|[u eol] ls (Hhttp & Hstrip & Hnl & Hcr & Heol) Hls IH];
    cbn [flat_map map fst snd] in *; [reflexivity|].
  rewrite <- List.app_assoc.
  rewrite file_lines_line by (try assumption; now apply Hhead).
  cbn [List.filter].
  rewrite (strip_line u Hhttp Hstrip), Hhttp. cbn [map].
  rewrite (strip_line u Hhttp Hstrip). now rewrite IH.
Qed.

Lemma read_urls_from_file_round_trip_witness :
  read_urls_from_file
    (Some (flat_map (fun line => fst line ++ snd line)
                    [(py "https://anime1.me/1", [carriage_return; newline]);
                     (py "http://anime1.me/2", [carriage_return]);
                     (py "https://anime1.me/3", [newline])]))
  = map fst [(py "https://anime1.me/1", [carriage_return; newline]);
             (py "http://anime1.me/2", [carriage_return]);
             (py "https://anime1.me/3", [newline])].
Proof.
  apply read_urls_from_file_round_trip.
  repeat (apply Forall_cons_2;
          [split; [vm_compute; reflexivity|];
           split; [vm_compute; reflexivity|];
           split; [vm_compute; intuition discriminate|];
           split; [vm_compute; intuition discriminate|];
           unfold line_ending; cbn [snd]; auto|]).
  apply Forall_nil_2.
Defined.

(** ** Listing pages *)

Section ListingFacts.
Context (E : Env) (listing : Py.str -> Listing).

Lemma session_post_run url body w :
  session_post E url body w
  = (inr (http_post E url body),
     mkWorld (fs w) (trace w ++ [Post url body])).
Proof. reflexivity. Qed.

Lemma get_season_episodes_loop_chain url older fuel episodes w :
  page_chain E listing url older ->
  (length older < fuel)%nat ->
  get_season_episodes_loop E listing fuel (Some url) episodes w
  = (inr (Some (episodes
                  ++ flat_map (fun u => bookmarks (listing_page E listing u))
                              (url :: older))),
     mkWorld (fs w)
             (trace w ++ map (fun u => Post u None) (url :: older))).
Proof.
  revert url fuel episodes w.
  induction older as [|next older IH]; intros url fuel episodes w;
    cbn [page_chain]; intros [Hne Hprev] Hfuel;
    (destruct url as [|c u]; [congruence|]);
    (destruct fuel as [|fuel]; [cbn [length] in Hfuel; lia|]);
    cbn [get_season_episodes_loop];
    rewrite run_bind, session_post_run; unfold listing_page in *.
  - destruct (nav_previous (listing (text (http_post E (c :: u) None))))
      as [[|c' u']|]; try discriminate;
      destruct fuel; cbn [get_season_episodes_loop flat_map map];
      rewrite run_ret, app_nil_r; reflexivity.
  - destruct Hprev as [Hprev Hchain]. rewrite Hprev.
    rewrite (IH next fuel _ _ Hchain) by (cbn [length] in Hfuel; lia).
    cbn [fs trace flat_map map].
    now rewrite <- !List.app_assoc.
Qed.

End ListingFacts.

(** X21. Over listing pages chained by their previous-page links, with
    room for one more page than there are older ones, the season listing
    is the bookmarks of the first page followed by those of the older
    pages, page by page; each page has been asked for once, in that order,
    and nothing else was done. *)
Theorem get_season_episodes_chain (E : Env) (listing : Py.str -> Listing)
  (url : Py.str) (older : list Py.str) (fuel : nat) (w : World) :
  page_chain E listing url older ->
  (length older < fuel)%nat ->
  get_season_episodes E listing fuel url w
  = (inr (Some (flat_map (fun u => bookmarks (listing_page E listing u))
                         (url :: older))),
     mkWorld (fs w)
             (trace w ++ map (fun u => Post u None) (url :: older))).
Proof.
  intros Hchain Hfuel. unfold get_season_episodes.
  now rewrite (get_season_episodes_loop_chain E listing url older fuel []
                 w Hchain Hfuel).
Qed.

Lemma get_season_episodes_chain_witness :
  get_season_episodes Sample.catalogue Sample.season_pages 2
                      Sample.season_url Sample.fresh
  = (inr (Some (flat_map
                  (fun u => bookmarks (listing_page Sample.catalogue
                                                    Sample.season_pages u))
                  [Sample.season_url; Sample.season_page_2])),
     mkWorld (fs Sample.fresh)
             (trace Sample.fresh
                ++ map (fun u => Post u None)
                       [Sample.season_url; Sample.season_page_2])).
Proof.
  apply (get_season_episodes_chain Sample.catalogue Sample.season_pages
           Sample.season_url [Sample.season_page_2] 2 Sample.fresh).
  - split; [discriminate|]. split; [vm_compute; reflexivity|].
    split; [discriminate | vm_compute; reflexivity].
  - simpl. lia.
Defined.

(** X22. A listing page whose previous-page link points back at the page
    itself never lets the loop end: whatever the number of pages allowed,
    that many requests for the page are sent and no list is returned. *)
Theorem get_season_episodes_cycle (E : Env) (listing : Py.str -> Listing)
  (url : Py.str) (fuel : nat) (w : World) :
  url <> [] ->
  nav_previous (listing_page E listing url) = Some url ->
  get_season_episodes E listing fuel url w
  = (inr None,
     mkWorld (fs w) (trace w ++ repeat (Post url None) fuel)).
Proof.
  intros Hne Hprev. unfold get_season_episodes.
  generalize (@nil (option Py.str)) as episodes. revert w.
  destruct url as [|c u]; [congruence|].
  induction fuel as [|fuel IH]; intros w episodes;
    cbn [get_season_episodes_loop repeat].
  - rewrite run_ret, app_nil_r. now destruct w.
  - rewrite run_bind, session_post_run. unfold listing_page in Hprev.
    rewrite Hprev, IH. cbn [fs trace].
    now rewrite <- List.app_assoc.
Qed.

Lemma get_season_episodes_cycle_witness :
  get_season_episodes Sample.catalogue Sample.season_pages 3
                      Sample.looping_url Sample.fresh
  = (inr None,
     mkWorld (fs Sample.fresh)
             (trace Sample.fresh
                ++ repeat (Post Sample.looping_url None) 3)).
Proof.
  apply get_season_episodes_cycle; [discriminate | vm_compute; reflexivity].
Defined.

(** ** Classifying the URLs *)

(** X23. When none of the URLs is a category URL, classification is a
    filter: it keeps, stripped and in their order, the URLs that name an
    episode of the site, and it sends no request. *)
Theorem classify_urls_episodes_only (E : Env) (listing : Py.str -> Listing)
  (fuel : nat) (anime_urls : list Py.str) (w : World) :
  Forall (fun url => is_category_url (Py.strip url) = false) anime_urls ->
  classify_urls E listing fuel anime_urls w
  = (inr (Some (map Some (List.filter is_episode_url
                                      (map Py.strip anime_urls)))),
     w).
Proof.
  intros Hurls. unfold classify_urls.
  change (map Some (List.filter is_episode_url (map Py.strip anime_urls)))
    with ([] ++ map Some (List.filter is_episode_url
                                      (map Py.strip anime_urls))).
  generalize (@nil (option Py.str)) as url_list.
  induction Hurls as [|url rest Hurl Hrest IH]; intros url_list;
    cbn [classify_urls_loop map List.filter].
  - now rewrite run_ret, app_nil_r.
  - rewrite Hurl. destruct (is_episode_url (Py.strip url)).
    + rewrite IH. cbn [map]. now rewrite <- List.app_assoc.
    + apply IH.
Qed.

Lemma classify_urls_episodes_only_witness :
  classify_urls Sample.catalogue Sample.season_pages 2
                [py " https://anime1.me/12345 ";
                 py "https://example.org/12345";
                 py "HTTPS://ANIME1.ME/678"]
                Sample.fresh
  = (inr (Some (map Some
                    (List.filter is_episode_url
                       (map Py.strip
                            [py " https://anime1.me/12345 ";
                             py "https://example.org/12345";
                             py "HTTPS://ANIME1.ME/678"])))),
     Sample.fresh).
Proof.
  apply classify_urls_episodes_only.
  repeat (apply Forall_cons_2; [vm_compute; reflexivity|]).
  apply Forall_nil_2.
Defined.

(** ** The loop over the episodes *)

Section LoopFacts.
Context (E : Env) (cfg : Config).

Lemma grows_download_mp4 download_url video_path h :
  grows (download_mp4 E download_url video_path h).
Proof. unfold download_mp4, py_int. growing. Qed.

Lemma grows_download_ts download_url video_path h :
  grows (download_ts E download_url video_path h).
Proof.
  unfold download_ts, parse_m3u8_from_url.
  apply grows_bind; [apply grows_parse_m3u8_loop|]. intros ts_links.
  growing.
Qed.

Lemma grows_fetch_media video_url h title :
  grows (fetch_media E cfg video_url h title).
Proof.
  unfold fetch_media.
  apply grows_bind; [apply silent_grows, silent_process_video_name|].
  intros video_path.
  apply grows_bind;
    [|intros _; apply silent_grows, silent_validate_download].
  destruct (Py.eqb _ (py "mp4")); [apply grows_download_mp4|].
  destruct (Py.eqb _ (py "m3u8")); [apply grows_download_ts|].
  growing.
Qed.

(** Every attempt at an episode starts by asking for its page. *)
Lemma download_episode_begins url w :
  exists l,
    trace (snd (download_episode E cfg url w))
    = trace w ++ Post url None :: l.
Proof.
  assert (Hrest : forall (k : Response -> M unit),
             (forall r, grows (k r)) ->
             exists l,
               trace (snd ((session_post E url None ≫= k) w))
               = trace w ++ Post url None :: l).
  { intros k Hk. rewrite run_bind, session_post_run.
    destruct (Hk (http_post E url None)
                 (mkWorld (fs w) (trace w ++ [Post url None]))) as [l Hl].
    exists l. rewrite Hl. cbn [trace]. now rewrite <- List.app_assoc. }
  unfold download_episode. apply Hrest. intros response. cbv zeta.
  destruct (video_js (soup E (text response))) as [attr|]; [|growing].
  destruct (negb (truthy attr)); [growing|].
  apply grows_bind; [growing|]. intros api_response.
  apply grows_bind; [growing|]. intros api_data.
  apply grows_bind; [growing|]. intros first.
  destruct (negb (truthy (src first))); [growing|].
  destruct (search_cookie (py "e=") _) as [cookie_e|]; [|growing].
  destruct (search_cookie (py "p=") _) as [cookie_p|]; [|growing].
  destruct (search_cookie (py "HttpOnly, h=") _) as [cookie_h|]; [|growing].
  destruct (entry_title _) as [title_text|]; [|growing].
  apply (grows_fetch_media (py "https:" ++ str_of (src first))).
Qed.

Lemma download_all_step url rest failed_list w :
  download_all E cfg (url :: rest) failed_list w
  = match download_episode E cfg url w with
    | (inl e, w1) => download_all E cfg rest (failed_list ++ [(url, e)]) w1
    | (inr _, w1) => download_all E cfg rest failed_list w1
    end.
Proof.
  cbn [download_all]. rewrite run_bind. unfold catch. rewrite run_bind.
  destruct (download_episode E cfg url w) as [[e|[]] w1]; reflexivity.
Qed.

End LoopFacts.

(** X24. The loop over the episodes never raises: every URL is attempted,
    each attempt starting with the request for its page whatever happened
    to the episodes before it, and the failures recorded are, in order,
    failures of URLs of the list, added after those already recorded. *)
Theorem download_all_never_raises (E : Env) (cfg : Config)
  (url_list : list Py.str) (failed_list : list (Py.str * exn)) (w : World) :
  let r := download_all E cfg url_list failed_list w in
  exists failures l,
    fst r = inr (failed_list ++ failures)
    /\ sublist (map fst failures) url_list
    /\ trace (snd r) = trace w ++ l
    /\ sublist (map (fun url => Post url None) url_list) l.
Proof.
  cbv zeta. revert failed_list w.
  induction url_list as [|url rest IH]; intros failed_list w.
  - exists [], []. cbn [download_all]. rewrite run_ret, !app_nil_r.
    cbn [fst snd map]. repeat split; constructor.
  - rewrite download_all_step.
    destruct (download_episode_begins E cfg url w) as [l1 Hl1].
    destruct (download_episode E cfg url w) as [[e|[]] w1]; cbn [snd] in Hl1.
    + destruct (IH (failed_list ++ [(url, e)]) w1)
        as (failures & l & Hfst & Hsub & Htrace & Hposts).
      exists ((url, e) :: failures), (Post url None :: l1 ++ l).
      rewrite Hfst, Htrace, Hl1. cbn [map fst].
      split; [now rewrite <- List.app_assoc|].
      split; [now apply sublist_skip|].
      split; [now rewrite <- List.app_assoc|].
      apply sublist_skip. now apply sublist_inserts_l.
    + destruct (IH failed_list w1)
        as (failures & l & Hfst & Hsub & Htrace & Hposts).
      exists failures, (Post url None :: l1 ++ l).
      rewrite Hfst, Htrace, Hl1. cbn [map fst].
      split; [reflexivity|].
      split; [now apply sublist_cons|].
      split; [now rewrite <- List.app_assoc|].
      apply sublist_skip. now apply sublist_inserts_l.
Qed.
